(** * Foundry: the template-materialization pipeline

    A shallow embedding of [internal/utils/utils.go],
    [internal/project/create.go] and the part of [cmd/new.go] that drives
    them, together with the properties stated for them.

    Conventions of the embedding:
    - a Go [string] and a Go [[]byte] are both a Rocq [string], a
      sequence of 8-bit characters; the conversions [string(content)] and
      [[]byte(s)] are the identity;
    - a Go [map[string]string] is a [gmap string string]; the order in
      which [range] enumerates a map is not fixed by Go, so every function
      that ranges over a map takes the enumeration as an argument
      [range], and the theorems quantify over every enumeration that
      lists each entry of the map once;
    - the operating system is Unix: [os.PathSeparator] is "/". *)

From Stdlib Require Import Strings.String Strings.Ascii ZArith Lia.
From stdpp Require Import gmap strings list fin_maps.

(** ** Package [strings] of the Go library *)
Module Strings.

(** [strings.HasPrefix s prefix] *)
Definition HasPrefix (s prefix : string) : bool := String.prefix prefix s.

(** [strings.HasSuffix s suffix] *)
Definition HasSuffix (s suffix : string) : bool :=
  let n := String.length s in
  let k := String.length suffix in
  (k <=? n)%nat && String.eqb (String.substring (n - k) k s) suffix.

(** [strings.TrimSuffix s suffix] *)
Definition TrimSuffix (s suffix : string) : string :=
  if HasSuffix s suffix
  then String.substring 0 (String.length s - String.length suffix) s
  else s.

(** [strings.Contains s substr] *)
Fixpoint Contains (s substr : string) : bool :=
  HasPrefix s substr ||
  match s with
  | EmptyString => false
  | String _ s' => Contains s' substr
  end.

(** The scan of [strings.ReplaceAll] for a non-empty [old]: [skip] is the
    number of characters of the current match still to be passed over. *)
Fixpoint replace_from (old new : string) (skip : nat) (s : string) : string :=
  match s with
  | EmptyString => EmptyString
  | String c s' =>
      match skip with
      | S k => replace_from old new k s'
      | O =>
          if HasPrefix s old
          then new +:+ replace_from old new (String.length old - 1) s'
          else String c (replace_from old new 0 s')
      end
  end.

(** The case of an empty [old]: [new] is put before every character and
    at the end (Go counts UTF-8 sequences; the embedding counts bytes). *)
Fixpoint intersperse (new s : string) : string :=
  match s with
  | EmptyString => new
  | String c s' => new +:+ String c (intersperse new s')
  end.

(** [strings.ReplaceAll s old new]: every non-overlapping instance of
    [old], from left to right. *)
Definition ReplaceAll (s old new : string) : string :=
  match old with
  | EmptyString => intersperse new s
  | String _ _ => replace_from old new 0 s
  end.

Definition map_bytes (f : ascii → ascii) : string → string :=
  fix go s :=
    match s with
    | EmptyString => EmptyString
    | String c s' => String (f c) (go s')
    end.

Definition lower_byte (c : ascii) : ascii :=
  let n := nat_of_ascii c in
  if (65 <=? n)%nat && (n <=? 90)%nat then ascii_of_nat (n + 32) else c.

Definition upper_byte (c : ascii) : ascii :=
  let n := nat_of_ascii c in
  if (97 <=? n)%nat && (n <=? 122)%nat then ascii_of_nat (n - 32) else c.

(** [strings.ToLower] and [strings.ToUpper] on the ASCII letters; bytes
    above 127 are kept (Go also maps the letters of other scripts). *)
Definition ToLower : string → string := map_bytes lower_byte.
Definition ToUpper : string → string := map_bytes upper_byte.

(** The white space of [unicode.IsSpace], each character in its UTF-8
    encoding: the six of ASCII (tab, line feed, vertical tab, form feed,
    carriage return, space), U+0085, U+00A0, U+1680, U+2000 to U+200A,
    U+2028, U+2029, U+202F, U+205F and U+3000. *)
Definition utf8 (bytes : list nat) : string :=
  foldr (λ n s, String (ascii_of_nat n) s) EmptyString bytes.

Definition white_space : list string :=
  utf8 <$> [[9]; [10]; [11]; [12]; [13]; [32];
            [194; 133]; [194; 160]; [225; 154; 128];
            [226; 128; 128]; [226; 128; 129]; [226; 128; 130]; [226; 128; 131];
            [226; 128; 132]; [226; 128; 133]; [226; 128; 134]; [226; 128; 135];
            [226; 128; 136]; [226; 128; 137]; [226; 128; 138];
            [226; 128; 168]; [226; 128; 169]; [226; 128; 175];
            [226; 129; 159]; [227; 128; 128]].

(** The rest of [s] after [prefix], when [s] starts with it. *)
Fixpoint cut_prefix (s prefix : string) {struct prefix} : option string :=
  match prefix, s with
  | EmptyString, _ => Some s
  | String a p, String b s' => if Ascii.eqb a b then cut_prefix s' p else None
  | String _ _, EmptyString => None
  end.

(** The part of [s] before [suffix], when [s] ends with it. *)
Definition cut_suffix (s suffix : string) : option string :=
  if HasSuffix s suffix
  then Some (String.substring 0 (String.length s - String.length suffix) s)
  else None.

(** The first of the cuts of [s] by a white-space character that
    succeeds. An encoding above is read as that character at the start of
    any text, and at its end as well: the decoder that reads a text from
    its end goes back to the nearest byte that can open a sequence, which
    is the first byte of the encoding. *)
Definition cut_space (cut : string → string → option string) (s : string)
  : option string :=
  foldr (λ e found, match cut s e with Some rest => Some rest | None => found end)
        None white_space.

(** The loop of [strings.TrimLeftFunc] and of [strings.TrimRightFunc] with
    [unicode.IsSpace]: at most [n] characters are cut off. *)
Fixpoint trim (cut : string → string → option string) (n : nat) (s : string)
  : string :=
  match n with
  | O => s
  | S n' =>
      match cut_space cut s with
      | Some rest => trim cut n' rest
      | None => s
      end
  end.

Definition trim_left (s : string) : string := trim cut_prefix (String.length s) s.

(** Drops the trailing white space. *)
Definition trim_right (s : string) : string := trim cut_suffix (String.length s) s.

(** [strings.TrimSpace s] *)
Definition TrimSpace (s : string) : string := trim_right (trim_left s).

(** Splits [s] at every occurrence of the character [sep], as
    [strings.Split] does for a one-character separator. *)
Fixpoint split_on (sep : ascii) (s : string) : list string :=
  match s with
  | EmptyString => [EmptyString]
  | String c s' =>
      if Ascii.eqb c sep then EmptyString :: split_on sep s'
      else match split_on sep s' with
           | [] => [String c EmptyString]
           | x :: xs => String c x :: xs
           end
  end.

(** [strings.Join elems sep] *)
Fixpoint Join (elems : list string) (sep : string) : string :=
  match elems with
  | [] => EmptyString
  | [x] => x
  | x :: xs => x +:+ sep +:+ Join xs sep
  end.

(** [strings.ContainsAny s chars], on bytes. *)
Fixpoint has_byte (c : ascii) (chars : string) : bool :=
  match chars with
  | EmptyString => false
  | String d chars' => Ascii.eqb d c || has_byte c chars'
  end.

Fixpoint ContainsAny (s chars : string) : bool :=
  match s with
  | EmptyString => false
  | String c s' => has_byte c chars || ContainsAny s' chars
  end.

End Strings.

(** ** Package [path/filepath] of the Go library, on Unix *)
Module Filepath.
Import Strings.

Definition Separator : ascii := "/"%char.
Definition SeparatorString : string := "/".

(** [filepath.ToSlash]: replaces the separator by a slash where the two
    differ. *)
Definition ToSlash (path : string) : string :=
  if Ascii.eqb Separator "/"%char then path
  else map_bytes (λ c, if Ascii.eqb c Separator then "/"%char else c) path.

Definition IsAbs (path : string) : bool := HasPrefix path "/".

(** One element of a path pushed on the elements kept so far (the last
    one first), as [Clean] treats it. *)
Definition clean_step (rooted : bool) (kept : list string) (e : string)
  : list string :=
  if String.eqb e "" || String.eqb e "." then kept
  else if String.eqb e ".." then
    match kept with
    | top :: rest => if String.eqb top ".." then e :: kept else rest
    | [] => if rooted then [] else [e]
    end
  else e :: kept.

(** [filepath.Clean] *)
Definition Clean (path : string) : string :=
  if String.eqb path "" then "."
  else
    let rooted := IsAbs path in
    let kept := rev (foldl (clean_step rooted) [] (split_on Separator path)) in
    if rooted then "/" +:+ Strings.Join kept "/"
    else match kept with
         | [] => "."
         | _ => Strings.Join kept "/"
         end.

(** [filepath.Join]: the leading empty elements are dropped, the rest is
    joined with the separator and cleaned. *)
Fixpoint Join (elem : list string) : string :=
  match elem with
  | [] => ""
  | e :: rest =>
      if String.eqb e "" then Join rest else Clean (Strings.Join elem "/")
  end.

Definition nonempty (s : string) : bool := negb (String.eqb s "").

(** The elements of a cleaned path. *)
Definition elements (path : string) : list string :=
  List.filter nonempty (split_on Separator path).

(** [filepath.Base] *)
Definition Base (path : string) : string :=
  if String.eqb path "" then "."
  else match rev (elements path) with
       | [] => "/"
       | e :: _ => e
       end.

(** [filepath.Dir] *)
Definition Dir (path : string) : string :=
  match rev (split_on Separator path) with
  | [] => "."
  | _ :: front => Clean (Strings.Join (rev front) "/" +:+
                         (if IsAbs path then "/" else ""))
  end.

Fixpoint strip_common (b t : list string) : list string * list string :=
  match b, t with
  | x :: b', y :: t' =>
      if String.eqb x y then strip_common b' t' else (b, t)
  | _, _ => (b, t)
  end.

(** [filepath.Rel basepath targpath]: the path and whether the error is
    non-nil; the path is empty when it is. *)
Definition Rel (basepath targpath : string) : string * bool :=
  let base := Clean basepath in
  let targ := Clean targpath in
  if String.eqb targ base then (".", false)
  else
    let base := if String.eqb base "." then "" else base in
    if negb (Bool.eqb (IsAbs base) (IsAbs targ)) then ("", true)
    else
      let '(b, t) := strip_common (elements base) (elements targ) in
      match b with
      | [] => (Strings.Join t "/", false)
      | e :: _ =>
          if String.eqb e ".." then ("", true)
          else (Strings.Join (List.map (λ _, "..") b ++ t) "/", false)
      end.

(** *** [filepath.Match]

    The documented pattern language, on bytes: [*] is any sequence of
    characters other than the separator, [?] one such character, a
    class in brackets one character, a backslash quotes the next
    character. A malformed pattern matches nothing (the callers drop
    the error). *)
Inductive term :=
| Star
| Any
| Lit (c : ascii)
| Class (negated : bool) (ranges : list (ascii * ascii)).

(** One bound of a range, [getEsc]: the character and the rest. *)
Definition getEsc (chunk : string) : option (ascii * string) :=
  match chunk with
  | EmptyString => None
  | String "-" _ | String "]" _ => None
  | String "\" EmptyString => None
  | String "\" (String _ EmptyString) => None
  | String "\" (String c rest) => Some (c, rest)
  | String _ EmptyString => None
  | String c rest => Some (c, rest)
  end.

(** The ranges of a class up to its closing bracket. *)
Fixpoint class_ranges (fuel : nat) (chunk : string) (acc : list (ascii * ascii))
  : option (list (ascii * ascii) * string) :=
  match fuel with
  | O => None
  | S fuel' =>
      match chunk, acc with
      | String "]" rest, _ :: _ => Some (rev acc, rest)
      | _, _ =>
          match getEsc chunk with
          | None => None
          | Some (lo, String "-" rest) =>
              match getEsc rest with
              | None => None
              | Some (hi, rest') => class_ranges fuel' rest' ((lo, hi) :: acc)
              end
          | Some (lo, rest) => class_ranges fuel' rest ((lo, lo) :: acc)
          end
      end
  end.

Fixpoint parse (fuel : nat) (pattern : string) : option (list term) :=
  match fuel with
  | O => None
  | S fuel' =>
      match pattern with
      | EmptyString => Some []
      | String "*" rest => cons Star <$> parse fuel' rest
      | String "?" rest => cons Any <$> parse fuel' rest
      | String "\" EmptyString => None
      | String "\" (String c rest) => cons (Lit c) <$> parse fuel' rest
      | String "[" (String "^" rest) =>
          match class_ranges fuel' rest [] with
          | None => None
          | Some (rs, rest') => cons (Class true rs) <$> parse fuel' rest'
          end
      | String "[" rest =>
          match class_ranges fuel' rest [] with
          | None => None
          | Some (rs, rest') => cons (Class false rs) <$> parse fuel' rest'
          end
      | String c rest => cons (Lit c) <$> parse fuel' rest
      end
  end.

Definition byte_le (a b : ascii) : bool :=
  (nat_of_ascii a <=? nat_of_ascii b)%nat.

Definition in_ranges (c : ascii) (rs : list (ascii * ascii)) : bool :=
  existsb (λ r, byte_le r.1 c && byte_le c r.2) rs.

Fixpoint matches (ts : list term) : string → bool :=
  match ts with
  | [] => λ name, String.eqb name ""
  | Star :: ts' =>
      fix star (name : string) : bool :=
        matches ts' name ||
        match name with
        | EmptyString => false
        | String c name' => negb (Ascii.eqb c Separator) && star name'
        end
  | Any :: ts' => λ name,
      match name with
      | EmptyString => false
      | String c name' => negb (Ascii.eqb c Separator) && matches ts' name'
      end
  | Lit d :: ts' => λ name,
      match name with
      | EmptyString => false
      | String c name' => Ascii.eqb c d && matches ts' name'
      end
  | Class negated rs :: ts' => λ name,
      match name with
      | EmptyString => false
      | String c name' =>
          negb (Bool.eqb (in_ranges c rs) negated) && matches ts' name'
      end
  end.

(** [filepath.Abs path] in a process whose working directory is [wd]. *)
Definition Abs (wd path : string) : string :=
  if IsAbs path then Clean path else Join [wd; path].

(** [filepath.Match pattern name], the error dropped. *)
Definition Match (pattern name : string) : bool :=
  match parse (S (String.length pattern)) pattern with
  | None => false
  | Some ts => matches ts name
  end.

(** [filepath.Ext]: the suffix of the last element of the path from its
    last dot on, empty when that element has no dot. *)
Fixpoint Ext (path : string) : string :=
  match path with
  | EmptyString => EmptyString
  | String c rest =>
      match Ext rest with
      | EmptyString =>
          if Ascii.eqb c "."%char && negb (Contains rest "/") then path
          else EmptyString
      | ext => ext
      end
  end.

End Filepath.

(** ** The file system and package [os]

    A file system without symbolic links in which every operation is
    permitted: a finite map from the cleaned absolute path of an entry to
    the entry. Permission bits are recorded, not enforced, and the
    process's umask is zero.

    [os.Stat], [os.Lstat] and [os.MkdirAll] are the calls that the
    program makes on a name as the user typed it; they follow the name
    element by element as the kernel does, so that [..] is taken only
    from a directory that exists. The other calls are made on names that
    [filepath.Join] or [filepath.Abs] has cleaned, or that [os.Lstat] has
    found, and look the cleaned name up. *)
Module OS.
Import Strings.

Inductive error :=
| SkipDir
| ErrNotExist (op path : string)
| ErrNotDir (op path : string)
| ErrIsDir (op path : string)
| ErrorString (msg : string)
| Errorf (msg : string) (wrapped : error).

Inductive node :=
| Directory (mode : N)
| Regular (mode : N) (content : string).

Record FileInfo := { Name : string; IsDir : bool; Mode : N }.

(** The state of the process: the file system, the working directory,
    and the paths on which [filepath.Walk] has called its function so
    far (the latest first). *)
Record world := World {
  fsys : gmap string node;
  cwd : string;
  visited : list string
}.

Definition M (A : Type) : Type := world → A * world.

#[global] Instance M_ret : MRet M := λ A a w, (a, w).
#[global] Instance M_bind : MBind M := λ A B f c w, let '(a, w') := c w in f a w'.

Definition resolve (w : world) (name : string) : string :=
  Filepath.Abs (cwd w) name.

Definition info_of (name : string) (n : node) : FileInfo :=
  match n with
  | Directory mode => {| Name := Filepath.Base name; IsDir := true; Mode := mode |}
  | Regular mode _ => {| Name := Filepath.Base name; IsDir := false; Mode := mode |}
  end.

(** How the walk of the kernel along a name ends: at an entry to look
    up - below a regular file or not -, at a directory that is missing,
    or in a regular file. *)
Inductive walked := Reached (below_file : bool) | Missing | NotDirectory.

Definition is_file (fs : gmap string node) (path : string) : bool :=
  match fs !! path with
  | Some (Regular _ _) => true
  | _ => false
  end.

(** The walk along the elements of a name, from the directory [cur]:
    [..] leaves a directory that exists; an empty element (of a doubled
    or a final slash) and [.] stay, and not in a regular file; any other
    element is the name of an entry of [cur], which is looked up when
    the walk is over. [below] tells that a name was taken in a regular
    file: what is missing there is missing with ENOTDIR. *)
Fixpoint namei (fs : gmap string node) (cur : string) (elems : list string)
    (below : bool) : walked :=
  match elems with
  | [] => Reached below
  | e :: rest =>
      if String.eqb e ".." then
        match fs !! cur with
        | Some (Directory _) => namei fs (Filepath.Dir cur) rest below
        | Some (Regular _ _) => NotDirectory
        | None => if below then NotDirectory else Missing
        end
      else if String.eqb e "" || String.eqb e "." then
        if is_file fs cur then NotDirectory else namei fs cur rest below
      else namei fs (Filepath.Join [cur; e]) rest (below || is_file fs cur)
  end.

(** The walk along [name]: from the root when it starts with a slash,
    from the working directory otherwise; the empty name is the name of
    nothing. *)
Definition walk_name (w : world) (name : string) : walked :=
  match name with
  | EmptyString => Missing
  | String c rest =>
      if Ascii.eqb c "/"
      then namei (fsys w) "/" (split_on "/" rest) false
      else namei (fsys w) (cwd w) (split_on "/" name) false
  end.

(** The error of a name that is not there. *)
Definition missing (name : string) (below_file : bool) : error :=
  if below_file then ErrNotDir "stat" name else ErrNotExist "stat" name.

(** [os.Stat] and [os.Lstat], which agree without symbolic links. A walk
    that succeeds ends at the cleaned name. *)
Definition Stat (name : string) : M (option FileInfo * option error) :=
  λ w, match walk_name w name with
       | Reached below =>
           match fsys w !! resolve w name with
           | Some n => ((Some (info_of name n), None), w)
           | None => ((None, Some (missing name below)), w)
           end
       | Missing => ((None, Some (ErrNotExist "stat" name)), w)
       | NotDirectory => ((None, Some (ErrNotDir "stat" name)), w)
       end.

Definition Lstat := Stat.

(** [os.IsNotExist] *)
Definition IsNotExist (err : option error) : bool :=
  match err with
  | Some (ErrNotExist _ _) => true
  | _ => false
  end.

(** [os.ReadFile] *)
Definition ReadFile (name : string) : M (string * option error) :=
  λ w, match fsys w !! resolve w name with
       | Some (Regular _ content) => ((content, None), w)
       | Some (Directory _) => (("", Some (ErrIsDir "read" name)), w)
       | None => (("", Some (ErrNotExist "open" name)), w)
       end.

(** [os.WriteFile]: creates the file with [perm] (the umask is zero) or
    truncates it, which keeps its permission bits; the directory that
    holds it must exist. A write takes place whole or not at all: one
    that the system cuts short is outside the model. *)
Definition WriteFile (name data : string) (perm : N) : M (option error) :=
  λ w,
    let p := resolve w name in
    match fsys w !! p with
    | Some (Directory _) => (Some (ErrIsDir "open" name), w)
    | Some (Regular mode _) =>
        (None, World (<[p := Regular mode data]> (fsys w)) (cwd w) (visited w))
    | None =>
        match fsys w !! Filepath.Dir p with
        | Some (Directory _) =>
            (None, World (<[p := Regular perm data]> (fsys w)) (cwd w) (visited w))
        | Some (Regular _ _) => (Some (ErrNotDir "open" name), w)
        | None => (Some (ErrNotExist "open" name), w)
        end
    end.

(** The directories along the elements [elems] of a name, from the
    directory [parent], made where missing: a directory that is named is
    there when the walk goes on, so that [..] always finds the one it
    leaves. *)
Fixpoint mkdir_from (name parent : string) (elems : list string) (perm : N)
    (fs : gmap string node) : option error * gmap string node :=
  match elems with
  | [] => (None, fs)
  | e :: rest =>
      if String.eqb e "" || String.eqb e "." then mkdir_from name parent rest perm fs
      else if String.eqb e ".." then
        mkdir_from name (Filepath.Dir parent) rest perm fs
      else
        let p := Filepath.Join [parent; e] in
        match fs !! p with
        | Some (Directory _) => mkdir_from name p rest perm fs
        | Some (Regular _ _) => (Some (ErrNotDir "mkdir" name), fs)
        | None => mkdir_from name p rest perm (<[p := Directory perm]> fs)
        end
  end.

(** [os.MkdirAll]: the directory and the parents it needs, all with
    [perm]; nothing to do when it is there already. The empty name cannot
    be made. *)
Definition MkdirAll (path : string) (perm : N) : M (option error) :=
  λ w,
    match path with
    | EmptyString => (Some (ErrNotExist "mkdir" path), w)
    | String c rest =>
        let '(err, fs') :=
          if Ascii.eqb c "/"
          then mkdir_from path "/" (split_on "/" rest) perm (fsys w)
          else mkdir_from path (cwd w) (split_on "/" path) perm (fsys w) in
        (err, World fs' (cwd w) (visited w))
    end.

Fixpoint insert_sorted (x : string) (l : list string) : list string :=
  match l with
  | [] => [x]
  | y :: l' => if String.leb x y then x :: l else y :: insert_sorted x l'
  end.

Definition sort_strings (l : list string) : list string :=
  foldr insert_sorted [] l.

(** [readDirNames] of [filepath]: the names in a directory, sorted. *)
Definition readDirNames (dirname : string) : M (list string * option error) :=
  λ w,
    let p := resolve w dirname in
    match fsys w !! p with
    | Some (Directory _) =>
        let children :=
          List.filter
            (λ k, String.eqb (Filepath.Dir k) p && negb (String.eqb k p))
            (map_to_list (fsys w)).*1 in
        ((sort_strings (Filepath.Base <$> children), None), w)
    | Some (Regular _ _) => (([], Some (ErrNotDir "open" dirname)), w)
    | None => (([], Some (ErrNotExist "open" dirname)), w)
    end.

(** [filepath.EvalSymlinks]: there are no links to follow, so an
    existing path is returned cleaned. *)
Definition EvalSymlinks (path : string) : M (string * option error) :=
  λ w, match fsys w !! resolve w path with
       | Some _ => ((Filepath.Clean path, None), w)
       | None => (("", Some (ErrNotExist "lstat" path)), w)
       end.

Definition log_visit (path : string) : M unit :=
  λ w, (tt, World (fsys w) (cwd w) (path :: visited w)).

End OS.

(** ** [filepath.Walk] *)
Module Walk.
Import OS.

(** A [filepath.WalkFunc] whose closure holds local variables of type
    [L]. *)
Definition WalkFunc (L : Type) : Type :=
  string → option FileInfo → option error → L → M (option error * L).

Definition is_nil (e : option error) : bool :=
  match e with None => true | Some _ => false end.

Definition is_SkipDir (e : option error) : bool :=
  match e with Some SkipDir => true | _ => false end.

Definition call {L} (fn : WalkFunc L) (path : string) (info : option FileInfo)
    (err : option error) (l : L) : M (option error * L) :=
  _ ← log_visit path; fn path info err l.

(** The loop of [walk] over the names read from the directory [path];
    [rec] is the walk of one entry. *)
Definition walk_names {L}
    (rec : string → FileInfo → L → world → option (option error * L * world))
    (fn : WalkFunc L) (path : string)
  : list string → L → world → option (option error * L * world) :=
  fix each (names : list string) (l : L) (w : world) :=
    match names with
    | [] => Some (None, l, w)
    | name :: names' =>
        let filename := Filepath.Join [path; name] in
        let '((fileInfo, err), w) := Lstat filename w in
        match fileInfo with
        | None =>
            let '((err', l), w) := call fn filename fileInfo err l w in
            if negb (is_nil err') && negb (is_SkipDir err')
            then Some (err', l, w)
            else each names' l w
        | Some fi =>
            match rec filename fi l w with
            | None => None
            | Some (err', l, w) =>
                if negb (is_nil err') &&
                   (negb (IsDir fi) || negb (is_SkipDir err'))
                then Some (err', l, w)
                else each names' l w
            end
        end
    end.

(** [walk] of [filepath]: the names of a directory are read before the
    function is called on it, and each entry is looked up again when
    its turn comes. The directories of a file system that grows during
    the walk need not be finitely many, so the recursion is bounded by
    [fuel]; [None] is a walk that has not ended within it. *)
Fixpoint walk {L} (fuel : nat) (fn : WalkFunc L) (path : string)
    (info : FileInfo) (l : L) (w : world) : option (option error * L * world) :=
  match fuel with
  | O => None
  | S fuel' =>
      if negb (IsDir info) then Some (call fn path (Some info) None l w)
      else
        let '((names, err), w) := readDirNames path w in
        let '((err1, l), w) := call fn path (Some info) err l w in
        if negb (is_nil err) || negb (is_nil err1) then Some (err1, l, w)
        else walk_names (walk fuel' fn) fn path names l w
  end.

(** [filepath.Walk root fn] *)
Definition Walk {L} (fuel : nat) (root : string) (fn : WalkFunc L) (l : L)
    (w : world) : option (option error * L * world) :=
  let '((info, err), w) := Lstat root w in
  let r :=
    match info with
    | None => Some (call fn root None err l w)
    | Some fi => walk fuel fn root fi l w
    end in
  match r with
  | None => None
  | Some (err, l, w) => Some (if is_SkipDir err then None else err, l, w)
  end.

End Walk.

(** ** [internal/utils/utils.go] *)
Module Utils.
Import Strings.

(** [Min] *)
Definition Min (a b : Z) : Z := if (a <? b)%Z then a else b.

Definition len (data : string) : Z := Z.of_nat (String.length data).

Definition zero_byte : ascii := Ascii.zero.

(** [data[i] == 0]; the index is within the data wherever the loop
    below asks. *)
Definition is_zero_at (data : string) (i : Z) : bool :=
  match String.get (Z.to_nat i) data with
  | Some c => Ascii.eqb c zero_byte
  | None => false
  end.

(** The loop of [IsBinary] at index [i] with [n] iterations to go. *)
Fixpoint IsBinary_loop (data : string) (i : Z) (n : nat) : bool :=
  match n with
  | O => false
  | S n' => if is_zero_at data i then true else IsBinary_loop data (i + 1) n'
  end.

(** [IsBinary] *)
Definition IsBinary (data : string) (maxCheckBytes : Z) : bool :=
  let checkSize := Min (len data) maxCheckBytes in
  IsBinary_loop data 0 (Z.to_nat checkSize).

Definition wrap (k : string) : string := "{{" +:+ k +:+ "}}".

(** The map literal at the head of [ReplacePlaceholders]. *)
Definition builtins (projectName author : string) : gmap string string :=
  <["{{PROJECT_NAME_UPPER}}" := ToUpper projectName]>
    (<["{{PROJECT_NAME_LOWER}}" := ToLower projectName]>
       (<["{{AUTHOR}}" := author]>
          (<["{{PROJECT_NAME}}" := projectName]> ∅))).

Section Enumeration.
(** How [range] enumerates the entries of a map. *)
Variable range : gmap string string → list (string * string).

(** The map [replacements] after the first loop. *)
Definition replacements (projectName author : string)
    (extraVars : gmap string string) : gmap string string :=
  foldl (λ m kv, <[wrap kv.1 := kv.2]> m)
        (builtins projectName author) (range extraVars).

(** [ReplacePlaceholders] *)
Definition ReplacePlaceholders (content projectName author : string)
    (extraVars : gmap string string) : string :=
  foldl (λ result kv, ReplaceAll result kv.1 kv.2)
        content (range (replacements projectName author extraVars)).
End Enumeration.

(** An enumeration that [range] may produce: every entry of the map,
    once. *)
Definition enumerates (range : gmap string string → list (string * string))
  : Prop :=
  ∀ m, range m ≡ₚ map_to_list m.

(** [strings.SplitN kv "=" 2] *)
Fixpoint split_eq (kv : string) : list string :=
  match kv with
  | EmptyString => [EmptyString]
  | String c rest =>
      if Ascii.eqb c "="%char then [EmptyString; rest]
      else match split_eq rest with
           | x :: xs => String c x :: xs
           | [] => [String c EmptyString]
           end
  end.

(** [ParseVars] *)
Fixpoint ParseVars_loop (kvs : list string) (result : gmap string string)
  : option (gmap string string) * option OS.error :=
  match kvs with
  | [] => (Some result, None)
  | kv :: kvs' =>
      match split_eq kv with
      | [k; v] =>
          let key := TrimSpace k in
          if String.eqb key ""
          then (None, Some (OS.ErrorString "variable key cannot be empty"))
          else ParseVars_loop kvs' (<[key := v]> result)
      | _ => (None, Some (OS.ErrorString ("invalid var format '" +:+ kv +:+
                                           "', expected key=value")))
      end
  end.

Definition ParseVars (kvs : list string)
  : option (gmap string string) * option OS.error :=
  ParseVars_loop kvs ∅.

(** The lines that [bufio.Scanner] yields: the text between line feeds,
    without a final carriage return, and no line after a final line
    feed. Lines are taken to fit the scanner's buffer. *)
Definition drop_cr (line : string) : string :=
  TrimSuffix line (String "013"%char EmptyString).

Definition scan_lines (text : string) : list string :=
  let parts := split_on "010"%char text in
  let parts :=
    match rev parts with
    | EmptyString :: front => rev front
    | _ => parts
    end in
  drop_cr <$> parts.

(** The loop of [LoadIgnorePatterns]. *)
Fixpoint patterns_of (lines : list string) : list string :=
  match lines with
  | [] => []
  | text :: rest =>
      let line := TrimSpace text in
      if String.eqb line "" || HasPrefix line "#" then patterns_of rest
      else line :: patterns_of rest
  end.

(** [LoadIgnorePatterns] *)
Definition LoadIgnorePatterns (root filename : string) : OS.M (list string) :=
  let ignorePath := Filepath.Join [root; filename] in
  '(text, err) ← OS.ReadFile ignorePath;
  match err with
  | Some _ => mret []
  | None => mret (patterns_of (scan_lines text))
  end.

(** [MatchIgnore] *)
Fixpoint MatchIgnore_loop (normalizedPath : string) (patterns : list string)
  : bool :=
  match patterns with
  | [] => false
  | pattern :: rest =>
      let normalizedPattern := Filepath.ToSlash (TrimSuffix pattern "/") in
      if Filepath.Match normalizedPattern normalizedPath then true
      else if HasPrefix (normalizedPath +:+ "/") (normalizedPattern +:+ "/")
      then true
      else MatchIgnore_loop normalizedPath rest
  end.

Definition MatchIgnore (relPath : string) (patterns : list string) : bool :=
  let normalizedPath := Filepath.ToSlash relPath in
  MatchIgnore_loop normalizedPath patterns.

End Utils.

(** ** [internal/project/create.go] *)
Module Project.
Import Strings OS Walk.

(** [config.Template] *)
Record Template := {
  TemplateName : string;
  Path : string;
  Language : string;
  Description : string;
  TemplateFiles : list string
}.

(** [PreviewSummary] *)
Record PreviewSummary := {
  ProjectName : string;
  TargetDir : string;
  SummaryTemplate : string;
  SummaryLanguage : string;
  Files : list string
}.

(** [ensureTargetDir]; 0755 is 493. *)
Definition ensureTargetDir (targetDir : string) : M (option error) :=
  err ← MkdirAll targetDir 493;
  match err with
  | Some e => mret (Some (Errorf "failed to create directory" e))
  | None => mret None
  end.

(** [resolvePaths]; [filepath.Abs] does not fail in a process that has a
    working directory. *)
Definition resolvePaths (targetDir sourceDir : string)
  : M (string * string * option error) :=
  λ w,
    let absTargetDir := Filepath.Abs (cwd w) targetDir in
    let absSourceDir := Filepath.Abs (cwd w) sourceDir in
    let '((realTarget, err), w) := EvalSymlinks absTargetDir w in
    let absTargetDir := if is_nil err then realTarget else absTargetDir in
    let '((realSource, err), w) := EvalSymlinks absSourceDir w in
    let absSourceDir := if is_nil err then realSource else absSourceDir in
    ((absTargetDir, absSourceDir, None), w).

(** [isTargetInsideSource] *)
Definition isTargetInsideSource (absSourceDir absTargetDir : string) : bool :=
  let '(relTarget, relErr) := Filepath.Rel absSourceDir absTargetDir in
  negb relErr && negb (HasPrefix relTarget "..").

(** [shouldSkipDir] *)
Definition shouldSkipDir (name : string) : bool :=
  if String.eqb name "node_modules" then true
  else if String.eqb name "vendor" then true
  else if String.eqb name ".venv" then true
  else if String.eqb name "dist" then true
  else if String.eqb name "build" then true
  else if String.eqb name ".git" then true
  else false.

(** [isTargetOrChild] *)
Definition isTargetOrChild (srcPath absSourceDir targetRoot : string) : bool :=
  let '(relSrcFromSource, _) := Filepath.Rel absSourceDir srcPath in
  let '(relTarget, _) := Filepath.Rel absSourceDir targetRoot in
  String.eqb relSrcFromSource relTarget ||
  HasPrefix (relSrcFromSource +:+ Filepath.SeparatorString)
            (relTarget +:+ Filepath.SeparatorString).

(** [shouldSkipEntry]: [(skip, skipDir)]. *)
Definition shouldSkipEntry (info : FileInfo)
    (srcPath sourceRoot targetRoot absSourceDir : string)
    (targetInsideSource : bool) (ignores : list string) : bool * bool :=
  if IsDir info && shouldSkipDir (Name info) then (true, true)
  else if targetInsideSource && isTargetOrChild srcPath absSourceDir targetRoot
  then (if IsDir info then (true, true) else (true, false))
  else
    let '(relPath, err) := Filepath.Rel sourceRoot srcPath in
    if err then (false, false)
    else if String.eqb relPath "." then (true, false)
    else if Utils.MatchIgnore (Filepath.ToSlash relPath) ignores
    then (if IsDir info then (true, true) else (true, false))
    else (false, false).

(** [joinDest] *)
Definition joinDest (targetRoot sourceRoot srcPath : string) : string :=
  let '(relPath, _) := Filepath.Rel sourceRoot srcPath in
  Filepath.Join [targetRoot; relPath].

(** [ensureDir] *)
Definition ensureDir (path : string) (mode : N) : M (option error) :=
  MkdirAll path mode.

(** What a [FileInfo] that is nil would give; [Walk] passes none
    without an error, and the functions below return on the error. *)
Definition no_info : FileInfo := {| Name := ""; IsDir := false; Mode := 0 |}.

Section Enumeration.
Variable range : gmap string string → list (string * string).

(** [copyFileWithReplacements] *)
Definition copyFileWithReplacements (src dst projectName author : string)
    (mode : N) (extraVars : gmap string string) : M (option error) :=
  '(content, err) ← ReadFile src;
  match err with
  | Some e => mret (Some (Errorf ("failed to read " +:+ src) e))
  | None =>
      if Utils.IsBinary content 8000 then WriteFile dst content mode
      else
        let contentStr :=
          Utils.ReplacePlaceholders range content projectName author extraVars in
        WriteFile dst contentStr mode
  end.

(** The function [walker] of [copyTree]. *)
Definition walker (sourceRoot targetRoot absSourceDir : string)
    (targetInsideSource : bool) (projectName author : string)
    (extraVars : gmap string string) (ignores : list string)
  : WalkFunc unit :=
  λ srcPath info err _,
    match err with
    | Some e => mret (Some e, tt)
    | None =>
        let info := default no_info info in
        let '(skip, skipDir) :=
          shouldSkipEntry info srcPath sourceRoot targetRoot absSourceDir
                          targetInsideSource ignores in
        if skip then
          if skipDir then mret (Some SkipDir, tt) else mret (None, tt)
        else
          let dstPath := joinDest targetRoot sourceRoot srcPath in
          if IsDir info then
            e ← ensureDir dstPath (Mode info); mret (e, tt)
          else
            e ← copyFileWithReplacements srcPath dstPath projectName author
                                         (Mode info) extraVars;
            mret (e, tt)
    end.

(** [copyTree] *)
Definition copyTree (fuel : nat) (sourceRoot targetRoot absSourceDir : string)
    (targetInsideSource : bool) (projectName author : string)
    (extraVars : gmap string string) (ignores : list string)
    (w : world) : option (option error * world) :=
  match Walk fuel sourceRoot
             (walker sourceRoot targetRoot absSourceDir targetInsideSource
                     projectName author extraVars ignores) tt w with
  | None => None
  | Some (err, _, w) => Some (err, w)
  end.

(** [CreateFromTemplate] *)
Definition CreateFromTemplate (fuel : nat) (tmpl : Template)
    (projectName targetDir author : string)
    (extraVars : gmap string string)
    (w : world) : option (option error * world) :=
  let '(err, w) := ensureTargetDir targetDir w in
  match err with
  | Some e => Some (Some e, w)
  | None =>
      let '((absTargetDir, absSourceDir, err), w) :=
        resolvePaths targetDir (Path tmpl) w in
      match err with
      | Some e => Some (Some e, w)
      | None =>
          let targetInsideSource :=
            isTargetInsideSource absSourceDir absTargetDir in
          let '(ignores, w) :=
            Utils.LoadIgnorePatterns absSourceDir ".foundryignore" w in
          copyTree fuel (Path tmpl) targetDir absSourceDir targetInsideSource
                   projectName author extraVars ignores w
      end
  end.
End Enumeration.

(** The function literal that [PreviewFromTemplate] hands to the walk;
    its local variable is the slice [files]. *)
Definition preview_walker (tmpl : Template) (targetDir absSourceDir : string)
    (targetInsideSource : bool) (ignores : list string)
  : WalkFunc (list string) :=
  λ srcPath info err files,
    match err with
    | Some e => mret (Some e, files)
    | None =>
        let info := default no_info info in
        if IsDir info && shouldSkipDir (Name info)
        then mret (Some SkipDir, files)
        else if targetInsideSource &&
                (let '(relSrcFromSource, _) := Filepath.Rel absSourceDir srcPath in
                 let '(relTarget, _) := Filepath.Rel absSourceDir targetDir in
                 String.eqb relSrcFromSource relTarget ||
                 HasPrefix (relSrcFromSource +:+ Filepath.SeparatorString)
                           (relTarget +:+ Filepath.SeparatorString))
        then (if IsDir info then mret (Some SkipDir, files)
              else mret (None, files))
        else
          let '(relPath, err) := Filepath.Rel (Path tmpl) srcPath in
          if err then mret (Some (ErrorString "Rel"), files)
          else if Utils.MatchIgnore (Filepath.ToSlash relPath) ignores
          then (if IsDir info then mret (Some SkipDir, files)
                else mret (None, files))
          else if String.eqb relPath "." then mret (None, files)
          else
            let dstPath := Filepath.Join [targetDir; relPath] in
            mret (None, files ++ [dstPath])
    end.

(** [PreviewFromTemplate] *)
Definition PreviewFromTemplate (fuel : nat) (tmpl : Template)
    (projectName targetDir author : string) (extraVars : gmap string string)
    (w : world) : option (option PreviewSummary * option error * world) :=
  let '((absTargetDir, absSourceDir, err), w) :=
    resolvePaths targetDir (Path tmpl) w in
  match err with
  | Some e => Some (None, Some e, w)
  | None =>
      let targetInsideSource := isTargetInsideSource absSourceDir absTargetDir in
      let '(ignores, w) :=
        Utils.LoadIgnorePatterns absSourceDir ".foundryignore" w in
      match Walk fuel (Path tmpl)
                 (preview_walker tmpl targetDir absSourceDir targetInsideSource
                                 ignores) [] w with
      | None => None
      | Some (Some e, _, w) => Some (None, Some e, w)
      | Some (None, files, w) =>
          Some (Some {| ProjectName := projectName;
                        TargetDir := targetDir;
                        SummaryTemplate := TemplateName tmpl;
                        SummaryLanguage := Language tmpl;
                        Files := files |}, None, w)
      end
  end.

End Project.

(** ** [internal/template/template.go]

    The package keeps a [Template] of its own with the fields of
    [config.Template]; the command copies one into the other field by
    field, and the embedding has one record for both. A Go [int] is an
    integer without bound: a count stays far from the largest one. *)
Module TemplatePkg.
Import Strings OS Walk.

(** [languageIndicators] *)
Definition languageIndicators : gmap string string :=
  list_to_map
    [(".go", "Go"); (".mod", "Go"); (".py", "Python"); (".js", "JavaScript");
     (".ts", "TypeScript"); (".jsx", "React"); (".tsx", "React"); (".rs", "Rust");
     (".java", "Java"); (".kt", "Kotlin"); (".cpp", "C++"); (".c", "C");
     (".cs", "C#"); (".php", "PHP"); (".rb", "Ruby"); (".swift", "Swift");
     (".vue", "Vue");
     ("package.json", "JavaScript"); ("tsconfig.json", "TypeScript");
     ("Cargo.toml", "Rust"); ("pom.xml", "Java"); ("build.gradle", "Java");
     ("Gemfile", "Ruby"); ("composer.json", "PHP");
     ("requirements.txt", "Python"); ("Pipfile", "Python"); ("go.mod", "Go");
     ("Makefile", "C/C++")].

(** [loadIgnorePatterns] *)
Definition loadIgnorePatterns (root : string) : M (list string) :=
  let path := Filepath.Join [root; ".foundryignore"] in
  '(text, err) ← ReadFile path;
  match err with
  | Some _ => mret []
  | None => mret (Utils.patterns_of (Utils.scan_lines text))
  end.

(** [matchIgnore] *)
Fixpoint matchIgnore_loop (norm : string) (patterns : list string) : bool :=
  match patterns with
  | [] => false
  | p :: rest =>
      let pp := Filepath.ToSlash (TrimSuffix p "/") in
      if Filepath.Match pp norm then true
      else if HasPrefix (norm +:+ "/") (pp +:+ "/") then true
      else matchIgnore_loop norm rest
  end.

Definition matchIgnore (relPath : string) (patterns : list string) : bool :=
  let norm := Filepath.ToSlash relPath in
  matchIgnore_loop norm patterns.

(** [languageCounts[lang] += n]: a language that is not in the map
    counts zero. *)
Definition add_count (lang : string) (n : Z) (languageCounts : gmap string Z)
  : gmap string Z :=
  <[lang := (default 0 (languageCounts !! lang) + n)%Z]> languageCounts.

(** The function literal that [DetectLanguage] hands to the walk; its
    local variable is the map [languageCounts]. *)
Definition detect_walker (dir : string) (ignores : list string)
  : WalkFunc (gmap string Z) :=
  λ path info err languageCounts,
    match err with
    | Some e => mret (Some e, languageCounts)
    | None =>
        let info := default Project.no_info info in
        if IsDir info then
          let base := Filepath.Base path in
          if String.eqb base "node_modules" || String.eqb base ".git" ||
             String.eqb base "vendor" || String.eqb base "target" ||
             String.eqb base "build" || String.eqb base "dist"
          then mret (Some SkipDir, languageCounts)
          else
            let '(rel, _) := Filepath.Rel dir path in
            if matchIgnore rel ignores then mret (Some SkipDir, languageCounts)
            else mret (None, languageCounts)
        else
          let '(rel, _) := Filepath.Rel dir path in
          if matchIgnore rel ignores then mret (None, languageCounts)
          else
            let basename := Filepath.Base path in
            match languageIndicators !! basename with
            | Some lang => mret (None, add_count lang 5 languageCounts)
            | None =>
                let ext := Filepath.Ext path in
                match languageIndicators !! ext with
                | Some lang => mret (None, add_count lang 1 languageCounts)
                | None => mret (None, languageCounts)
                end
            end
    end.

(** An enumeration that [range] may produce of the counts. *)
Definition enumerates (range : gmap string Z → list (string * Z)) : Prop :=
  ∀ m, range m ≡ₚ map_to_list m.

Section Enumeration.
(** How [range] enumerates the entries of [languageCounts]. *)
Variable range : gmap string Z → list (string * Z).

(** The last loop of [DetectLanguage]: [(maxCount, primaryLang)]. *)
Definition most_common (languageCounts : gmap string Z) : Z * string :=
  foldl (λ '(maxCount, primaryLang) '(lang, count),
           if (maxCount <? count)%Z then (count, lang)
           else (maxCount, primaryLang))
        (0%Z, "Unknown") (range languageCounts).

(** [DetectLanguage] *)
Definition DetectLanguage (fuel : nat) (dir : string) (w : world)
  : option (string * option error * world) :=
  let '((_, err), w) := Stat dir w in
  if IsNotExist err
  then Some ("", Some (ErrorString ("directory does not exist: " +:+ dir)), w)
  else
    let '(ignores, w) := loadIgnorePatterns dir w in
    match Walk fuel dir (detect_walker dir ignores) ∅ w with
    | None => None
    | Some (Some e, _, w) =>
        Some ("", Some (Errorf "failed to scan directory" e), w)
    | Some (None, languageCounts, w) =>
        if (size languageCounts =? 0)%nat then Some ("Unknown", None, w)
        else Some ((most_common languageCounts).2, None, w)
    end.

(** The function literal of [ScanTemplate]; its local variable is the
    slice [files]. *)
Definition scan_walker (absPath : string) (ignores : list string)
  : WalkFunc (list string) :=
  λ p info err files,
    match err with
    | Some e => mret (Some e, files)
    | None =>
        let info := default Project.no_info info in
        if negb (IsDir info) then
          let '(relPath, _) := Filepath.Rel absPath p in
          if matchIgnore relPath ignores then mret (None, files)
          else mret (None, files ++ [relPath])
        else mret (None, files)
    end.

(** [ScanTemplate]; [filepath.Abs] does not fail in a process that has a
    working directory. *)
Definition ScanTemplate (fuel : nat) (name path description : string)
    (w : world) : option (option Project.Template * option error * world) :=
  let absPath := Filepath.Abs (cwd w) path in
  let '((_, err), w) := Stat absPath w in
  if IsNotExist err
  then Some (None, Some (ErrorString ("template directory does not exist: " +:+
                                      absPath)), w)
  else
    match DetectLanguage fuel absPath w with
    | None => None
    | Some (_, Some e, w) => Some (None, Some e, w)
    | Some (lang, None, w) =>
        let '(ignores, w) := loadIgnorePatterns absPath w in
        match Walk fuel absPath (scan_walker absPath ignores) [] w with
        | None => None
        | Some (Some e, _, w) =>
            Some (None, Some (Errorf "failed to list template files" e), w)
        | Some (None, files, w) =>
            Some (Some {| Project.TemplateName := name;
                          Project.Path := absPath;
                          Project.Language := lang;
                          Project.Description := description;
                          Project.TemplateFiles := files |}, None, w)
        end
    end.
End Enumeration.

(** [ValidateName]; the characters are those of the raw string in the
    source, the backslash and the double quote among them. *)
Definition invalid_characters : string :=
  "/\:*?" +:+ String (ascii_of_nat 34) "<>|".

Definition ValidateName (name : string) : option error :=
  if String.eqb name ""
  then Some (ErrorString "template name cannot be empty")
  else if ContainsAny name invalid_characters
  then Some (ErrorString "template name contains invalid characters")
  else None.

End TemplatePkg.

(** ** [internal/config/config.go]

    The configuration file is held as the configuration that it decodes
    to, or nothing when there is no file: the YAML text, the path of
    the file and the errors of reading and writing it are outside the
    model. A nil slice and an empty one, a nil map and an empty one are
    the same. *)
Module Config.
Import Strings OS.

(** [Config] *)
Record Config := {
  Author : string;
  License : string;
  DefaultLanguage : string;
  Docker : bool;
  Interactive : bool;
  InstalledLanguages : list string;
  InstalledPackageManagers : list string;
  InstalledDevTools : list string;
  VSCodePath : string;
  Templates : list Project.Template;
  LanguageDefaults : gmap string string
}.

(** The configuration file. *)
Definition store : Type := option Config.

(** The configuration that [LoadConfig] starts from. *)
Definition default_config : Config :=
  {| Author := ""; License := "MIT"; DefaultLanguage := ""; Docker := false;
     Interactive := true; InstalledLanguages := [];
     InstalledPackageManagers := []; InstalledDevTools := []; VSCodePath := "";
     Templates := []; LanguageDefaults := ∅ |}.

(** [LoadConfig]: the default when the file is missing. *)
Definition LoadConfig (file : store) : Config := default default_config file.

(** [SaveConfig] *)
Definition SaveConfig (cfg : Config) : store := Some cfg.

(** A value of type [interface{}] as the configuration uses it. *)
Inductive value :=
| VString (s : string)
| VBool (b : bool)
| VStrings (l : list string).

Definition set_Author (v : string) (cfg : Config) : Config :=
  {| Author := v; License := License cfg; DefaultLanguage := DefaultLanguage cfg;
     Docker := Docker cfg; Interactive := Interactive cfg;
     InstalledLanguages := InstalledLanguages cfg;
     InstalledPackageManagers := InstalledPackageManagers cfg;
     InstalledDevTools := InstalledDevTools cfg; VSCodePath := VSCodePath cfg;
     Templates := Templates cfg; LanguageDefaults := LanguageDefaults cfg |}.

Definition set_License (v : string) (cfg : Config) : Config :=
  {| Author := Author cfg; License := v; DefaultLanguage := DefaultLanguage cfg;
     Docker := Docker cfg; Interactive := Interactive cfg;
     InstalledLanguages := InstalledLanguages cfg;
     InstalledPackageManagers := InstalledPackageManagers cfg;
     InstalledDevTools := InstalledDevTools cfg; VSCodePath := VSCodePath cfg;
     Templates := Templates cfg; LanguageDefaults := LanguageDefaults cfg |}.

Definition set_DefaultLanguage (v : string) (cfg : Config) : Config :=
  {| Author := Author cfg; License := License cfg; DefaultLanguage := v;
     Docker := Docker cfg; Interactive := Interactive cfg;
     InstalledLanguages := InstalledLanguages cfg;
     InstalledPackageManagers := InstalledPackageManagers cfg;
     InstalledDevTools := InstalledDevTools cfg; VSCodePath := VSCodePath cfg;
     Templates := Templates cfg; LanguageDefaults := LanguageDefaults cfg |}.

Definition set_Docker (v : bool) (cfg : Config) : Config :=
  {| Author := Author cfg; License := License cfg;
     DefaultLanguage := DefaultLanguage cfg;
     Docker := v; Interactive := Interactive cfg;
     InstalledLanguages := InstalledLanguages cfg;
     InstalledPackageManagers := InstalledPackageManagers cfg;
     InstalledDevTools := InstalledDevTools cfg; VSCodePath := VSCodePath cfg;
     Templates := Templates cfg; LanguageDefaults := LanguageDefaults cfg |}.

Definition set_Interactive (v : bool) (cfg : Config) : Config :=
  {| Author := Author cfg; License := License cfg;
     DefaultLanguage := DefaultLanguage cfg;
     Docker := Docker cfg; Interactive := v;
     InstalledLanguages := InstalledLanguages cfg;
     InstalledPackageManagers := InstalledPackageManagers cfg;
     InstalledDevTools := InstalledDevTools cfg; VSCodePath := VSCodePath cfg;
     Templates := Templates cfg; LanguageDefaults := LanguageDefaults cfg |}.

Definition set_InstalledLanguages (v : list string) (cfg : Config) : Config :=
  {| Author := Author cfg; License := License cfg;
     DefaultLanguage := DefaultLanguage cfg;
     Docker := Docker cfg; Interactive := Interactive cfg;
     InstalledLanguages := v;
     InstalledPackageManagers := InstalledPackageManagers cfg;
     InstalledDevTools := InstalledDevTools cfg; VSCodePath := VSCodePath cfg;
     Templates := Templates cfg; LanguageDefaults := LanguageDefaults cfg |}.

Definition set_InstalledPackageManagers (v : list string) (cfg : Config)
  : Config :=
  {| Author := Author cfg; License := License cfg;
     DefaultLanguage := DefaultLanguage cfg;
     Docker := Docker cfg; Interactive := Interactive cfg;
     InstalledLanguages := InstalledLanguages cfg;
     InstalledPackageManagers := v;
     InstalledDevTools := InstalledDevTools cfg; VSCodePath := VSCodePath cfg;
     Templates := Templates cfg; LanguageDefaults := LanguageDefaults cfg |}.

Definition set_InstalledDevTools (v : list string) (cfg : Config) : Config :=
  {| Author := Author cfg; License := License cfg;
     DefaultLanguage := DefaultLanguage cfg;
     Docker := Docker cfg; Interactive := Interactive cfg;
     InstalledLanguages := InstalledLanguages cfg;
     InstalledPackageManagers := InstalledPackageManagers cfg;
     InstalledDevTools := v; VSCodePath := VSCodePath cfg;
     Templates := Templates cfg; LanguageDefaults := LanguageDefaults cfg |}.

Definition set_VSCodePath (v : string) (cfg : Config) : Config :=
  {| Author := Author cfg; License := License cfg;
     DefaultLanguage := DefaultLanguage cfg;
     Docker := Docker cfg; Interactive := Interactive cfg;
     InstalledLanguages := InstalledLanguages cfg;
     InstalledPackageManagers := InstalledPackageManagers cfg;
     InstalledDevTools := InstalledDevTools cfg; VSCodePath := v;
     Templates := Templates cfg; LanguageDefaults := LanguageDefaults cfg |}.

Definition set_Templates (v : list Project.Template) (cfg : Config) : Config :=
  {| Author := Author cfg; License := License cfg;
     DefaultLanguage := DefaultLanguage cfg;
     Docker := Docker cfg; Interactive := Interactive cfg;
     InstalledLanguages := InstalledLanguages cfg;
     InstalledPackageManagers := InstalledPackageManagers cfg;
     InstalledDevTools := InstalledDevTools cfg; VSCodePath := VSCodePath cfg;
     Templates := v; LanguageDefaults := LanguageDefaults cfg |}.

Definition set_LanguageDefaults (v : gmap string string) (cfg : Config)
  : Config :=
  {| Author := Author cfg; License := License cfg;
     DefaultLanguage := DefaultLanguage cfg;
     Docker := Docker cfg; Interactive := Interactive cfg;
     InstalledLanguages := InstalledLanguages cfg;
     InstalledPackageManagers := InstalledPackageManagers cfg;
     InstalledDevTools := InstalledDevTools cfg; VSCodePath := VSCodePath cfg;
     Templates := Templates cfg; LanguageDefaults := v |}.

(** [SetConfigValue]: a value of another type than the key's is passed
    over, and the configuration is saved all the same. *)
Definition SetConfigValue (key : string) (v : value) (file : store)
  : option error * store :=
  let cfg := LoadConfig file in
  let unknown := (Some (ErrorString ("unknown config key: " +:+ key)), file) in
  let keep := (None, SaveConfig cfg) in
  if String.eqb key "author" then
    match v with VString s => (None, SaveConfig (set_Author s cfg)) | _ => keep end
  else if String.eqb key "license" then
    match v with VString s => (None, SaveConfig (set_License s cfg)) | _ => keep end
  else if String.eqb key "default_language" then
    match v with
    | VString s => (None, SaveConfig (set_DefaultLanguage s cfg))
    | _ => keep
    end
  else if String.eqb key "docker" then
    match v with VBool b => (None, SaveConfig (set_Docker b cfg)) | _ => keep end
  else if String.eqb key "interactive" then
    match v with
    | VBool b => (None, SaveConfig (set_Interactive b cfg))
    | _ => keep
    end
  else if String.eqb key "installed_languages" then
    match v with
    | VStrings l => (None, SaveConfig (set_InstalledLanguages l cfg))
    | _ => keep
    end
  else if String.eqb key "installed_package_managers" then
    match v with
    | VStrings l => (None, SaveConfig (set_InstalledPackageManagers l cfg))
    | _ => keep
    end
  else if String.eqb key "installed_dev_tools" then
    match v with
    | VStrings l => (None, SaveConfig (set_InstalledDevTools l cfg))
    | _ => keep
    end
  else if String.eqb key "vscode_path" then
    match v with
    | VString s => (None, SaveConfig (set_VSCodePath s cfg))
    | _ => keep
    end
  else unknown.

(** [GetConfigValue] *)
Definition GetConfigValue (key : string) (file : store)
  : option value * option error :=
  let cfg := LoadConfig file in
  if String.eqb key "author" then (Some (VString (Author cfg)), None)
  else if String.eqb key "license" then (Some (VString (License cfg)), None)
  else if String.eqb key "default_language"
  then (Some (VString (DefaultLanguage cfg)), None)
  else if String.eqb key "docker" then (Some (VBool (Docker cfg)), None)
  else if String.eqb key "interactive" then (Some (VBool (Interactive cfg)), None)
  else if String.eqb key "installed_languages"
  then (Some (VStrings (InstalledLanguages cfg)), None)
  else if String.eqb key "installed_package_managers"
  then (Some (VStrings (InstalledPackageManagers cfg)), None)
  else if String.eqb key "installed_dev_tools"
  then (Some (VStrings (InstalledDevTools cfg)), None)
  else if String.eqb key "git"
  then (Some (VBool (existsb (λ tool, String.eqb tool "git")
                             (InstalledDevTools cfg))), None)
  else if String.eqb key "vscode_path" then (Some (VString (VSCodePath cfg)), None)
  else (None, Some (ErrorString ("unknown config key: " +:+ key))).

(** The first loop of [AddTemplate]: the slice with the first template
    of that name replaced, if there is one. *)
Fixpoint replace_first (tmpl : Project.Template) (templates : list Project.Template)
  : option (list Project.Template) :=
  match templates with
  | [] => None
  | t :: rest =>
      if String.eqb (Project.TemplateName t) (Project.TemplateName tmpl)
      then Some (tmpl :: rest)
      else cons t <$> replace_first tmpl rest
  end.

(** [AddTemplate] *)
Definition AddTemplate (tmpl : Project.Template) (file : store)
  : option error * store :=
  let cfg := LoadConfig file in
  match replace_first tmpl (Templates cfg) with
  | Some templates => (None, SaveConfig (set_Templates templates cfg))
  | None => (None, SaveConfig (set_Templates (Templates cfg ++ [tmpl]) cfg))
  end.

Definition not_found (name : string) : error :=
  ErrorString ("template '" +:+ name +:+ "' not found").

(** [RemoveTemplate] *)
Definition RemoveTemplate (name : string) (file : store) : option error * store :=
  let cfg := LoadConfig file in
  let found :=
    existsb (λ t, String.eqb (Project.TemplateName t) name) (Templates cfg) in
  let newTemplates :=
    List.filter (λ t, negb (String.eqb (Project.TemplateName t) name))
                (Templates cfg) in
  if negb found then (Some (not_found name), file)
  else (None, SaveConfig (set_Templates newTemplates cfg)).

(** [GetTemplate]: the template, or the error with which no template
    comes. *)
Definition GetTemplate (name : string) (file : store)
  : Project.Template + error :=
  let cfg := LoadConfig file in
  match List.find (λ t, String.eqb (Project.TemplateName t) name) (Templates cfg) with
  | Some t => inl t
  | None => inr (not_found name)
  end.

(** [ListTemplates] *)
Definition ListTemplates (file : store) : list Project.Template :=
  Templates (LoadConfig file).

(** [SetLanguageDefault] *)
Definition SetLanguageDefault (language templateName : string) (file : store)
  : option error * store :=
  let cfg := LoadConfig file in
  let found :=
    existsb (λ t, String.eqb (Project.TemplateName t) templateName)
            (Templates cfg) in
  if negb found then (Some (not_found templateName), file)
  else (None, SaveConfig (set_LanguageDefaults
                            (<[language := templateName]> (LanguageDefaults cfg))
                            cfg)).

(** [GetLanguageDefault]: the empty string for a language without a
    default. *)
Definition GetLanguageDefault (language : string) (file : store) : string :=
  default "" (LanguageDefaults (LoadConfig file) !! language).

(** [ClearLanguageDefault] *)
Definition ClearLanguageDefault (language : string) (file : store)
  : option error * store :=
  let cfg := LoadConfig file in
  (None, SaveConfig (set_LanguageDefaults (delete language (LanguageDefaults cfg))
                                          cfg)).

Section Enumeration.
(** How [range] enumerates the entries of [LanguageDefaults]. *)
Variable range : gmap string string → list (string * string).

(** [IsDefaultTemplate] *)
Definition IsDefaultTemplate (templateName : string) (file : store) : list string :=
  let cfg := LoadConfig file in
  (List.filter (λ kv, String.eqb kv.2 templateName)
               (range (LanguageDefaults cfg))).*1.
End Enumeration.

End Config.

(** ** [cmd/new.go] *)
Module Cmd.
Import Strings OS Project.

(** [determineProjectDir] *)
Definition determineProjectDir (projectName targetPath : string) : string :=
  if negb (String.eqb targetPath "")
  then Filepath.Join [targetPath; projectName]
  else projectName.

(** How a run of the command ends: [exitWithError] prints the message
    and leaves the process with status 1; the dry run returns after
    listing the planned files; otherwise the project is created and the
    steps after the copy (outside this model) follow. *)
Inductive outcome :=
| Exited (message : string)
| Previewed (files : list string)
| Created.

(** The text of an error, as [%v] prints it, up to the wrapped cause. *)
Fixpoint Error (e : error) : string :=
  match e with
  | SkipDir => "skip this directory"
  | ErrNotExist op path => op +:+ " " +:+ path +:+ ": no such file or directory"
  | ErrNotDir op path => op +:+ " " +:+ path +:+ ": not a directory"
  | ErrIsDir op path => op +:+ " " +:+ path +:+ ": is a directory"
  | ErrorString msg => msg
  | Errorf msg wrapped => msg +:+ ": " +:+ Error wrapped
  end.

(** [exitWithError format args]: the message after formatting. *)
Definition exitWithError (message : string) : outcome :=
  Exited ("Error: " +:+ message +:+ String "010"%char EmptyString).

Section Enumeration.
Variable range : gmap string string → list (string * string).

(** The branch of [newCmd.Run] that creates a project from the
    template [tmpl] that [selectTemplate] returned; [author] is
    [cfg.Author]. *)
Definition Run_template (fuel : nat) (tmpl : Template)
    (projectName targetPath : string) (varsKV : list string)
    (dryRun : bool) (author : string)
    (w : world) : option (outcome * world) :=
  let '((_, err), w) := Stat (Path tmpl) w in
  if IsNotExist err
  then Some (exitWithError ("Template path no longer exists: " +:+ Path tmpl), w)
  else
    let projectDir := determineProjectDir projectName targetPath in
    let '((_, err), w) := Stat projectDir w in
    if Walk.is_nil err
    then Some (exitWithError ("Directory '" +:+ projectDir +:+ "' already exists"), w)
    else
      match Utils.ParseVars varsKV with
      | (_, Some e) => Some (exitWithError ("Error parsing --var: " +:+ Error e), w)
      | (None, None) => Some (exitWithError "Error parsing --var: ", w)
      | (Some extraVars, None) =>
          if dryRun then
            match PreviewFromTemplate fuel tmpl projectName projectDir author
                                      extraVars w with
            | None => None
            | Some (_, Some e, w) =>
                Some (exitWithError ("Error previewing project: " +:+ Error e), w)
            | Some (None, None, w) => Some (Previewed [], w)
            | Some (Some summary, None, w) => Some (Previewed (Files summary), w)
            end
          else
            match CreateFromTemplate range fuel tmpl projectName projectDir
                                     author extraVars w with
            | None => None
            | Some (Some e, w) =>
                Some (exitWithError ("Error creating project: " +:+ Error e), w)
            | Some (None, w) => Some (Created, w)
            end
      end.
End Enumeration.

(** [selectByName]: the template, or the exit of the process. *)
Definition selectByName (name : string) (file : Config.store)
  : Template + outcome :=
  match Config.GetTemplate name file with
  | inl tmpl => inl tmpl
  | inr err => inr (exitWithError (Error err))
  end.

(** [selectByLanguage] *)
Definition selectByLanguage (language : string) (file : Config.store)
  : Template + outcome :=
  let defaultTmpl := Config.GetLanguageDefault language file in
  if String.eqb defaultTmpl ""
  then inr (exitWithError
              ("No default template set for language '" +:+ language +:+ "'" +:+
               String "010"%char EmptyString +:+
               "Set one with: foundry config " +:+ language +:+ " <template-name>" +:+
               String "010"%char EmptyString +:+
               "Or use --template to specify a template directly"))
  else
    match Config.GetTemplate defaultTmpl file with
    | inl tmpl => inl tmpl
    | inr err => inr (exitWithError (Error err))
    end.

End Cmd.

(** ** [cmd/template.go]

    A command runs on the configuration file and the file system; it
    ends on the text that it writes to the standard error before
    leaving with status 1, or it returns. *)
Module CmdTemplate.
Import Strings OS.

Inductive status :=
| Exit1 (stderr : string)
| Returned.

Definition line_feed : string := String "010"%char EmptyString.

(** [%v] of a slice of strings. *)
Definition show_strings (l : list string) : string :=
  "[" +:+ Strings.Join l " " +:+ "]".

Section Enumeration.
(** How [range] enumerates the language defaults and the counts of the
    languages. *)
Variable range : gmap string string → list (string * string).
Variable range_counts : gmap string Z → list (string * Z).

(** The function [Run] of [templateAddCmd]; the flags --description and
    --language are [description] and [overrideLang]. *)
Definition templateAdd (fuel : nat) (name path description overrideLang : string)
    (file : Config.store) (w : world)
  : option (status * Config.store * world) :=
  let '((info, err), w) := Stat path w in
  match err with
  | Some e =>
      Some (Exit1 ("Error: cannot access path: " +:+ Cmd.Error e +:+ line_feed),
            file, w)
  | None =>
      if negb (IsDir (default Project.no_info info))
      then Some (Exit1 ("Error: path is not a directory: " +:+ path +:+ line_feed),
                 file, w)
      else
        match TemplatePkg.ValidateName name with
        | Some e => Some (Exit1 ("Error: " +:+ Cmd.Error e +:+ line_feed), file, w)
        | None =>
            match TemplatePkg.ScanTemplate range_counts fuel name path description w with
            | None => None
            | Some (_, Some e, w) =>
                Some (Exit1 ("Error scanning template: " +:+ Cmd.Error e +:+
                             line_feed), file, w)
            | Some (None, None, w) => Some (Exit1 "", file, w)
            | Some (Some tmpl, None, w) =>
                let tmpl :=
                  if negb (String.eqb (TrimSpace overrideLang) "")
                  then {| Project.TemplateName := Project.TemplateName tmpl;
                          Project.Path := Project.Path tmpl;
                          Project.Language := TrimSpace overrideLang;
                          Project.Description := Project.Description tmpl;
                          Project.TemplateFiles := Project.TemplateFiles tmpl |}
                  else tmpl in
                match Config.AddTemplate tmpl file with
                | (Some e, file) =>
                    Some (Exit1 ("Error saving template: " +:+ Cmd.Error e +:+
                                 line_feed), file, w)
                | (None, file) => Some (Returned, file, w)
                end
            end
        end
  end.

(** The function [Run] of [templateRemoveCmd]. *)
Definition templateRemove (name : string) (force : bool) (file : Config.store)
  : status * Config.store :=
  let langs := Config.IsDefaultTemplate range name file in
  if negb (Nat.eqb (length langs) 0) && negb force
  then (Exit1 ("Error: template '" +:+ name +:+ "' is the default for: " +:+
               show_strings langs +:+ line_feed +:+
               "Use --force to remove it anyway." +:+ line_feed), file)
  else
    match Config.RemoveTemplate name file with
    | (Some e, file) => (Exit1 ("Error: " +:+ Cmd.Error e +:+ line_feed), file)
    | (None, file) => (Returned, file)
    end.
End Enumeration.

End CmdTemplate.

(** ** Vocabulary of the statements *)

(** The enumeration of a map from its last entry to its first. *)
Definition rev_range (m : gmap string string) : list (string * string) :=
  reverse (map_to_list m).

(** Every key of the map is a name between double braces. *)
Definition braced (m : gmap string string) : Prop :=
  ∀ k v, m !! k = Some v → ∃ x, k = Utils.wrap x.

(** [lacks c s]: the character [c] does not occur in [s]. *)
Fixpoint lacks (c : ascii) (s : string) : bool :=
  match s with
  | EmptyString => true
  | String d s' => negb (Ascii.eqb d c) && lacks c s'
  end.

(** A text without braces. *)
Definition brace_free (s : string) : bool :=
  lacks "{"%char s && lacks "}"%char s.

(** One pass of the second loop of [ReplacePlaceholders] over [steps]. *)
Definition run (steps : list (string * string)) (content : string) : string :=
  foldl (λ result kv, Strings.ReplaceAll result kv.1 kv.2) content steps.


(** The names that [shouldSkipDir] lists. *)
Definition denylist : list string :=
  ["node_modules"; "vendor"; ".venv"; "dist"; "build"; ".git"].

Definition line_feed : string := String "010"%char EmptyString.

(** [n] letters before [s]. *)
Fixpoint pad (n : nat) (s : string) : string :=
  match n with
  | O => s
  | S k => String "a" (pad k s)
  end.

(** A content whose first zero byte is the one after 8000 letters. *)
Definition late_zero : string :=
  pad (Z.to_nat 8000) (String Ascii.zero "tail").

(** A file system with one file that starts with a zero byte. *)
Definition logo_world : OS.world :=
  OS.World
    (<["/tmpl/logo.png" := OS.Regular 420 (String Ascii.zero "PNG{{AUTHOR}}")]>
       (<["/tmpl" := OS.Directory 493]>
          (<["/out" := OS.Directory 493]>
             (<["/" := OS.Directory 493]> ∅))))
    "/" [].

(** A registered template at [path]. *)
Definition template_at (path : string) : Project.Template :=
  {| Project.TemplateName := "starter";
     Project.Path := path;
     Project.Language := "Go";
     Project.Description := "";
     Project.TemplateFiles := [] |}.

(** The paths that are in the file system of [after] and not in that of
    [before], sorted. *)
Definition created (before after : OS.world) : list string :=
  OS.sort_strings
    (List.filter (λ p, bool_decide (OS.fsys before !! p = None))
                 (map_to_list (OS.fsys after)).*1).

(** A template at /tmpl with the ignore file "/dist/" and the file
    dist/bundle.js, next to an empty directory /out. *)
Definition dist_world (bundle : string) : OS.world :=
  OS.World
    (<["/tmpl/dist/bundle.js" := OS.Regular 420 bundle]>
       (<["/tmpl/dist" := OS.Directory 493]>
          (<["/tmpl/.foundryignore" := OS.Regular 420 ("/dist/" +:+ line_feed)]>
             (<["/tmpl" := OS.Directory 493]>
                (<["/out" := OS.Directory 493]>
                   (<["/" := OS.Directory 493]> ∅))))))
    "/" [].

(** The same template with docs in the place of dist. *)
Definition docs_world : OS.world :=
  OS.World
    (<["/tmpl/docs/guide.md" := OS.Regular 420 "guide"]>
       (<["/tmpl/docs" := OS.Directory 493]>
          (<["/tmpl/.foundryignore" := OS.Regular 420 ("/docs/" +:+ line_feed)]>
             (<["/tmpl" := OS.Directory 493]>
                (<["/out" := OS.Directory 493]>
                   (<["/" := OS.Directory 493]> ∅))))))
    "/" [].

(** A template at /tmpl whose ignore file hides the dot files, with one
    README.md, next to an empty directory /out. *)
Definition dotfiles_world : OS.world :=
  OS.World
    (<["/tmpl/README.md" := OS.Regular 420 "# {{PROJECT_NAME}}"]>
       (<["/tmpl/.foundryignore" := OS.Regular 420 (".*" +:+ line_feed)]>
          (<["/tmpl" := OS.Directory 493]>
             (<["/out" := OS.Directory 493]>
                (<["/" := OS.Directory 493]> ∅)))))
    "/" [].

(** A template at /tmpl with one file, and a process that runs in
    /tmpl. *)
Definition inside_world : OS.world :=
  OS.World
    (<["/tmpl/a.txt" := OS.Regular 420 "hello"]>
       (<["/tmpl" := OS.Directory 493]>
          (<["/" := OS.Directory 493]> ∅)))
    "/tmpl" [].

(** A template at /tmpl with one directory x, and a process that runs in
    /tmpl. *)
Definition deep_world : OS.world :=
  OS.World
    (<["/tmpl/x" := OS.Directory 493]>
       (<["/tmpl" := OS.Directory 493]>
          (<["/" := OS.Directory 493]> ∅)))
    "/tmpl" [].

(** A plain name: not empty, without a slash, and neither "." nor
    "..". *)
Definition simple (s : string) : bool :=
  Filepath.nonempty s && lacks "/"%char s &&
  negb (String.eqb s ".") && negb (String.eqb s "..").

(** The absolute path with the given elements. *)
Definition abs_path (segs : list string) : string :=
  "/" +:+ Strings.Join segs "/".

(** What stands between two slashes of a path that needs no cleaning of
    dots: nothing or a plain name. *)
Definition part (s : string) : bool := String.eqb s "" || simple s.

(** The names of the directories that the walk meets on its way down:
    x, demo, x, demo, ... *)
Definition seg (n : nat) : string := if Nat.even n then "x" else "demo".

Definition segs_from (i k : nat) : list string := seg <$> seq i k.

(** The directory [n] levels below /tmpl/x. *)
Definition nested (n : nat) : string := abs_path ("tmpl" :: segs_from 0 (S n)).

(** The file system in which the directories down to [nested n] exist. *)
Fixpoint chain (n : nat) : gmap string OS.node :=
  match n with
  | O => <[nested 0 := OS.Directory 493]>
           (<["/tmpl" := OS.Directory 493]> (<["/" := OS.Directory 493]> ∅))
  | S m => <[nested (S m) := OS.Directory 493]> (chain m)
  end.

(** What [Lstat] tells of a directory with mode 0755. *)
Definition dir_info (name : string) : OS.FileInfo :=
  {| OS.Name := name; OS.IsDir := true; OS.Mode := 493 |}.

(** An entry [key=value] of the command line. *)
Definition var_entry (kv : string * string) : string := kv.1 +:+ "=" +:+ kv.2.

(** What [ParseVars] asks of an entry: an equals sign, and before the
    first one a key that is not blank. *)
Definition var_ok (kv : string) : Prop :=
  ∃ key value, kv = var_entry (key, value) ∧ lacks "="%char key = true ∧
               Strings.TrimSpace key ≠ "".

(** A pattern without the characters that [filepath.Match] reads as
    operators. *)
Definition plain_pattern (p : string) : bool :=
  lacks "*"%char p && lacks "?"%char p && lacks "["%char p && lacks "\"%char p.

(** The terms of a pattern that is matched character by character. *)
Fixpoint literally (p : string) : list Filepath.term :=
  match p with
  | EmptyString => []
  | String c p' => Filepath.Lit c :: literally p'
  end.

(** [grows before after]: every entry of the file system [before] is in
    [after], a directory as the same directory, a file as a file with
    the same permission bits. *)
Definition grows (before after : gmap string OS.node) : Prop :=
  ∀ p n, before !! p = Some n →
         match n with
         | OS.Directory mode => after !! p = Some (OS.Directory mode)
         | OS.Regular mode _ => ∃ content, after !! p = Some (OS.Regular mode content)
         end.

(** A template at /tmpl with a directory and two files, next to an empty
    directory /out. *)
Definition small_world : OS.world :=
  OS.World
    (<["/tmpl/src/main.go" := OS.Regular 420 "package {{PROJECT_NAME_LOWER}}"]>
       (<["/tmpl/src" := OS.Directory 493]>
          (<["/tmpl/README.md" := OS.Regular 420 "# {{PROJECT_NAME}}"]>
             (<["/tmpl" := OS.Directory 493]>
                (<["/out" := OS.Directory 493]>
                   (<["/" := OS.Directory 493]> ∅))))))
    "/" [].

(** Two variables, the value of the first the token of the second. *)
Definition chained_vars : gmap string string :=
  <["A" := "{{B}}"]> {["B" := "x"]}.

(** A file system whose keys are cleaned absolute paths, as every
    operation of the model leaves them in a process with a rooted
    working directory. *)
Definition normal (fs : gmap string OS.node) : Prop :=
  ∀ k n, fs !! k = Some n → ∃ segs, Forall (λ s, simple s = true) segs ∧
                                    k = abs_path segs.

(** The greatest number of elements of a path in the file system. *)
Definition height (fs : gmap string OS.node) : nat :=
  foldr (λ k h, Nat.max (length (Filepath.elements k)) h) 0 (map_to_list fs).*1.

(** The names of the templates in the configuration file. *)
Definition template_names (file : Config.store) : list string :=
  Project.TemplateName <$> Config.ListTemplates file.

(** A template of that name and nothing else. *)
Definition template_named (name language : string) : Project.Template :=
  {| Project.TemplateName := name;
     Project.Path := "/templates/" +:+ name;
     Project.Language := language;
     Project.Description := "";
     Project.TemplateFiles := [] |}.

(** The keys that [SetConfigValue] knows. *)
Definition settable : list string :=
  ["author"; "license"; "default_language"; "docker"; "interactive";
   "installed_languages"; "installed_package_managers"; "installed_dev_tools";
   "vscode_path"].

(** The value has the type that the key holds. *)
Definition fits (key : string) (v : Config.value) : bool :=
  match v with
  | Config.VString _ =>
      bool_decide (key ∈ ["author"; "license"; "default_language"; "vscode_path"])
  | Config.VBool _ => bool_decide (key ∈ ["docker"; "interactive"])
  | Config.VStrings _ =>
      bool_decide (key ∈ ["installed_languages"; "installed_package_managers";
                          "installed_dev_tools"])
  end.

(** The counts with which the walk of [DetectLanguage] ends. *)
Definition language_counts (fuel : nat) (dir : string) (w : OS.world)
  : option (gmap string Z) :=
  let '(ignores, w) := TemplatePkg.loadIgnorePatterns dir w in
  match Walk.Walk fuel dir (TemplatePkg.detect_walker dir ignores) ∅ w with
  | Some (None, languageCounts, _) => Some languageCounts
  | _ => None
  end.

(** The enumeration of the counts from the last entry to the first. *)
Definition rev_counts (m : gmap string Z) : list (string * Z) :=
  reverse (map_to_list m).

(** The characters that a template name may not hold. *)
Definition invalid_character (c : ascii) : bool :=
  Strings.has_byte c TemplatePkg.invalid_characters.

(** A configuration file with the templates "api" and "cli", the first
    of them the default for Go. *)
Definition two_templates : Config.store :=
  (Config.SetLanguageDefault "Go" "api"
     (Config.AddTemplate (template_named "cli" "Go")
        (Config.AddTemplate (template_named "api" "Go") None).2).2).2.

(** * Properties *)

(** ** Strings *)
Section StringFacts.
Import Strings.

Lemma HasPrefix_nil s : HasPrefix s "" = true.
Proof. by destruct s. Qed.

Lemma HasPrefix_cons c s d p :
  HasPrefix (String c s) (String d p) = bool_decide (d = c) && HasPrefix s p.
Proof.
  unfold HasPrefix. simpl. destruct (ascii_dec d c) as [->|Hne].
  - by rewrite bool_decide_eq_true_2.
  - by rewrite bool_decide_eq_false_2.
Qed.

Lemma HasPrefix_app s t : HasPrefix (s +:+ t) s = true.
Proof.
  induction s as [|c s IH]; [apply HasPrefix_nil|].
  change (String c s +:+ t) with (String c (s +:+ t)).
  rewrite HasPrefix_cons, IH. by rewrite bool_decide_eq_true_2.
Qed.

Lemma HasPrefix_trans s old p :
  HasPrefix s old = true → HasPrefix old p = true → HasPrefix s p = true.
Proof.
  revert s old. induction p as [|d p IH]; intros s old Hs Hold.
  { apply HasPrefix_nil. }
  destruct old as [|b old]; [done|].
  destruct s as [|c s]; [done|].
  rewrite HasPrefix_cons in *.
  apply andb_true_iff in Hs as [Hbc Hs], Hold as [Hdb Hold].
  apply bool_decide_eq_true in Hbc, Hdb. subst.
  rewrite bool_decide_eq_true_2 by done. simpl. eauto.
Qed.

Lemma Contains_cons c s sub :
  Contains (String c s) sub = HasPrefix (String c s) sub || Contains s sub.
Proof. done. Qed.

Lemma replace_from_0 old new c s :
  replace_from old new 0 (String c s) =
  if HasPrefix (String c s) old
  then new +:+ replace_from old new (String.length old - 1) s
  else String c (replace_from old new 0 s).
Proof. done. Qed.

(** A text in which [p] does not occur is left alone by the replacement
    of anything that starts with [p]. *)
Lemma replace_from_absent old new p s :
  HasPrefix old p = true → Contains s p = false →
  replace_from old new 0 s = s.
Proof.
  intros Hold. induction s as [|c s IH]; intros Hs; [done|].
  rewrite Contains_cons in Hs. apply orb_false_iff in Hs as [Hhd Htl].
  rewrite replace_from_0. destruct (HasPrefix (String c s) old) eqn:Hm.
  - by rewrite (HasPrefix_trans _ _ _ Hm Hold) in Hhd.
  - by rewrite IH.
Qed.

Lemma ReplaceAll_absent s old new p :
  p ≠ "" → HasPrefix old p = true → Contains s p = false →
  ReplaceAll s old new = s.
Proof.
  intros Hp Hold Hs. destruct old as [|b old].
  - by destruct p.
  - by apply (replace_from_absent _ _ p).
Qed.
End StringFacts.

(** ** The placeholder engine *)
Section Placeholders.
Import Strings Utils.

Lemma wrap_prefix k : HasPrefix (wrap k) "{{" = true.
Proof.
  change (wrap k) with (String "{" (String "{" (k +:+ "}}"))).
  by rewrite !HasPrefix_cons, HasPrefix_nil.
Qed.

Lemma builtins_braced projectName author : braced (builtins projectName author).
Proof.
  intros k v. unfold builtins.
  rewrite !lookup_insert_Some, lookup_empty.
  intros [[<- _]|[_ [[<- _]|[_ [[<- _]|[_ [[<- _]|[_ ?]]]]]]]]; try done.
  - by exists "PROJECT_NAME_UPPER".
  - by exists "PROJECT_NAME_LOWER".
  - by exists "AUTHOR".
  - by exists "PROJECT_NAME".
Qed.

Lemma insert_all_braced (l : list (string * string)) m :
  braced m → braced (foldl (λ m kv, <[wrap kv.1 := kv.2]> m) m l).
Proof.
  revert m. induction l as [|[k v] l IH]; intros m Hm; [done|].
  simpl. apply IH. intros k' v'. rewrite lookup_insert_Some.
  intros [[<- _]|[_ ?]]; eauto.
Qed.

Lemma replacements_braced range projectName author extraVars :
  braced (replacements range projectName author extraVars).
Proof. apply insert_all_braced, builtins_braced. Qed.

(** The steps of the second loop are entries of the map. *)
Lemma steps_in_map range m k v :
  enumerates range → (k, v) ∈ range m → m !! k = Some v.
Proof. intros Hr Hin. rewrite (Hr m) in Hin. by apply elem_of_map_to_list. Qed.

Lemma run_absent (steps : list (string * string)) content :
  (∀ k v, (k, v) ∈ steps → HasPrefix k "{{" = true) →
  Contains content "{{" = false →
  foldl (λ result kv, ReplaceAll result kv.1 kv.2) content steps = content.
Proof.
  induction steps as [|[k v] steps IH]; intros Hk Hc; [done|].
  simpl. rewrite (ReplaceAll_absent _ _ _ "{{"); [|done| |done].
  - apply IH; [|done]. intros k' v' Hin. apply (Hk k' v'). by right.
  - apply (Hk k v). by left.
Qed.
End Placeholders.

Section PlaceholderRuns.
Import Strings Utils.

Lemma ReplacePlaceholders_absent range content projectName author extraVars :
  enumerates range →
  Contains content "{{" = false →
  ReplacePlaceholders range content projectName author extraVars = content.
Proof.
  intros Hr Hc. unfold ReplacePlaceholders.
  apply run_absent; [|done]. intros k v Hin.
  apply (steps_in_map _ _ _ _ Hr) in Hin.
  destruct (replacements_braced _ _ _ _ _ _ Hin) as [x ->].
  apply wrap_prefix.
Qed.

Lemma enumerates_map_to_list : enumerates map_to_list.
Proof. by intros m. Qed.

Lemma enumerates_empty range : enumerates range → range ∅ = [].
Proof.
  intros Hr. apply Permutation_nil_r. by rewrite (Hr ∅), map_to_list_empty.
Qed.

Lemma replacements_no_extra range projectName author :
  enumerates range →
  replacements range projectName author ∅ = builtins projectName author.
Proof. intros Hr. unfold replacements. by rewrite enumerates_empty. Qed.

(** A property checked on every ordering of the entries of a map holds
    of the ordering that [range] picks. *)
Lemma every_order (check : list (string * string) → bool)
    (m : gmap string string) range :
  forallb check (permutations (map_to_list m)) = true →
  enumerates range → check (range m) = true.
Proof.
  intros Hall Hr. rewrite forallb_forall in Hall. apply Hall.
  apply list_elem_of_In, permutations_Permutation. by rewrite (Hr m).
Qed.
End PlaceholderRuns.

(** C10: a content without the two characters "{{" comes out of
    [ReplacePlaceholders] as it went in, whatever the project name, the
    author, the extra variables and the order in which the maps are
    enumerated: every key of the replacement map starts with "{{". *)
Theorem ReplacePlaceholders_token_free
    (range : gmap string string → list (string * string))
    (content projectName author : string) (extraVars : gmap string string) :
  Utils.enumerates range →
  Strings.Contains content "{{" = false →
  Utils.ReplacePlaceholders range content projectName author extraVars = content.
Proof. apply ReplacePlaceholders_absent. Qed.

Lemma ReplacePlaceholders_token_free_witness :
  Utils.ReplacePlaceholders map_to_list "package main { }" "demo" "Ada"
    {["LICENSE" := "MIT"]} = "package main { }".
Proof.
  apply ReplacePlaceholders_token_free.
  - apply enumerates_map_to_list.
  - reflexivity.
Defined.

(** C9: whatever the order in which the replacement map is enumerated,
    "{{PROJECT_NAME}} by {{AUTHOR}}" expands to "demo by Ada" for the
    project "demo", the author "Ada" and no extra variables, and
    expanding "demo by Ada" again (under any enumeration) returns it
    unchanged. *)
Theorem placeholder_round_trip
    (range1 range2 : gmap string string → list (string * string)) :
  Utils.enumerates range1 →
  Utils.enumerates range2 →
  let expanded :=
    Utils.ReplacePlaceholders range1 "{{PROJECT_NAME}} by {{AUTHOR}}"
                              "demo" "Ada" ∅ in
  expanded = "demo by Ada" ∧
  Utils.ReplacePlaceholders range2 expanded "demo" "Ada" ∅ = expanded.
Proof.
  intros Hr1 Hr2 expanded.
  assert (expanded = "demo by Ada") as ->.
  { unfold expanded, Utils.ReplacePlaceholders.
    rewrite replacements_no_extra by done.
    apply String.eqb_eq.
    apply (every_order
             (λ steps, String.eqb
                (foldl (λ result kv, Strings.ReplaceAll result kv.1 kv.2)
                       "{{PROJECT_NAME}} by {{AUTHOR}}" steps)
                "demo by Ada")); [|done].
    vm_compute. reflexivity. }
  split; [done|]. by apply ReplacePlaceholders_absent.
Qed.

Lemma placeholder_round_trip_witness :
  Utils.ReplacePlaceholders map_to_list "{{PROJECT_NAME}} by {{AUTHOR}}"
                            "demo" "Ada" ∅ = "demo by Ada" ∧
  Utils.ReplacePlaceholders rev_range
    (Utils.ReplacePlaceholders map_to_list "{{PROJECT_NAME}} by {{AUTHOR}}"
                               "demo" "Ada" ∅) "demo" "Ada" ∅ =
  Utils.ReplacePlaceholders map_to_list "{{PROJECT_NAME}} by {{AUTHOR}}"
                            "demo" "Ada" ∅.
Proof.
  apply (placeholder_round_trip map_to_list rev_range).
  - apply enumerates_map_to_list.
  - intros m. apply reverse_Permutation.
Defined.

(** ** A token in plain text *)
Section TokenInText.
Import Strings Utils.

Lemma string_app_assoc (a b c : string) : (a +:+ b) +:+ c = a +:+ b +:+ c.
Proof.
  induction a as [|x a IH]; [done|].
  change (String x (a +:+ b) +:+ c = String x (a +:+ b +:+ c)).
  change (String x ((a +:+ b) +:+ c) = String x (a +:+ b +:+ c)).
  by rewrite IH.
Qed.

Lemma string_app_cons x (a b : string) : String x a +:+ b = String x (a +:+ b).
Proof. done. Qed.

Lemma string_app_nil_l (b : string) : "" +:+ b = b.
Proof. done. Qed.

Lemma string_app_nil_r (s : string) : s +:+ "" = s.
Proof. induction s as [|c s IH]; [done|]. by rewrite string_app_cons, IH. Qed.

Lemma string_length_app (a b : string) :
  String.length (a +:+ b) = String.length a + String.length b.
Proof. induction a as [|x a IH]; [done|]. rewrite string_app_cons. simpl. lia. Qed.

Lemma string_app_inv_tail (a b s : string) : a +:+ s = b +:+ s → a = b.
Proof.
  revert b. induction a as [|x a IH]; intros [|y b] H; [done| | |].
  - apply (f_equal String.length) in H.
    rewrite !string_length_app in H. simpl in H. lia.
  - apply (f_equal String.length) in H.
    rewrite !string_length_app in H. simpl in H. lia.
  - rewrite !string_app_cons in H. injection H as -> H. f_equal. by apply IH.
Qed.


Lemma lacks_cons c d s : lacks c (String d s) = negb (Ascii.eqb d c) && lacks c s.
Proof. done. Qed.

Lemma lacks_app c a b : lacks c (a +:+ b) = lacks c a && lacks c b.
Proof.
  induction a as [|x a IH]; [done|].
  rewrite string_app_cons, !lacks_cons, IH. by rewrite andb_assoc.
Qed.

Lemma lacks_head c s p : lacks c s = true → HasPrefix s (String c p) = false.
Proof.
  destruct s as [|d s]; [done|]. rewrite lacks_cons, HasPrefix_cons.
  intros [Hd _]%andb_true_iff. apply negb_true_iff, Ascii.eqb_neq in Hd.
  by rewrite bool_decide_eq_false_2.
Qed.

Lemma lacks_Contains c s p : lacks c s = true → Contains s (String c p) = false.
Proof.
  induction s as [|d s IH]; intros H; [done|].
  rewrite Contains_cons, (lacks_head _ _ _ H). simpl.
  rewrite lacks_cons in H. apply andb_true_iff in H as [_ H]. by apply IH.
Qed.

(** Passing over the characters of a match. *)
Lemma replace_from_skip old new a b :
  replace_from old new (String.length a) (a +:+ b) = replace_from old new 0 b.
Proof. induction a as [|x a IH]; [done|]. by rewrite string_app_cons. Qed.

(** Before the first brace nothing can match. *)
Lemma replace_from_plain old new pre s x :
  lacks "{" pre = true → old = wrap x →
  replace_from old new 0 (pre +:+ s) = pre +:+ replace_from old new 0 s.
Proof.
  intros Hpre ->. induction pre as [|c pre IH]; [done|].
  rewrite lacks_cons in Hpre. apply andb_true_iff in Hpre as [Hc Hpre].
  apply negb_true_iff, Ascii.eqb_neq in Hc.
  rewrite string_app_cons, replace_from_0.
  change (wrap x) with (String "{" (String "{" (x +:+ "}}"))) at 1.
  rewrite HasPrefix_cons, bool_decide_eq_false_2 by congruence.
  simpl. by rewrite IH.
Qed.

(** A key that matches where the token of [name] stands is [name]. *)
Lemma closing_braces_align x name post :
  lacks "}" name = true → lacks "}" post = true →
  HasPrefix (name +:+ "}}" +:+ post) (x +:+ "}}") = true → x = name.
Proof.
  revert x. induction name as [|n name IH]; intros x Hname Hpost H.
  - rewrite string_app_nil_l in H.
    destruct x as [|a [|b x]]; [done| |].
    + change (String a "" +:+ "}}") with (String a (String "}" (String "}" ""))) in H.
      change ("}}" +:+ post) with (String "}" (String "}" post)) in H.
      rewrite !HasPrefix_cons in H.
      apply andb_true_iff in H as [_ [_ H]%andb_true_iff].
      by rewrite (lacks_head _ _ _ Hpost) in H.
    + change ("}}" +:+ post) with (String "}" (String "}" post)) in H.
      rewrite !string_app_cons, !HasPrefix_cons in H.
      apply andb_true_iff in H as [_ [_ H]%andb_true_iff].
      assert (lacks "}" (x +:+ "}}") = true) as Hx.
      { clear -H Hpost. revert post H Hpost.
        induction x as [|c x IHx]; intros post H Hpost.
        - by rewrite string_app_nil_l, (lacks_head _ _ _ Hpost) in H.
        - destruct post as [|d post]; [done|].
          rewrite string_app_cons, HasPrefix_cons in H.
          apply andb_true_iff in H as [Hcd H]. apply bool_decide_eq_true in Hcd.
          subst d. rewrite lacks_cons in Hpost.
          apply andb_true_iff in Hpost as [Hc Hpost].
          rewrite string_app_cons, lacks_cons, Hc. simpl. by apply (IHx post). }
      by rewrite lacks_app in Hx; apply andb_true_iff in Hx as [_ ?].
  - rewrite lacks_cons in Hname. apply andb_true_iff in Hname as [Hn Hname].
    apply negb_true_iff, Ascii.eqb_neq in Hn.
    destruct x as [|a x].
    + rewrite string_app_nil_l, string_app_cons in H.
      change "}}" with (String "}" (String "}" "")) in H at 2.
      rewrite HasPrefix_cons in H. apply andb_true_iff in H as [Hc _].
      apply bool_decide_eq_true in Hc. by subst n.
    + rewrite !string_app_cons, HasPrefix_cons in H.
      apply andb_true_iff in H as [Hc H]. apply bool_decide_eq_true in Hc.
      subst a. f_equal. by apply IH.
Qed.

Lemma token_shape name post :
  wrap name +:+ post = String "{" (String "{" (name +:+ "}}" +:+ post)).
Proof.
  change (wrap name) with (String "{" (String "{" (name +:+ "}}"))).
  by rewrite !string_app_cons, string_app_assoc.
Qed.

(** The replacement of another key passes the token of [name] by. *)
Lemma ReplaceAll_other_token pre name post x new :
  lacks "{" pre = true → brace_free name = true → brace_free post = true →
  x ≠ name →
  ReplaceAll (pre +:+ wrap name +:+ post) (wrap x) new =
  pre +:+ wrap name +:+ post.
Proof.
  intros Hpre [Hn1 Hn2]%andb_true_iff [Hp1 Hp2]%andb_true_iff Hx.
  change (ReplaceAll ?s (wrap x) new) with (replace_from (wrap x) new 0 s).
  rewrite (replace_from_plain _ _ _ _ x) by done. f_equal.
  rewrite token_shape, replace_from_0.
  assert (lacks "{" (name +:+ "}}" +:+ post) = true) as Hrest.
  { rewrite !lacks_app, Hn1, Hp1. done. }
  destruct (HasPrefix _ (wrap x)) eqn:Hm.
  { change (wrap x) with (String "{" (String "{" (x +:+ "}}"))) in Hm.
    rewrite !HasPrefix_cons in Hm.
    apply andb_true_iff in Hm as [_ [_ Hm]%andb_true_iff].
    by apply closing_braces_align in Hm. }
  f_equal. rewrite replace_from_0.
  change (wrap x) with (String "{" (String "{" (x +:+ "}}"))) at 1.
  rewrite HasPrefix_cons, (lacks_head _ _ _ Hrest), andb_false_r.
  f_equal. apply (replace_from_absent _ _ "{{"); [apply wrap_prefix|].
  by apply lacks_Contains.
Qed.

(** The replacement of the token of [name] itself. *)
Lemma ReplaceAll_this_token pre name post new :
  lacks "{" pre = true → lacks "{" post = true →
  ReplaceAll (pre +:+ wrap name +:+ post) (wrap name) new =
  pre +:+ new +:+ post.
Proof.
  intros Hpre Hpost.
  change (ReplaceAll ?s (wrap name) new) with (replace_from (wrap name) new 0 s).
  rewrite (replace_from_plain _ _ _ _ name) by done. f_equal.
  change (wrap name +:+ post)
    with (String "{" (String "{" (name +:+ "}}") +:+ post)) at 1.
  rewrite replace_from_0.
  change (String "{" (String "{" (name +:+ "}}") +:+ post))
    with (wrap name +:+ post).
  rewrite HasPrefix_app. f_equal.
  change (String.length (wrap name) - 1)
    with (String.length (String "{" (name +:+ "}}")) - 0).
  rewrite Nat.sub_0_r, replace_from_skip.
  apply (replace_from_absent _ _ "{{"); [apply wrap_prefix|].
  by apply lacks_Contains.
Qed.
End TokenInText.

(** ** The replacement map *)
Section ReplacementMap.
Import Strings Utils.



Lemma range_NoDup range (m : gmap string string) :
  enumerates range → NoDup (range m).*1.
Proof. intros Hr. rewrite (Hr m). apply NoDup_fst_map_to_list. Qed.




Lemma run_app l1 l2 content : run (l1 ++ l2) content = run l2 (run l1 content).
Proof. apply foldl_app. Qed.

Lemma run_others (l : list (string * string)) pre name post :
  lacks "{" pre = true → brace_free name = true → brace_free post = true →
  (∀ kv, kv ∈ l → ∃ x, kv.1 = wrap x ∧ x ≠ name) →
  run l (pre +:+ wrap name +:+ post) = pre +:+ wrap name +:+ post.
Proof.
  intros Hpre Hname Hpost. induction l as [|[k v] l IH]; intros Hl; [done|].
  unfold run. simpl. destruct (Hl (k, v)) as (x & Hk & Hx); [by left|].
  simpl in Hk. subst k. rewrite ReplaceAll_other_token by done.
  apply IH. intros kv Hin. apply Hl. by right.
Qed.
End ReplacementMap.

(** ** Every occurrence of a token *)
Section Occurrences.
Import Strings Utils.













End Occurrences.

(** ** The map when a key is the name of a built-in *)
Section Override.
Import Strings Utils.



End Override.




(** A value that holds a token is itself rewritten when the step of that
    token comes after the step that brought it in. *)
Remark value_with_a_token :
  Utils.ReplacePlaceholders map_to_list "{{PROJECT_NAME}}" "demo" "Ada"
                            {["PROJECT_NAME" := "{{AUTHOR}}"]} = "{{AUTHOR}}" ∧
  Utils.ReplacePlaceholders rev_range "{{PROJECT_NAME}}" "demo" "Ada"
                            {["PROJECT_NAME" := "{{AUTHOR}}"]} = "Ada".
Proof. split; vm_compute; reflexivity. Qed.

(** ** Binary detection *)
Section BinaryDetection.
Import Strings Utils OS Project.

Lemma get_Some_lt i s c : String.get i s = Some c → i < String.length s.
Proof.
  revert i. induction s as [|d s IH]; intros [|i] H; simpl in *; try done; try lia.
  apply IH in H. lia.
Qed.

Lemma get_substring i n s :
  i < n → String.get i (String.substring 0 n s) = String.get i s.
Proof.
  revert i n. induction s as [|d s IH]; intros i [|n] Hi; try lia.
  - done.
  - destruct i as [|i]; [done|]. simpl. apply IH. lia.
Qed.

Lemma IsBinary_loop_true data i n :
  IsBinary_loop data i n = true ↔
  ∃ j, (i ≤ j < i + Z.of_nat n)%Z ∧ is_zero_at data j = true.
Proof.
  revert i. induction n as [|n IH]; intros i.
  - split; [done|]. intros (j & ? & _). lia.
  - simpl IsBinary_loop. destruct (is_zero_at data i) eqn:Hz.
    + split; [|done]. intros _. exists i. split; [lia|done].
    + rewrite IH. split; intros (j & Hj & Hzj).
      * exists j. split; [lia|done].
      * exists j. split; [|done].
        destruct (decide (j = i)) as [->|]; [congruence|lia].
Qed.

(** [IsBinary] answers whether one of the first [N] bytes is zero. *)
Lemma IsBinary_true data (N : Z) :
  IsBinary data N = true ↔
  ∃ i, (Z.of_nat i < N)%Z ∧ String.get i data = Some zero_byte.
Proof.
  unfold IsBinary. rewrite IsBinary_loop_true. unfold Min, len, is_zero_at.
  split.
  - intros (j & Hj & Hz). exists (Z.to_nat j).
    destruct (String.get (Z.to_nat j) data) as [c|] eqn:Hg; [|done].
    apply Ascii.eqb_eq in Hz. subst c. split; [|done].
    destruct (Z.ltb_spec (Z.of_nat (String.length data)) N); lia.
  - intros (i & Hi & Hg). exists (Z.of_nat i).
    rewrite Nat2Z.id, Hg. split; [|by apply Ascii.eqb_eq].
    apply get_Some_lt in Hg.
    destruct (Z.ltb_spec (Z.of_nat (String.length data)) N); lia.
Qed.

Lemma IsBinary_prefix data (N : Z) :
  IsBinary (String.substring 0 (Z.to_nat N) data) N = IsBinary data N.
Proof.
  apply eq_true_iff_eq. rewrite !IsBinary_true.
  split; intros (i & Hi & Hg); exists i; split; try done.
  - rewrite get_substring in Hg by lia. done.
  - rewrite get_substring by lia. done.
Qed.
End BinaryDetection.

(** C5: [IsBinary data 8000] is true exactly when one of the first 8000
    bytes of [data] is zero, so it is a function of those bytes alone; a
    file it classifies as binary is written to the destination as it was
    read; and a content whose first 8000 bytes are not zero is text, a
    zero byte further on notwithstanding. *)
Theorem binary_detection_bounded (data : string) :
  (Utils.IsBinary data 8000 = true ↔
   ∃ i, (Z.of_nat i < 8000)%Z ∧ String.get i data = Some Utils.zero_byte) ∧
  Utils.IsBinary (String.substring 0 (Z.to_nat 8000) data) 8000 =
    Utils.IsBinary data 8000 ∧
  ((∀ i, (Z.of_nat i < 8000)%Z → String.get i data ≠ Some Utils.zero_byte) →
   Utils.IsBinary data 8000 = false) ∧
  (∀ range src dst projectName author mode extraVars w srcMode,
      OS.fsys w !! OS.resolve w src = Some (OS.Regular srcMode data) →
      Utils.IsBinary data 8000 = true →
      Project.copyFileWithReplacements range src dst projectName author mode
                                       extraVars w =
      OS.WriteFile dst data mode w).
Proof.
  pose proof (IsBinary_true data 8000) as Hiff.
  split; [done|]. split; [apply (IsBinary_prefix data 8000)|]. split.
  - intros Hnone. apply not_true_is_false. rewrite Hiff.
    intros (i & Hi & Hg). by apply (Hnone i).
  - intros range src dst projectName author mode extraVars w srcMode Hsrc Hbin.
    unfold Project.copyFileWithReplacements, mbind, OS.M_bind, OS.ReadFile.
    by rewrite Hsrc, Hbin.
Qed.

Lemma get_pad n s i : i < n → String.get i (pad n s) = Some "a"%char.
Proof.
  revert i. induction n as [|n IH]; intros i Hi; [lia|].
  destruct i as [|i]; [done|]. simpl. apply IH. lia.
Qed.

Lemma get_pad_end n s : String.get n (pad n s) = String.get 0 s.
Proof. induction n as [|n IH]; [done|]. by simpl. Qed.

Lemma binary_detection_bounded_witness :
  String.get (Z.to_nat 8000) late_zero = Some Utils.zero_byte ∧
  Utils.IsBinary late_zero 8000 = false ∧
  Project.copyFileWithReplacements map_to_list "/tmpl/logo.png" "/out/logo.png"
    "demo" "Ada" 420 ∅ logo_world
  = OS.WriteFile "/out/logo.png" (String Ascii.zero "PNG{{AUTHOR}}") 420 logo_world.
Proof.
  split; [apply (get_pad_end (Z.to_nat 8000))|]. split.
  - apply (binary_detection_bounded late_zero). intros i Hi.
    unfold late_zero. rewrite get_pad by lia. done.
  - apply (proj2 (proj2 (proj2
             (binary_detection_bounded (String Ascii.zero "PNG{{AUTHOR}}"))))
             map_to_list "/tmpl/logo.png" "/out/logo.png" "demo" "Ada" 420%N ∅
             logo_world 420%N).
    + vm_compute. reflexivity.
    + vm_compute. reflexivity.
Defined.

(** ** Ignore patterns *)
Section IgnorePatterns.
Import Strings Utils.

Lemma ToSlash_id path : Filepath.ToSlash path = path.
Proof. done. Qed.

Lemma MatchIgnore_loop_prefix normalizedPath patterns pattern :
  pattern ∈ patterns →
  HasPrefix (normalizedPath +:+ "/")
            (Filepath.ToSlash (TrimSuffix pattern "/") +:+ "/") = true →
  MatchIgnore_loop normalizedPath patterns = true.
Proof.
  intros Hin Hpre. induction patterns as [|p patterns IH].
  { by apply elem_of_nil in Hin. }
  simpl. destruct (Filepath.Match _ _); [done|].
  destruct (HasPrefix _ (Filepath.ToSlash (TrimSuffix p "/") +:+ "/")) eqn:Hp; [done|].
  apply elem_of_cons in Hin as [->|Hin]; [congruence|by apply IH].
Qed.
End IgnorePatterns.

(** C6: for every set of patterns and every pattern in it, a relative
    path below the directory the pattern names (the pattern without its
    final slash, a slash, and anything) is matched: the path with a
    slash at its end starts with the directory with a slash at its
    end. *)
Theorem MatchIgnore_descendant (patterns : list string) (pattern rest : string) :
  pattern ∈ patterns →
  let dir := Filepath.ToSlash (Strings.TrimSuffix pattern "/") in
  let relPath := dir +:+ "/" +:+ rest in
  Strings.HasPrefix (Filepath.ToSlash relPath +:+ "/") (dir +:+ "/") = true ∧
  Utils.MatchIgnore relPath patterns = true.
Proof.
  intros Hin dir relPath.
  assert (Strings.HasPrefix (Filepath.ToSlash relPath +:+ "/") (dir +:+ "/") = true)
    as Hpre.
  { rewrite ToSlash_id. unfold relPath.
    rewrite <-(string_app_assoc dir "/" rest), string_app_assoc.
    apply HasPrefix_app. }
  split; [done|]. unfold Utils.MatchIgnore.
  by apply (MatchIgnore_loop_prefix _ _ pattern).
Qed.

Lemma MatchIgnore_descendant_witness :
  Strings.HasPrefix (Filepath.ToSlash ("docs/api" +:+ "/" +:+ "v1/index.md") +:+ "/")
                    ("docs/api" +:+ "/") = true ∧
  Utils.MatchIgnore ("docs/api" +:+ "/" +:+ "v1/index.md")
                    ["*.log"; "docs/api/"; "tmp"] = true.
Proof.
  apply (MatchIgnore_descendant ["*.log"; "docs/api/"; "tmp"] "docs/api/" "v1/index.md").
  apply list_elem_of_In. simpl. tauto.
Defined.

(** ** The classifier *)
Section Classifier.
Import Project.

Lemma shouldSkipDir_denylist name :
  shouldSkipDir name = true ↔ name ∈ denylist.
Proof.
  unfold shouldSkipDir, denylist. rewrite !elem_of_cons, elem_of_nil.
  repeat match goal with
         | |- context [String.eqb name ?s] =>
             destruct (String.eqb_spec name s) as [->|?]; [tauto|]
         end.
  split; [done|]. tauto.
Qed.
End Classifier.

(** C3: a directory whose name is on the denylist is skipped and not
    entered whatever the ignore patterns are (and whatever the paths and
    the self-containment flag); and an entry at or under the destination
    of a self-contained copy is skipped, a directory not entered,
    whatever the ignore patterns are: both answers are given before the
    patterns are looked at. *)
Theorem denylist_precedence (info : OS.FileInfo)
    (srcPath sourceRoot targetRoot absSourceDir : string)
    (targetInsideSource : bool) (ignores : list string) :
  (OS.IsDir info = true → OS.Name info ∈ denylist →
   Project.shouldSkipEntry info srcPath sourceRoot targetRoot absSourceDir
                           targetInsideSource ignores = (true, true)) ∧
  (targetInsideSource = true →
   Project.isTargetOrChild srcPath absSourceDir targetRoot = true →
   Project.shouldSkipEntry info srcPath sourceRoot targetRoot absSourceDir
                           targetInsideSource ignores = (true, OS.IsDir info)).
Proof.
  unfold Project.shouldSkipEntry. split.
  - intros -> Hname. apply shouldSkipDir_denylist in Hname. by rewrite Hname.
  - intros -> ->. simpl. destruct (OS.IsDir info); [|done].
    simpl. by destruct (Project.shouldSkipDir _).
Qed.

Lemma denylist_precedence_witness :
  let info := {| OS.Name := "node_modules"; OS.IsDir := true; OS.Mode := 493 |} in
  Project.shouldSkipEntry info "/tmpl/node_modules" "/tmpl" "/out/demo" "/tmpl"
                          false ["!node_modules"; "src"] = (true, true) ∧
  Project.shouldSkipEntry {| OS.Name := "keep.txt"; OS.IsDir := false; OS.Mode := 420 |}
                          "/tmpl/out/keep.txt" "/tmpl" "/tmpl/out" "/tmpl"
                          true [] = (true, false).
Proof.
  split.
  - apply (denylist_precedence _ "/tmpl/node_modules" "/tmpl" "/out/demo" "/tmpl"
             false ["!node_modules"; "src"]); [done|].
    apply list_elem_of_In. simpl. tauto.
  - by apply (denylist_precedence
                {| OS.Name := "keep.txt"; OS.IsDir := false; OS.Mode := 420 |}
                "/tmpl/out/keep.txt" "/tmpl" "/tmpl/out" "/tmpl" true []).
Defined.

(** ** The fuel of the walk *)
Section Fuel.
Import OS Walk Project.
Context {L : Type}.

Lemma walk_names_mono
    (rec rec' : string → FileInfo → L → world → option (option error * L * world))
    (fn : WalkFunc L) path names l w r :
  (∀ p i l w r, rec p i l w = Some r → rec' p i l w = Some r) →
  walk_names rec fn path names l w = Some r →
  walk_names rec' fn path names l w = Some r.
Proof.
  intros Hrec. revert l w. induction names as [|name names IH]; intros l w; [done|].
  simpl. destruct (Lstat _ w) as [[[fi|] err] w1].
  - destruct (rec _ fi l w1) as [[[err' l'] w2]|] eqn:Hr; [|done].
    rewrite (Hrec _ _ _ _ _ Hr). destruct (_ && _); [done|]. apply IH.
  - destruct (call fn _ None err l w1) as [[err' l'] w2].
    destruct (_ && _); [done|]. apply IH.
Qed.

(** A walk that has ended within some fuel ends the same way within any
    larger one. *)
Lemma walk_mono fuel fuel' (fn : WalkFunc L) path info l w r :
  fuel ≤ fuel' →
  walk fuel fn path info l w = Some r → walk fuel' fn path info l w = Some r.
Proof.
  revert fuel' path info l w r.
  induction fuel as [|fuel IH]; intros fuel' path info l w r Hle; [done|].
  destruct fuel' as [|fuel']; [lia|]. simpl.
  destruct (negb (IsDir info)); [done|].
  destruct (readDirNames path w) as [[names err] w1].
  destruct (call fn path (Some info) err l w1) as [[err1 l1] w2].
  destruct (_ || _); [done|].
  apply walk_names_mono. intros p i l' w' r'. apply IH. lia.
Qed.

Lemma Walk_mono fuel fuel' root (fn : WalkFunc L) l w r :
  fuel ≤ fuel' →
  Walk fuel root fn l w = Some r → Walk fuel' root fn l w = Some r.
Proof.
  intros Hle. unfold Walk. destruct (Lstat root w) as [[[fi|] err] w1]; [|done].
  destruct (walk fuel fn root fi l w1) as [[[e l'] w2]|] eqn:Hw; [|done].
  by rewrite (walk_mono _ _ _ _ _ _ _ _ Hle Hw).
Qed.
End Fuel.

Lemma CreateFromTemplate_mono range fuel fuel' tmpl projectName targetDir author
    extraVars w r :
  fuel ≤ fuel' →
  Project.CreateFromTemplate range fuel tmpl projectName targetDir author
                             extraVars w = Some r →
  Project.CreateFromTemplate range fuel' tmpl projectName targetDir author
                             extraVars w = Some r.
Proof.
  intros Hle. unfold Project.CreateFromTemplate, Project.copyTree.
  destruct (Project.ensureTargetDir targetDir w) as [[e|] w1]; [done|].
  destruct (Project.resolvePaths _ _ w1) as [[[absT absS] [e|]] w2]; [done|].
  destruct (Utils.LoadIgnorePatterns _ _ w2) as [ignores w3].
  destruct (Walk.Walk fuel _ _ _ w3) as [[[e u] w4]|] eqn:Hw; [|done].
  by rewrite (Walk_mono _ _ _ _ _ _ _ Hle Hw).
Qed.

Lemma PreviewFromTemplate_mono fuel fuel' tmpl projectName targetDir author
    extraVars w r :
  fuel ≤ fuel' →
  Project.PreviewFromTemplate fuel tmpl projectName targetDir author
                              extraVars w = Some r →
  Project.PreviewFromTemplate fuel' tmpl projectName targetDir author
                              extraVars w = Some r.
Proof.
  intros Hle. unfold Project.PreviewFromTemplate.
  destruct (Project.resolvePaths _ _ w) as [[[absT absS] [e|]] w2]; [done|].
  destruct (Utils.LoadIgnorePatterns _ _ w2) as [ignores w3].
  destruct (Walk.Walk fuel _ _ _ w3) as [[[e files] w4]|] eqn:Hw; [|done].
  by rewrite (Walk_mono _ _ _ _ _ _ _ Hle Hw).
Qed.

(** ** The walk on given templates *)

(** C7: the template holds the ignore file with the one line "/dist/" and
    the file dist/bundle.js. Creating a project from it into /out/demo
    ends without error; the walk calls its function on the directory
    dist and never on dist/bundle.js; what appears under /out is the
    destination root and the copy of the ignore file; there is neither a
    directory dist nor a file dist/bundle.js under the destination. *)
Theorem dist_is_left_out
    (range : gmap string string → list (string * string))
    (projectName author bundle : string) (extraVars : gmap string string)
    (fuel : nat) :
  ∃ w',
    Project.CreateFromTemplate range (S (S fuel)) (template_at "/tmpl")
      projectName "/out/demo" author extraVars (dist_world bundle)
    = Some (None, w') ∧
    OS.visited w' = ["/tmpl/dist"; "/tmpl/.foundryignore"; "/tmpl"] ∧
    created (dist_world bundle) w' = ["/out/demo"; "/out/demo/.foundryignore"] ∧
    OS.fsys w' !! "/out/demo/dist" = None ∧
    OS.fsys w' !! "/out/demo/dist/bundle.js" = None.
Proof.
  set (r := Project.CreateFromTemplate _ _ _ _ _ _ _ _).
  assert (match r with
          | Some (None, w') =>
              Some (OS.visited w', created (dist_world bundle) w',
                    OS.fsys w' !! "/out/demo/dist",
                    OS.fsys w' !! "/out/demo/dist/bundle.js")
          | _ => None
          end
          = Some (["/tmpl/dist"; "/tmpl/.foundryignore"; "/tmpl"],
                  ["/out/demo"; "/out/demo/.foundryignore"], None, None)) as Hr.
  { vm_compute. reflexivity. }
  destruct r as [[[e|] w']|]; try discriminate Hr.
  injection Hr as Hv Hc Hd Hb. by exists w'.
Qed.

(** [os.Stat] leaves the world as it is, and finds an entry exactly when
    the walk along the name succeeds and the cleaned name is in the file
    system. *)
Lemma Stat_same_world name w : (OS.Stat name w).2 = w.
Proof.
  unfold OS.Stat. destruct (OS.walk_name w name); [|done..].
  by destruct (OS.fsys w !! OS.resolve w name).
Qed.

Lemma Stat_finds name w :
  (OS.Stat name w).1.2 = None ↔
  (∃ below, OS.walk_name w name = OS.Reached below) ∧
  is_Some (OS.fsys w !! OS.resolve w name).
Proof.
  unfold OS.Stat. destruct (OS.walk_name w name) as [below| |].
  - destruct (OS.fsys w !! OS.resolve w name) as [n|]; simpl.
    + split; [by eauto|done].
    + split; [by destruct below|]. by intros [_ [? ?]].
  - simpl. split; [done|]. by intros [[? ?] _].
  - simpl. split; [done|]. by intros [[? ?] _].
Qed.

(** When [os.Stat] finds the directory of the project, the command
    leaves through [exitWithError], in the world it started in: nothing
    is written and the walk function is called on no entry. The error is
    the one of the existing directory, unless the path of the template is
    missing, which is reported first. *)
Theorem existing_destination_is_refused
    (range : gmap string string → list (string * string))
    (fuel : nat) (tmpl : Project.Template) (projectName targetPath : string)
    (varsKV : list string) (dryRun : bool) (author : string) (w : OS.world) :
  let projectDir := Cmd.determineProjectDir projectName targetPath in
  (OS.Stat projectDir w).1.2 = None →
  ∃ message,
    Cmd.Run_template range fuel tmpl projectName targetPath varsKV dryRun author w
    = Some (Cmd.exitWithError message, w) ∧
    (OS.IsNotExist (OS.Stat (Project.Path tmpl) w).1.2 = false →
     message = "Directory '" +:+ projectDir +:+ "' already exists") ∧
    (OS.IsNotExist (OS.Stat (Project.Path tmpl) w).1.2 = true →
     message = "Template path no longer exists: " +:+ Project.Path tmpl).
Proof.
  intros projectDir Hd. unfold Cmd.Run_template.
  pose proof (Stat_same_world (Project.Path tmpl) w) as Hw1.
  destruct (OS.Stat (Project.Path tmpl) w) as [[i1 e1] w1]. simpl in Hw1. subst w1.
  cbn [fst snd]. destruct (OS.IsNotExist e1).
  - by eexists.
  - fold projectDir. pose proof (Stat_same_world projectDir w) as Hw2.
    destruct (OS.Stat projectDir w) as [[i2 e2] w2]. simpl in Hw2, Hd. subst w2 e2.
    simpl. by eexists.
Qed.

Lemma existing_destination_is_refused_witness :
  ∃ message,
    Cmd.Run_template map_to_list 5 (template_at "/tmpl") "out" "/" [] false "Ada"
                     (dist_world "x")
    = Some (Cmd.exitWithError message, dist_world "x") ∧
    (OS.IsNotExist (OS.Stat "/tmpl" (dist_world "x")).1.2 = false →
     message = "Directory '" +:+ Cmd.determineProjectDir "out" "/" +:+ "' already exists") ∧
    (OS.IsNotExist (OS.Stat "/tmpl" (dist_world "x")).1.2 = true →
     message = "Template path no longer exists: " +:+ "/tmpl").
Proof.
  apply (existing_destination_is_refused map_to_list 5 (template_at "/tmpl")
           "out" "/" [] false "Ada" (dist_world "x")).
  vm_compute. reflexivity.
Defined.

(** C8: the check for an existing directory is [os.Stat] on the name as
    it was typed. Without --path the name of the project is the name that
    is checked, uncleaned: for "nonexistent/../out", run where the
    directory out exists, the walk of the name stops at the missing
    directory, [os.Stat] reports that nothing is there, and the command
    goes on: [MkdirAll] makes the directory nonexistent on its way, and
    the template is copied into the directory out that was there. With
    --path the name goes through [filepath.Join], which cleans it, and
    the same project is refused. *)
Theorem dotted_destination_is_merged
    (range : gmap string string → list (string * string))
    (author bundle : string) (fuel : nat) :
  let w := dist_world bundle in
  let name := "nonexistent/../out" in
  OS.fsys w !! OS.resolve w (Cmd.determineProjectDir name "")
  = Some (OS.Directory 493) ∧
  OS.Stat (Cmd.determineProjectDir name "") w
  = ((None, Some (OS.ErrNotExist "stat" name)), w) ∧
  (∃ w',
      Cmd.Run_template range (S (S fuel)) (template_at "/tmpl") name "" [] false
                       author w
      = Some (Cmd.Created, w') ∧
      OS.visited w' = ["/tmpl/dist"; "/tmpl/.foundryignore"; "/tmpl"] ∧
      created w w' = ["/nonexistent"; "/out/.foundryignore"]) ∧
  Cmd.Run_template range (S (S fuel)) (template_at "/tmpl") name "." [] false
                   author w
  = Some (Cmd.exitWithError "Directory 'out' already exists", w).
Proof.
  intros w name. split; [vm_compute; reflexivity|]. split; [vm_compute; reflexivity|].
  split; [|vm_compute; reflexivity].
  set (r := Cmd.Run_template _ _ _ _ _ _ _ _ _).
  assert (match r with
          | Some (Cmd.Created, w') => Some (OS.visited w', created w w')
          | _ => None
          end
          = Some (["/tmpl/dist"; "/tmpl/.foundryignore"; "/tmpl"],
                  ["/nonexistent"; "/out/.foundryignore"])) as Hr.
  { vm_compute. reflexivity. }
  destruct r as [[[| |] w']|]; try discriminate Hr.
  injection Hr as Hv Hc. by exists w'.
Qed.

(** What keeps dist out of the copy above is the denylist: the pattern
    "/dist/" is compared as the text "/dist", which no relative path
    starts with. *)
Remark leading_slash_pattern :
  Utils.LoadIgnorePatterns "/tmpl" ".foundryignore" (dist_world "x")
  = (["/dist/"], dist_world "x") ∧
  Utils.MatchIgnore "dist" ["/dist/"] = false ∧
  Utils.MatchIgnore "dist/bundle.js" ["/dist/"] = false ∧
  Project.shouldSkipDir "dist" = true.
Proof. repeat split; vm_compute; reflexivity. Qed.

(** The same scenario with a directory that is not on the denylist: docs
    and docs/guide.md are copied. *)
Remark leading_slash_pattern_copies
    (range : gmap string string → list (string * string))
    (projectName author : string) (extraVars : gmap string string)
    (fuel : nat) :
  ∃ w',
    Project.CreateFromTemplate range (S (S (S fuel))) (template_at "/tmpl")
      projectName "/out/demo" author extraVars docs_world
    = Some (None, w') ∧
    created docs_world w' =
      ["/out/demo"; "/out/demo/.foundryignore"; "/out/demo/docs";
       "/out/demo/docs/guide.md"].
Proof.
  set (r := Project.CreateFromTemplate _ _ _ _ _ _ _ _).
  assert (match r with
          | Some (None, w') => Some (created docs_world w')
          | _ => None
          end
          = Some ["/out/demo"; "/out/demo/.foundryignore"; "/out/demo/docs";
                  "/out/demo/docs/guide.md"]) as Hr.
  { vm_compute. reflexivity. }
  destruct r as [[[e|] w']|]; try discriminate Hr.
  injection Hr as Hc. by exists w'.
Qed.

(** A pattern with a wildcard names a directory to [MatchIgnore] by its
    text only: the directory itself is matched (and the walk prunes it),
    a path below it is not. *)
Remark wildcard_directory :
  Utils.MatchIgnore "build1" ["build*/"] = true ∧
  Utils.MatchIgnore "build1/main.o" ["build*/"] = false.
Proof. split; vm_compute; reflexivity. Qed.

(** The test for an existing destination is the command's:
    [CreateFromTemplate] by itself copies into a directory that is
    there. *)
Remark CreateFromTemplate_into_existing
    (range : gmap string string → list (string * string))
    (projectName author bundle : string) (extraVars : gmap string string)
    (fuel : nat) :
  is_Some (OS.fsys (dist_world bundle) !! "/out") ∧
  ∃ w',
    Project.CreateFromTemplate range (S (S fuel)) (template_at "/tmpl")
      projectName "/out" author extraVars (dist_world bundle)
    = Some (None, w') ∧
    created (dist_world bundle) w' = ["/out/.foundryignore"].
Proof.
  split; [vm_compute; eauto|].
  set (r := Project.CreateFromTemplate _ _ _ _ _ _ _ _).
  assert (match r with
          | Some (None, w') => Some (created (dist_world bundle) w')
          | _ => None
          end = Some ["/out/.foundryignore"]) as Hr.
  { vm_compute. reflexivity. }
  destruct r as [[[e|] w']|]; try discriminate Hr.
  injection Hr as Hc. by exists w'.
Qed.

(** ** The classifier of the preview and the classifier of the copy *)
Section ClassifierParity.
Import Strings OS Walk Project.

(** Off the root the function of the preview answers as [shouldSkipEntry]
    does, and plans the path that [joinDest] gives. *)
Lemma preview_walker_off_root tmpl targetDir absSourceDir targetInsideSource
    ignores srcPath info files w :
  (Filepath.Rel (Path tmpl) srcPath).2 = false →
  (Filepath.Rel (Path tmpl) srcPath).1 ≠ "." →
  preview_walker tmpl targetDir absSourceDir targetInsideSource ignores
                 srcPath (Some info) None files w
  = (match shouldSkipEntry info srcPath (Path tmpl) targetDir absSourceDir
                           targetInsideSource ignores with
     | (true, true) => (Some SkipDir, files)
     | (true, false) => (None, files)
     | (false, _) => (None, files ++ [joinDest targetDir (Path tmpl) srcPath])
     end, w).
Proof.
  intros Herr Hroot. unfold preview_walker, shouldSkipEntry, joinDest.
  cbn [default]. unfold id.
  destruct (IsDir info && shouldSkipDir (Name info)); [done|].
  fold (isTargetOrChild srcPath absSourceDir targetDir).
  destruct (targetInsideSource && isTargetOrChild srcPath absSourceDir targetDir).
  { by destruct (IsDir info). }
  destruct (Filepath.Rel (Path tmpl) srcPath) as [relPath err].
  simpl in Herr, Hroot. subst err.
  destruct (String.eqb_spec relPath "."); [done|].
  destruct (Utils.MatchIgnore _ ignores); [by destruct (IsDir info)|done].
Qed.

(** On the root the two part ways as soon as a pattern matches ".": the
    preview prunes the walk, the copy passes over the root alone. *)
Lemma root_matched_by_pattern tmpl targetDir absSourceDir targetInsideSource
    ignores info files w :
  IsDir info = true → shouldSkipDir (Name info) = false →
  targetInsideSource && isTargetOrChild (Path tmpl) absSourceDir targetDir = false →
  Utils.MatchIgnore "." ignores = true →
  preview_walker tmpl targetDir absSourceDir targetInsideSource ignores
                 (Path tmpl) (Some info) None files w
  = (Some SkipDir, files, w) ∧
  shouldSkipEntry info (Path tmpl) (Path tmpl) targetDir absSourceDir
                  targetInsideSource ignores = (true, false).
Proof.
  intros Hdir Hdeny Hguard Hmatch.
  assert (Filepath.Rel (Path tmpl) (Path tmpl) = (".", false)) as Hrel.
  { unfold Filepath.Rel. by rewrite String.eqb_refl. }
  unfold preview_walker, shouldSkipEntry. cbn [default]. unfold id.
  fold (isTargetOrChild (Path tmpl) absSourceDir targetDir).
  rewrite Hdir, Hdeny, Hguard, Hrel. cbn [andb].
  change (Filepath.ToSlash ".") with ".". by rewrite Hmatch.
Qed.
End ClassifierParity.

(** ** Paths by their elements *)
Section PathAlgebra.
Import Strings Filepath.

Lemma split_on_cons sep c s :
  split_on sep (String c s) =
  if Ascii.eqb c sep then "" :: split_on sep s
  else match split_on sep s with
       | [] => [String c ""]
       | x :: xs => String c x :: xs
       end.
Proof. done. Qed.

Lemma split_on_not_nil sep s : split_on sep s ≠ [].
Proof.
  induction s as [|c s IH]; [done|]. rewrite split_on_cons.
  destruct (Ascii.eqb c sep); [done|]. by destruct (split_on sep s).
Qed.

Lemma split_on_lacks sep s : lacks sep s = true → split_on sep s = [s].
Proof.
  induction s as [|c s IH]; [done|]. rewrite lacks_cons, split_on_cons.
  intros [Hc Hs]%andb_true_iff. apply negb_true_iff in Hc. rewrite Hc.
  by rewrite IH.
Qed.

Lemma split_on_app sep a b :
  split_on sep (a +:+ String sep b) = split_on sep a ++ split_on sep b.
Proof.
  induction a as [|c a IH].
  - rewrite string_app_nil_l, split_on_cons, Ascii.eqb_refl. done.
  - rewrite string_app_cons, !split_on_cons, IH.
    destruct (Ascii.eqb c sep); [done|].
    pose proof (split_on_not_nil sep a). by destruct (split_on sep a).
Qed.

Lemma elements_app a b :
  elements (a +:+ "/" +:+ b) = elements a ++ elements b.
Proof.
  unfold elements. change ("/" +:+ b) with (String Separator b).
  by rewrite split_on_app, List.filter_app.
Qed.

Lemma simple_lacks s : simple s = true → lacks "/"%char s = true.
Proof. unfold simple. intros H. by repeat (apply andb_true_iff in H as [H ?]). Qed.

Lemma simple_nonempty s : simple s = true → nonempty s = true.
Proof. unfold simple. intros H. by repeat (apply andb_true_iff in H as [H ?]). Qed.

Lemma elements_simple s : simple s = true → elements s = [s].
Proof.
  intros H. unfold elements. rewrite split_on_lacks by by apply simple_lacks.
  simpl. by rewrite (simple_nonempty _ H).
Qed.

Lemma elements_empty : elements "" = [].
Proof. done. Qed.

Lemma elements_join segs :
  Forall (λ s, simple s = true) segs → elements (Strings.Join segs "/") = segs.
Proof.
  induction 1 as [|s segs Hs Hsegs IH]; [done|].
  destruct segs as [|t segs]; [by apply elements_simple|].
  change (Strings.Join (s :: t :: segs) "/")
    with (s +:+ "/" +:+ Strings.Join (t :: segs) "/").
  by rewrite elements_app, elements_simple, IH.
Qed.

Lemma elements_abs segs :
  Forall (λ s, simple s = true) segs → elements (abs_path segs) = segs.
Proof.
  intros H. unfold abs_path.
  rewrite <-(string_app_nil_l ("/" +:+ _)) at 1.
  by rewrite elements_app, elements_empty, elements_join.
Qed.

Lemma clean_step_simple rooted kept e :
  simple e = true → clean_step rooted kept e = e :: kept.
Proof.
  unfold simple, clean_step, nonempty. intros H.
  repeat (apply andb_true_iff in H as [H ?]).
  destruct (String.eqb e ""); [done|]. destruct (String.eqb e "."); [done|].
  by destruct (String.eqb e "..").
Qed.

Lemma clean_step_empty rooted kept : clean_step rooted kept "" = kept.
Proof. done. Qed.

Lemma clean_fold rooted parts kept :
  Forall (λ s, part s = true) parts →
  foldl (clean_step rooted) kept parts = rev (List.filter nonempty parts) ++ kept.
Proof.
  intros H. revert kept. induction H as [|e parts He Hparts IH]; intros kept; [done|].
  simpl. rewrite IH. unfold part in He. apply orb_true_iff in He as [He|He].
  - apply String.eqb_eq in He. subst e. by rewrite clean_step_empty.
  - rewrite clean_step_simple, (simple_nonempty _ He) by done.
    simpl. by rewrite <-app_assoc.
Qed.

(** A path whose parts are empty or plain names is cleaned to its
    elements. *)
Lemma Clean_elements path :
  path ≠ "" → Forall (λ s, part s = true) (split_on Separator path) →
  Clean path =
  if IsAbs path then abs_path (elements path)
  else match elements path with
       | [] => "."
       | segs => Strings.Join segs "/"
       end.
Proof.
  intros Hne Hparts. unfold Clean.
  destruct (String.eqb_spec path ""); [done|].
  rewrite clean_fold by done. rewrite app_nil_r, rev_involutive.
  fold (elements path). destruct (IsAbs path); [done|].
  by destruct (elements path).
Qed.

Lemma parts_app a b :
  Forall (λ s, part s = true) (split_on Separator a) →
  Forall (λ s, part s = true) (split_on Separator b) →
  Forall (λ s, part s = true) (split_on Separator (a +:+ "/" +:+ b)).
Proof.
  intros Ha Hb. change ("/" +:+ b) with (String Separator b).
  rewrite split_on_app. by apply Forall_app.
Qed.

Lemma parts_simple s :
  simple s = true → Forall (λ s, part s = true) (split_on Separator s).
Proof.
  intros H. rewrite split_on_lacks by by apply simple_lacks.
  constructor; [|done]. unfold part. by rewrite H, orb_true_r.
Qed.

Lemma parts_empty : Forall (λ s, part s = true) (split_on Separator "").
Proof. by constructor. Qed.

Lemma parts_join segs :
  Forall (λ s, simple s = true) segs →
  Forall (λ s, part s = true) (split_on Separator (Strings.Join segs "/")).
Proof.
  induction 1 as [|s segs Hs Hsegs IH]; [apply parts_empty|].
  destruct segs as [|t segs]; [by apply parts_simple|].
  change (Strings.Join (s :: t :: segs) "/")
    with (s +:+ "/" +:+ Strings.Join (t :: segs) "/").
  apply parts_app; [by apply parts_simple|done].
Qed.

Lemma parts_abs segs :
  Forall (λ s, simple s = true) segs →
  Forall (λ s, part s = true) (split_on Separator (abs_path segs)).
Proof.
  intros H. unfold abs_path.
  rewrite <-(string_app_nil_l ("/" +:+ _)).
  apply parts_app; [apply parts_empty|by apply parts_join].
Qed.

Lemma IsAbs_abs segs : IsAbs (abs_path segs) = true.
Proof.
  unfold IsAbs, abs_path. change ("/" +:+ ?s) with (String "/" s).
  by rewrite HasPrefix_cons, HasPrefix_nil.
Qed.

Lemma abs_path_nonempty segs : abs_path segs ≠ "".
Proof. done. Qed.

Lemma Clean_abs segs :
  Forall (λ s, simple s = true) segs → Clean (abs_path segs) = abs_path segs.
Proof.
  intros H. rewrite Clean_elements; [|done|by apply parts_abs].
  by rewrite IsAbs_abs, elements_abs.
Qed.

Lemma IsAbs_abs_app segs s : IsAbs (abs_path segs +:+ s) = true.
Proof.
  unfold IsAbs, abs_path. change ("/" +:+ ?t) with (String "/" t).
  by rewrite string_app_cons, HasPrefix_cons, HasPrefix_nil.
Qed.

Lemma Join_nonempty_l x y : x ≠ "" → Filepath.Join [x; y] = Clean (x +:+ "/" +:+ y).
Proof. intros Hx. simpl. by destruct (String.eqb_spec x ""). Qed.

Lemma simple_IsAbs s t : simple s = true → IsAbs (s +:+ t) = false.
Proof.
  intros H. pose proof (simple_lacks _ H) as Hl. pose proof (simple_nonempty _ H) as Hn.
  destruct s as [|c s]; [done|]. rewrite lacks_cons in Hl.
  apply andb_true_iff in Hl as [Hc _]. apply negb_true_iff, Ascii.eqb_neq in Hc.
  unfold IsAbs. rewrite string_app_cons.
  change "/" with (String "/" "") at 1.
  rewrite HasPrefix_cons, bool_decide_eq_false_2 by congruence. done.
Qed.

Lemma rel_IsAbs segs t :
  Forall (λ s, simple s = true) segs → segs ≠ [] →
  IsAbs (Strings.Join segs "/" +:+ t) = false.
Proof.
  intros H Hne. destruct H as [|s segs Hs Hsegs]; [done|].
  destruct segs as [|u segs]; [by apply simple_IsAbs|].
  change (Strings.Join (s :: u :: segs) "/")
    with (s +:+ "/" +:+ Strings.Join (u :: segs) "/").
  rewrite string_app_assoc. by apply simple_IsAbs.
Qed.

Lemma rel_nonempty segs :
  Forall (λ s, simple s = true) segs → segs ≠ [] → Strings.Join segs "/" ≠ "".
Proof.
  intros H Hne Heq. apply (f_equal elements) in Heq.
  rewrite elements_join, elements_empty in Heq by done. done.
Qed.

(** Joining a rooted path and a relative one. *)
Lemma Join_abs_rel a b :
  Forall (λ s, simple s = true) a → Forall (λ s, simple s = true) b →
  Filepath.Join [abs_path a; Strings.Join b "/"] = abs_path (a ++ b).
Proof.
  intros Ha Hb. rewrite Join_nonempty_l by done.
  rewrite Clean_elements.
  - rewrite IsAbs_abs_app, elements_app, elements_abs, elements_join by done. done.
  - done.
  - apply parts_app; [by apply parts_abs|by apply parts_join].
Qed.

Lemma Join_abs_name a s :
  Forall (λ s, simple s = true) a → simple s = true →
  Filepath.Join [abs_path a; s] = abs_path (a ++ [s]).
Proof.
  intros Ha Hs. apply (Join_abs_rel a [s]); [done|]. by constructor.
Qed.

(** Joining two relative paths. *)
Lemma Join_rel_rel a b :
  Forall (λ s, simple s = true) a → Forall (λ s, simple s = true) b → a ≠ [] →
  Filepath.Join [Strings.Join a "/"; Strings.Join b "/"] = Strings.Join (a ++ b) "/".
Proof.
  intros Ha Hb Hne. rewrite Join_nonempty_l by by apply rel_nonempty.
  rewrite Clean_elements.
  - rewrite rel_IsAbs, elements_app, !elements_join by done.
    destruct a; [done|]. done.
  - destruct a as [|s a]; [done|]. apply Forall_cons in Ha as [Hs _].
    pose proof (simple_nonempty _ Hs). destruct s; [done|].
    by destruct a.
  - apply parts_app; by apply parts_join.
Qed.

(** [filepath.Abs] of a relative path. *)
Lemma Abs_rel a b :
  Forall (λ s, simple s = true) a → Forall (λ s, simple s = true) b → b ≠ [] →
  Abs (abs_path a) (Strings.Join b "/") = abs_path (a ++ b).
Proof.
  intros Ha Hb Hne. unfold Abs.
  rewrite <-(string_app_nil_r (Strings.Join b "/")) at 1.
  rewrite rel_IsAbs by done. by apply Join_abs_rel.
Qed.

Lemma Abs_abs wd a :
  Forall (λ s, simple s = true) a → Abs wd (abs_path a) = abs_path a.
Proof. intros Ha. unfold Abs. rewrite IsAbs_abs. by apply Clean_abs. Qed.

Lemma strip_common_app a b : strip_common a (a ++ b) = ([], b).
Proof.
  induction a as [|x a IH]; [by destruct b|]. simpl. by rewrite String.eqb_refl.
Qed.

Lemma abs_path_inj a b :
  Forall (λ s, simple s = true) a → Forall (λ s, simple s = true) b →
  abs_path a = abs_path b → a = b.
Proof.
  intros Ha Hb Heq. apply (f_equal elements) in Heq.
  by rewrite !elements_abs in Heq.
Qed.

(** The path from a directory to an entry below it. *)
Lemma Rel_abs a b :
  Forall (λ s, simple s = true) a → Forall (λ s, simple s = true) b → b ≠ [] →
  Rel (abs_path a) (abs_path (a ++ b)) = (Strings.Join b "/", false).
Proof.
  intros Ha Hb Hne. unfold Rel.
  assert (Forall (λ s, simple s = true) (a ++ b)) as Hab by by apply Forall_app.
  rewrite !Clean_abs by done.
  destruct (String.eqb_spec (abs_path (a ++ b)) (abs_path a)) as [Heq|_].
  { apply abs_path_inj in Heq; [|done..].
    apply (f_equal length) in Heq. rewrite List.length_app in Heq.
    destruct b; [done|]. simpl in Heq. lia. }
  destruct (String.eqb_spec (abs_path a) ".") as [Heq|_]; [done|].
  rewrite !IsAbs_abs. simpl. rewrite !elements_abs by done.
  by rewrite strip_common_app.
Qed.

Lemma split_on_abs_snoc a s :
  Forall (λ s, simple s = true) a → simple s = true →
  split_on Separator (abs_path (a ++ [s])) = "" :: a ++ [s].
Proof.
  intros Ha Hs. unfold abs_path. change ("/" +:+ ?t) with (String Separator t).
  rewrite split_on_cons, Ascii.eqb_refl. f_equal.
  assert (Forall (λ s, simple s = true) (a ++ [s])) as H.
  { apply Forall_app. split; [done|]. by constructor. }
  assert (a ++ [s] ≠ []) as Hne by by destruct a.
  revert H Hne. generalize (a ++ [s]). clear.
  intros l H. induction H as [|x l Hx Hl IH]; [done|]. intros _.
  destruct l as [|y l].
  - simpl. by apply split_on_lacks, simple_lacks.
  - change (Strings.Join (x :: y :: l) "/")
      with (x +:+ String Separator (Strings.Join (y :: l) "/")).
    rewrite split_on_app, IH by done.
    by rewrite split_on_lacks by by apply simple_lacks.
Qed.

Lemma Join_strings_abs a :
  Strings.Join ("" :: a) "/" +:+ "/" =
  match a with [] => "/" | _ => abs_path a +:+ "/" end.
Proof. by destruct a. Qed.

Lemma Dir_abs a s :
  Forall (λ s, simple s = true) a → simple s = true →
  Dir (abs_path (a ++ [s])) = abs_path a.
Proof.
  intros Ha Hs. unfold Dir. rewrite split_on_abs_snoc by done.
  change ("" :: a ++ [s]) with (("" :: a) ++ [s]).
  rewrite rev_app_distr.
  change (rev [s] ++ rev ("" :: a)) with (s :: rev ("" :: a)). cbv iota beta.
  rewrite rev_involutive, IsAbs_abs, Join_strings_abs.
  destruct a as [|x a]; [done|].
  change (abs_path (x :: a) +:+ "/") with (abs_path (x :: a) +:+ "/" +:+ "").
  rewrite Clean_elements.
  - by rewrite IsAbs_abs_app, elements_app, elements_abs, elements_empty, app_nil_r.
  - done.
  - apply parts_app; [by apply parts_abs|apply parts_empty].
Qed.

Lemma Base_abs a s :
  Forall (λ s, simple s = true) a → simple s = true →
  Base (abs_path (a ++ [s])) = s.
Proof.
  intros Ha Hs. unfold Base.
  destruct (String.eqb_spec (abs_path (a ++ [s])) ""); [done|].
  rewrite elements_abs, rev_app_distr; [done|].
  apply Forall_app. split; [done|]. by constructor.
Qed.

End PathAlgebra.


(** ** The guard of the self-contained copy *)
Section Guard.
Import Strings Filepath Project.

Lemma Join_strings_app a b :
  a ≠ [] → b ≠ [] →
  Strings.Join (a ++ b) "/" = Strings.Join a "/" +:+ "/" +:+ Strings.Join b "/".
Proof.
  intros Ha Hb. induction a as [|x a IH]; [done|].
  destruct a as [|y a].
  - destruct b; [done|]. done.
  - change (Strings.Join ((x :: y :: a) ++ b) "/")
      with (x +:+ "/" +:+ Strings.Join ((y :: a) ++ b) "/").
    rewrite IH by done.
    change (Strings.Join (x :: y :: a) "/")
      with (x +:+ "/" +:+ Strings.Join (y :: a) "/").
    by rewrite !string_app_assoc.
Qed.

Lemma Rel_abs_self a :
  Forall (λ s, simple s = true) a → Rel (abs_path a) (abs_path a) = (".", false).
Proof. intros Ha. unfold Rel. by rewrite String.eqb_refl. Qed.

Lemma Rel_abs_below a b :
  Forall (λ s, simple s = true) a → Forall (λ s, simple s = true) b →
  Rel (abs_path a) (abs_path (a ++ b)) =
  (match b with [] => "." | _ => Strings.Join b "/" end, false).
Proof.
  intros Ha Hb. destruct b as [|x b].
  - rewrite app_nil_r. by apply Rel_abs_self.
  - by apply Rel_abs.
Qed.

Lemma Rel_abs_relative a b :
  Forall (λ s, simple s = true) a → Forall (λ s, simple s = true) b → b ≠ [] →
  Rel (abs_path a) (Strings.Join b "/") = ("", true).
Proof.
  intros Ha Hb Hne. unfold Rel. rewrite Clean_abs by done.
  assert (Clean (Strings.Join b "/") = Strings.Join b "/") as ->.
  { rewrite Clean_elements; [|by apply rel_nonempty|by apply parts_join].
    rewrite <-(string_app_nil_r (Strings.Join b "/")) at 1.
    rewrite rel_IsAbs, elements_join by done. by destruct b. }
  destruct (String.eqb_spec (Strings.Join b "/") (abs_path a)) as [Heq|_].
  { apply (f_equal IsAbs) in Heq. rewrite IsAbs_abs in Heq.
    rewrite <-(string_app_nil_r (Strings.Join b "/")) in Heq.
    by rewrite rel_IsAbs in Heq. }
  destruct (String.eqb_spec (abs_path a) ".") as [Heq|_]; [done|].
  rewrite IsAbs_abs.
  rewrite <-(string_app_nil_r (Strings.Join b "/")) at 1.
  by rewrite rel_IsAbs.
Qed.

(** With the template and the destination given by absolute paths, the
    guard answers for every entry at or under the destination. *)
Lemma isTargetOrChild_absolute source target below :
  Forall (λ s, simple s = true) source → Forall (λ s, simple s = true) target →
  Forall (λ s, simple s = true) below → target ≠ [] →
  isTargetOrChild (abs_path (source ++ target ++ below)) (abs_path source)
                  (abs_path (source ++ target)) = true.
Proof.
  intros Hs Ht Hb Hne. unfold isTargetOrChild.
  rewrite (Rel_abs source (target ++ below)), (Rel_abs source target);
    [|done|done|done|done|by apply Forall_app|by destruct target].
  destruct below as [|x below].
  - by rewrite app_nil_r, String.eqb_refl.
  - rewrite Join_strings_app, !string_app_assoc by done.
    rewrite <-(string_app_assoc (Strings.Join target "/") SeparatorString).
    change SeparatorString with "/".
    rewrite <-(string_app_assoc (Strings.Join target "/") "/").
    by rewrite HasPrefix_app, orb_true_r.
Qed.

(** With the destination given by a relative path, the guard answers for
    no entry of the template. *)
Lemma isTargetOrChild_relative source entry target :
  Forall (λ s, simple s = true) source → Forall (λ s, simple s = true) entry →
  Forall (λ s, simple s = true) target → target ≠ [] →
  isTargetOrChild (abs_path (source ++ entry)) (abs_path source)
                  (Strings.Join target "/") = false.
Proof.
  intros Hs He Ht Hne. unfold isTargetOrChild.
  rewrite Rel_abs_below, Rel_abs_relative by done.
  change ("" +:+ SeparatorString) with "/".
  destruct entry as [|x entry]; [done|].
  apply orb_false_iff. split.
  - apply String.eqb_neq. by apply rel_nonempty.
  - by apply (rel_IsAbs (x :: entry)).
Qed.
End Guard.

(** ** The walk of the kernel along a name *)
Section NameWalk.
Import Strings Filepath OS.

Lemma simple_not_dots e :
  simple e = true →
  (String.eqb e "" || String.eqb e ".") = false ∧ String.eqb e ".." = false.
Proof.
  unfold simple. intros H.
  apply andb_true_iff in H as [[[Hn _]%andb_true_iff Hd%negb_true_iff]%andb_true_iff
                               Hdd%negb_true_iff].
  split; [|done]. rewrite Hd, orb_false_r. by destruct e.
Qed.

Lemma split_on_join segs :
  Forall (λ s, simple s = true) segs → segs ≠ [] →
  split_on Separator (Strings.Join segs "/") = segs.
Proof.
  intros H. induction H as [|x l Hx Hl IH]; [done|]. intros _.
  destruct l as [|y l].
  - simpl. by apply split_on_lacks, simple_lacks.
  - change (Strings.Join (x :: y :: l) "/")
      with (x +:+ String Separator (Strings.Join (y :: l) "/")).
    rewrite split_on_app, IH by done.
    by rewrite split_on_lacks by by apply simple_lacks.
Qed.

(** A name made of plain elements starts with a character that is not
    the slash. *)
Lemma join_head segs :
  Forall (λ s, simple s = true) segs → segs ≠ [] →
  ∃ c rest, Strings.Join segs "/" = String c rest ∧ Ascii.eqb c "/" = false.
Proof.
  intros H Hne. destruct H as [|x l Hx Hl]; [done|].
  pose proof (simple_lacks _ Hx) as Hlack. pose proof (simple_nonempty _ Hx) as Hn.
  destruct x as [|c x]; [done|]. rewrite lacks_cons in Hlack.
  apply andb_true_iff in Hlack as [Hc%negb_true_iff _].
  destruct l as [|y l].
  - by exists c, x.
  - exists c, (x +:+ "/" +:+ Strings.Join (y :: l) "/"). done.
Qed.

(** Along plain elements the walk goes down only, and ends. *)
Lemma namei_simple fs cur elems below :
  Forall (λ s, simple s = true) elems →
  ∃ below', namei fs cur elems below = Reached below'.
Proof.
  intros H. revert cur below.
  induction H as [|e elems He Helems IH]; intros cur below; [by eexists|].
  cbn [namei]. destruct (simple_not_dots e He) as [-> ->]. apply IH.
Qed.

Lemma walk_name_abs w a :
  Forall (λ s, simple s = true) a → a ≠ [] →
  ∃ below, walk_name w (abs_path a) = Reached below.
Proof.
  intros Ha Hne. unfold abs_path. change ("/" +:+ ?t) with (String "/" t).
  cbn [walk_name]. rewrite Ascii.eqb_refl, split_on_join by done.
  by apply namei_simple.
Qed.

Lemma walk_name_rel w a :
  Forall (λ s, simple s = true) a → a ≠ [] →
  ∃ below, walk_name w (Strings.Join a "/") = Reached below.
Proof.
  intros Ha Hne. pose proof (split_on_join a Ha Hne) as Hsplit.
  unfold Separator in Hsplit.
  destruct (join_head a Ha Hne) as (c & rest & Heq & Hc). rewrite Heq in *.
  cbn [walk_name]. rewrite Hc, Hsplit. by apply namei_simple.
Qed.

(** [os.Stat] on a cleaned absolute name is the look-up of the name. *)
Lemma Stat_abs a w :
  Forall (λ s, simple s = true) a → a ≠ [] →
  ∃ below,
    Stat (abs_path a) w =
    (match fsys w !! abs_path a with
     | Some n => (Some (info_of (abs_path a) n), None)
     | None => (None, Some (missing (abs_path a) below))
     end, w).
Proof.
  intros Ha Hne. unfold Stat, resolve.
  destruct (walk_name_abs w a Ha Hne) as [below ->]. exists below.
  rewrite Abs_abs by done. by destruct (fsys w !! abs_path a).
Qed.

(** What [os.Stat] has found is the entry at the cleaned name. *)
Lemma Stat_Some name w fi e w' :
  Stat name w = ((Some fi, e), w') →
  ∃ n, fsys w !! resolve w name = Some n ∧ fi = info_of name n ∧ e = None ∧ w' = w.
Proof.
  unfold Stat. destruct (walk_name w name); [|done..].
  destruct (fsys w !! resolve w name) as [n|]; [|done].
  intros [= <- <- <-]. by exists n.
Qed.

(** [os.Stat] finds the entry at the cleaned name, or fails with an
    error of its own. *)
Lemma Stat_outcome name w :
  (∃ n, fsys w !! resolve w name = Some n ∧
        Stat name w = ((Some (info_of name n), None), w)) ∨
  (∃ err, Stat name w = ((None, Some err), w) ∧ err ≠ SkipDir).
Proof.
  unfold Stat. destruct (walk_name w name) as [below| |].
  - destruct (fsys w !! resolve w name) as [n|]; [left; by exists n|].
    right. eexists. split; [done|]. by destruct below.
  - right. by eexists.
  - right. by eexists.
Qed.

Lemma mkdir_from_simple name parent e rest perm (fs : gmap string node) :
  simple e = true →
  mkdir_from name parent (e :: rest) perm fs =
  match fs !! Filepath.Join [parent; e] with
  | Some (Directory _) => mkdir_from name (Filepath.Join [parent; e]) rest perm fs
  | Some (Regular _ _) => (Some (ErrNotDir "mkdir" name), fs)
  | None => mkdir_from name (Filepath.Join [parent; e]) rest perm
                       (<[Filepath.Join [parent; e] := Directory perm]> fs)
  end.
Proof. intros He. cbn [mkdir_from]. by destruct (simple_not_dots e He) as [-> ->]. Qed.

(** [os.MkdirAll] on a cleaned name goes down from the root, or from the
    working directory. *)
Lemma MkdirAll_abs a perm w :
  Forall (λ s, simple s = true) a →
  MkdirAll (abs_path a) perm w =
  (let '(err, fs') := mkdir_from (abs_path a) "/" a perm (fsys w) in
   (err, World fs' (cwd w) (visited w))).
Proof.
  intros Ha. destruct a as [|x a]; [done|].
  unfold abs_path. change ("/" +:+ ?t) with (String "/" t).
  cbn [MkdirAll]. by rewrite Ascii.eqb_refl, split_on_join.
Qed.

Lemma MkdirAll_rel a perm w :
  Forall (λ s, simple s = true) a → a ≠ [] →
  MkdirAll (Strings.Join a "/") perm w =
  (let '(err, fs') := mkdir_from (Strings.Join a "/") (cwd w) a perm (fsys w) in
   (err, World fs' (cwd w) (visited w))).
Proof.
  intros Ha Hne. pose proof (split_on_join a Ha Hne) as Hsplit.
  unfold Separator in Hsplit.
  destruct (join_head a Ha Hne) as (c & rest & Heq & Hc). rewrite Heq in *.
  cbn [MkdirAll]. by rewrite Hc, Hsplit.
Qed.
End NameWalk.

(** ** A walk into its own output *)
Section Descent.
Import Strings Filepath OS Walk Project.

Lemma seg_simple n : simple (seg n) = true.
Proof. unfold seg. by destruct (Nat.even n). Qed.

Lemma segs_simple i k : Forall (λ s, simple s = true) (segs_from i k).
Proof. apply Forall_fmap, Forall_forall. intros j _. apply seg_simple. Qed.

Lemma segs_from_S i k : segs_from i (S k) = segs_from i k ++ [seg (i + k)].
Proof. unfold segs_from. by rewrite seq_S, fmap_app. Qed.

Lemma seg_shift n : seg (S (S n)) = seg n.
Proof. done. Qed.

Lemma segs_from_shift i k : segs_from (S (S i)) k = segs_from i k.
Proof.
  unfold segs_from. revert i. induction k as [|k IH]; intros i; [done|].
  simpl. by rewrite IH.
Qed.

Lemma segs_from_two k : "x" :: "demo" :: segs_from 0 k = segs_from 0 (S (S k)).
Proof.
  change (segs_from 0 (S (S k))) with ("x" :: "demo" :: segs_from 2 k).
  by rewrite segs_from_shift.
Qed.

Lemma tmpl_simple : Forall (λ s, simple s = true) ["tmpl"].
Proof. by constructor. Qed.

Lemma below_tmpl_simple k : Forall (λ s, simple s = true) ("tmpl" :: segs_from 0 k).
Proof. constructor; [done|apply segs_simple]. Qed.

Lemma nested_S n :
  nested (S n) = abs_path (("tmpl" :: segs_from 0 (S n)) ++ [seg (S n)]).
Proof. unfold nested. by rewrite (segs_from_S 0 (S n)). Qed.

Lemma nested_inj i j : nested i = nested j → i = j.
Proof.
  intros H. apply abs_path_inj in H; [|apply below_tmpl_simple..].
  apply (f_equal length) in H. unfold segs_from in H.
  rewrite !length_cons, !length_fmap, !length_seq in H. lia.
Qed.

Lemma nested_not_base n : nested n ≠ "/tmpl" ∧ nested n ≠ "/".
Proof.
  split; intros H.
  - apply (abs_path_inj _ ["tmpl"]) in H; [done|apply below_tmpl_simple|apply tmpl_simple].
  - by apply (abs_path_inj _ []) in H; [|apply below_tmpl_simple|].
Qed.

Lemma chain_lookup m j :
  chain m !! nested j = if decide (j ≤ m) then Some (Directory 493) else None.
Proof.
  induction m as [|m IH]; simpl.
  - destruct (decide (j = 0)) as [->|Hj].
    + by rewrite lookup_insert_eq.
    + rewrite lookup_insert_ne by (intros H; by apply nested_inj in H).
      destruct (nested_not_base j) as [H1 H2].
      rewrite !lookup_insert_ne by done. rewrite lookup_empty.
      destruct (decide (j ≤ 0)); [lia|done].
  - destruct (decide (j = S m)) as [->|Hj].
    + rewrite lookup_insert_eq. destruct (decide (S m ≤ S m)); [done|lia].
    + rewrite lookup_insert_ne by (intros H; by apply nested_inj in H).
      rewrite IH. repeat case_decide; (done || lia).
Qed.

Lemma chain_lookup_tmpl m : chain m !! "/tmpl" = Some (Directory 493).
Proof.
  induction m as [|m IH]; simpl.
  - destruct (nested_not_base 0) as [H1 H2]. by rewrite lookup_insert_ne.
  - destruct (nested_not_base (S m)) as [H1 H2]. by rewrite lookup_insert_ne.
Qed.

Lemma chain_keys m k :
  is_Some (chain m !! k) → k = "/" ∨ k = "/tmpl" ∨ ∃ j, j ≤ m ∧ k = nested j.
Proof.
  induction m as [|m IH]; simpl.
  - rewrite !lookup_insert_is_Some, lookup_empty.
    intros [<-|[_ [<-|[_ [<-|[_ [? ?]]]]]]]; try done; eauto.
  - rewrite lookup_insert_is_Some. intros [<-|[_ H]]; [eauto 6|].
    destruct (IH H) as [?|[?|(j & ? & ?)]]; eauto 6.
Qed.

Lemma Dir_nested_S n : Dir (nested (S n)) = nested n.
Proof.
  rewrite nested_S, Dir_abs; [done|apply below_tmpl_simple|apply seg_simple].
Qed.

Lemma Dir_nested_0 : Dir (nested 0) = "/tmpl".
Proof. done. Qed.

Lemma Base_nested n : Base (nested n) = seg n.
Proof.
  destruct n as [|n]; [done|].
  rewrite nested_S, Base_abs; [done|apply below_tmpl_simple|apply seg_simple].
Qed.

Lemma resolve_nested fs v n : resolve (World fs "/tmpl" v) (nested n) = nested n.
Proof. apply Abs_abs, below_tmpl_simple. Qed.

(** A list without repetition all of whose members are [a]. *)
Lemma NoDup_all_eq {A} (l : list A) a :
  NoDup l → (∀ x, x ∈ l → x = a) → a ∈ l → l = [a].
Proof.
  intros Hnd Hall Hin. destruct l as [|x l]; [by apply elem_of_nil in Hin|].
  rewrite (Hall x) by by left. f_equal.
  destruct l as [|y l]; [done|]. apply NoDup_cons in Hnd as [Hx _].
  exfalso. apply Hx. rewrite (Hall x), (Hall y); [by left|by right; left|by left].
Qed.

Lemma NoDup_filter_bool {A} (f : A → bool) (l : list A) :
  NoDup l → NoDup (List.filter f l).
Proof.
  induction 1 as [|x l Hx Hl IH]; [constructor|]. simpl.
  destruct (f x); [|done]. constructor; [|done].
  intros Hin. apply Hx. apply list_elem_of_In, List.filter_In in Hin as [Hin _].
  by apply list_elem_of_In.
Qed.

(** The one entry of [nested n] is [nested (S n)]. *)
Lemma readDirNames_nested n v :
  readDirNames (nested n) (World (chain (S n)) "/tmpl" v) =
  (([seg (S n)], None), World (chain (S n)) "/tmpl" v).
Proof.
  unfold readDirNames. rewrite resolve_nested. cbn [fsys].
  rewrite chain_lookup. destruct (decide (n ≤ S n)); [|lia].
  match goal with
  | |- context [List.filter ?f ?l] =>
      assert (List.filter f l = [nested (S n)]) as ->
  end.
  { apply NoDup_all_eq.
    - apply NoDup_filter_bool, NoDup_fst_map_to_list.
    - intros k Hk. apply list_elem_of_In, List.filter_In in Hk as [Hk Hp].
      apply list_elem_of_In, list_elem_of_fmap in Hk as ([k' nd] & Heq & Hk).
      cbn [fst] in Heq. subst k. apply elem_of_map_to_list in Hk.
      apply andb_true_iff in Hp as [Hd Hne].
      apply String.eqb_eq in Hd.
      destruct (chain_keys (S n) k') as [->|[->|(j & Hj & ->)]]; [by eexists| | |].
      + destruct (nested_not_base n) as [_ H]. by rewrite <-Hd in H.
      + destruct (nested_not_base n) as [_ H]. by rewrite <-Hd in H.
      + destruct j as [|j].
        * destruct (nested_not_base n) as [H _]. by rewrite <-Hd in H.
        * rewrite Dir_nested_S in Hd. apply nested_inj in Hd. by subst j.
    - apply list_elem_of_In, List.filter_In. split.
      + apply list_elem_of_In, list_elem_of_fmap.
        exists (nested (S n), Directory 493). split; [done|].
        apply elem_of_map_to_list. rewrite chain_lookup.
        destruct (decide (S n ≤ S n)); [done|lia].
      + rewrite Dir_nested_S, String.eqb_refl. cbn [andb].
        apply negb_true_iff, String.eqb_neq. intros H. apply nested_inj in H. lia. }
  simpl. by rewrite Base_nested.
Qed.

Lemma rel_head k : ∃ t, Strings.Join (segs_from 0 (S k)) "/" = String "x" t.
Proof.
  change (segs_from 0 (S k)) with ("x" :: segs_from 1 k).
  destruct (segs_from 1 k); by eexists.
Qed.

Lemma Rel_tmpl_nested n :
  Rel "/tmpl" (nested n) = (Strings.Join (segs_from 0 (S n)) "/", false).
Proof.
  apply (Rel_abs ["tmpl"] (segs_from 0 (S n))); [apply tmpl_simple|apply segs_simple|done].
Qed.

Lemma shouldSkipDir_seg n : shouldSkipDir (seg n) = false.
Proof. unfold seg. by destruct (Nat.even n). Qed.

(** The classifier lets every directory of the descent through. *)
Lemma shouldSkipEntry_nested n :
  shouldSkipEntry (dir_info (seg n)) (nested n) "/tmpl" "x/demo" "/tmpl" true []
  = (false, false).
Proof.
  unfold shouldSkipEntry, isTargetOrChild. cbn [IsDir Name dir_info].
  rewrite shouldSkipDir_seg, Rel_tmpl_nested.
  destruct (rel_head n) as [t ->]. done.
Qed.

Lemma joinDest_nested n :
  joinDest "x/demo" "/tmpl" (nested n) = Strings.Join (segs_from 0 (S (S (S n)))) "/".
Proof.
  unfold joinDest. rewrite Rel_tmpl_nested.
  rewrite <-segs_from_two.
  apply (Join_rel_rel ["x"; "demo"] (segs_from 0 (S n))); [|apply segs_simple|done].
  by repeat constructor.
Qed.

Lemma resolve_dest fs v n :
  resolve (World fs "/tmpl" v) (Strings.Join (segs_from 0 (S n)) "/") = nested n.
Proof.
  apply (Abs_rel ["tmpl"] (segs_from 0 (S n))); [apply tmpl_simple|apply segs_simple|done].
Qed.

(** [MkdirAll] of the directory two levels down finds all but the last
    of its parents. *)
Lemma mkdir_from_nested name n k i :
  i + k = S (S (S n)) →
  mkdir_from name (abs_path ("tmpl" :: segs_from 0 i)) (segs_from i k) 493
             (if decide (i ≤ S (S n)) then chain (S n) else chain (S (S n)))
  = (None, chain (S (S n))).
Proof.
  revert i. induction k as [|k IH]; intros i Hik.
  - simpl. destruct (decide (i ≤ S (S n))); [lia|done].
  - change (segs_from i (S k)) with (seg i :: segs_from (S i) k).
    rewrite mkdir_from_simple by apply seg_simple.
    rewrite Join_abs_name by (apply below_tmpl_simple || apply seg_simple).
    assert (("tmpl" :: segs_from 0 i) ++ [seg i] = "tmpl" :: segs_from 0 (S i)) as ->.
    { by rewrite (segs_from_S 0 i). }
    fold (nested i). destruct (decide (i ≤ S (S n))); [|lia].
    rewrite chain_lookup. destruct (decide (i ≤ S n)).
    + specialize (IH (S i)). destruct (decide (S i ≤ S (S n))); [|lia].
      apply IH. lia.
    + assert (i = S (S n)) as -> by lia.
      specialize (IH (S (S (S n)))).
      destruct (decide (S (S (S n)) ≤ S (S n))); [lia|].
      apply IH. lia.
Qed.

Lemma MkdirAll_dest n v :
  MkdirAll (Strings.Join (segs_from 0 (S (S (S n)))) "/") 493
           (World (chain (S n)) "/tmpl" v)
  = (None, World (chain (S (S n))) "/tmpl" v).
Proof.
  rewrite MkdirAll_rel by (apply segs_simple || done).
  cbn [fsys cwd visited].
  pose proof (mkdir_from_nested
                (Strings.Join (segs_from 0 (S (S (S n)))) "/") n (S (S (S n))) 0 eq_refl) as H.
  destruct (decide (0 ≤ S (S n))); [|lia].
  change (abs_path ("tmpl" :: segs_from 0 0)) with "/tmpl" in H.
  by rewrite H.
Qed.
End Descent.


Section Divergence.
Import Strings Filepath OS Walk Project.
Variable range : gmap string string → list (string * string).
Variables projectName author : string.
Variable extraVars : gmap string string.

Let fn : WalkFunc unit :=
  walker range "/tmpl" "x/demo" "/tmpl" true projectName author extraVars [].

Lemma walk_S {L} fuel (f : WalkFunc L) path info l w :
  walk (S fuel) f path info l w =
  if negb (IsDir info) then Some (call f path (Some info) None l w)
  else
    let '((names, err), w) := readDirNames path w in
    let '((err1, l), w) := call f path (Some info) err l w in
    if negb (is_nil err) || negb (is_nil err1) then Some (err1, l, w)
    else walk_names (walk fuel f) f path names l w.
Proof. done. Qed.

Lemma walk_names_one {L}
    (rec : string → FileInfo → L → world → option (option error * L * world))
    (f : WalkFunc L) path name fi l w :
  Lstat (Filepath.Join [path; name]) w = ((Some fi, None), w) →
  rec (Filepath.Join [path; name]) fi l w = None →
  walk_names rec f path [name] l w = None.
Proof. intros Hl Hr. cbn [walk_names]. by rewrite Hl, Hr. Qed.

Lemma Lstat_nested m j v :
  j ≤ m →
  Lstat (nested j) (World (chain m) "/tmpl" v) =
  ((Some (dir_info (seg j)), None), World (chain m) "/tmpl" v).
Proof.
  intros Hj. unfold Lstat, nested.
  destruct (Stat_abs ("tmpl" :: segs_from 0 (S j)) (World (chain m) "/tmpl" v))
    as [below ->]; [apply below_tmpl_simple|done|].
  fold (nested j). cbn [fsys].
  rewrite chain_lookup. destruct (decide (j ≤ m)); [|lia].
  unfold info_of, dir_info. by rewrite Base_nested.
Qed.

(** On a directory of the descent the walk function makes the directory
    two levels further down. *)
Lemma call_nested n v :
  call fn (nested n) (Some (dir_info (seg n))) None tt
       (World (chain (S n)) "/tmpl" v)
  = ((None, tt), World (chain (S (S n))) "/tmpl" (nested n :: v)).
Proof.
  unfold call, mbind, M_bind, log_visit, fn, walker. cbn [default fsys cwd visited].
  unfold id. rewrite shouldSkipEntry_nested, joinDest_nested.
  cbn [IsDir Mode dir_info]. unfold ensureDir, mbind, M_bind.
  by rewrite MkdirAll_dest.
Qed.

Lemma Join_nested n : Filepath.Join [nested n; seg (S n)] = nested (S n).
Proof.
  unfold nested at 1. rewrite Join_abs_name; [|apply below_tmpl_simple|apply seg_simple].
  by rewrite nested_S.
Qed.

(** Every directory of the descent holds the next one when the walk
    comes to it: the walk does not come back, whatever the fuel. *)
Lemma descent fuel n v :
  walk fuel fn (nested n) (dir_info (seg n)) tt (World (chain (S n)) "/tmpl" v)
  = None.
Proof.
  revert n v. induction fuel as [|fuel IH]; intros n v; [done|].
  rewrite walk_S. cbn [IsDir dir_info negb].
  rewrite readDirNames_nested, call_nested. cbn [is_nil negb orb].
  apply (walk_names_one _ _ _ _ (dir_info (seg (S n)))).
  - rewrite Join_nested. apply Lstat_nested. lia.
  - rewrite Join_nested. apply IH.
Qed.

(** `foundry new demo --path x` run inside the template /tmpl, which
    holds the directory x: the destination x/demo is relative, the guard
    does not see it, and the walk follows the directories it makes
    itself, one inside the other, without end (the model puts no bound
    on the length of a path). *)
Theorem relative_destination_never_ends fuel :
  CreateFromTemplate range fuel (template_at "/tmpl") projectName "x/demo"
                     author extraVars deep_world = None.
Proof.
  destruct fuel as [|fuel]; [vm_compute; reflexivity|].
  unfold CreateFromTemplate.
  assert (ensureTargetDir "x/demo" deep_world = (None, World (chain 1) "/tmpl" []))
    as -> by (vm_compute; reflexivity).
  assert (resolvePaths "x/demo" (Path (template_at "/tmpl"))
                       (World (chain 1) "/tmpl" [])
          = (("/tmpl/x/demo", "/tmpl", None), World (chain 1) "/tmpl" []))
    as -> by (vm_compute; reflexivity).
  assert (isTargetInsideSource "/tmpl" "/tmpl/x/demo" = true)
    as -> by (vm_compute; reflexivity).
  assert (Utils.LoadIgnorePatterns "/tmpl" ".foundryignore"
                                   (World (chain 1) "/tmpl" [])
          = ([], World (chain 1) "/tmpl" []))
    as -> by (vm_compute; reflexivity).
  unfold copyTree, Walk. cbn [Path template_at].
  assert (Lstat "/tmpl" (World (chain 1) "/tmpl" [])
          = ((Some (dir_info "tmpl"), None), World (chain 1) "/tmpl" []))
    as -> by (vm_compute; reflexivity).
  rewrite walk_S. cbn [IsDir dir_info negb].
  assert (readDirNames "/tmpl" (World (chain 1) "/tmpl" [])
          = ((["x"], None), World (chain 1) "/tmpl" []))
    as -> by (vm_compute; reflexivity).
  fold fn.
  assert (call fn "/tmpl" (Some (dir_info "tmpl")) None tt
               (World (chain 1) "/tmpl" [])
          = ((None, tt), World (chain 1) "/tmpl" ["/tmpl"]))
    as -> by (vm_compute; reflexivity).
  cbn [is_nil negb orb].
  rewrite (walk_names_one _ _ _ _ (dir_info (seg 0))); [done| |].
  - change (Filepath.Join ["/tmpl"; "x"]) with (nested 0). apply Lstat_nested. lia.
  - change (Filepath.Join ["/tmpl"; "x"]) with (nested 0). apply descent.
Qed.
End Divergence.


(** ** Where the code departs from the stated behaviour *)

(** C1, at a template whose ignore file holds the line ".*": the pattern
    matches the root ".", which the preview tests against the patterns
    before it tests for the root, so the preview prunes the whole walk
    and plans no path, while the copy, which tests for the root first,
    goes on and writes README.md. *)
Theorem preview_misses_what_create_writes
    (range : gmap string string → list (string * string))
    (projectName author : string) (extraVars : gmap string string)
    (fuel : nat) :
  (∃ summary w1,
      Project.PreviewFromTemplate (S (S fuel)) (template_at "/tmpl") projectName
        "/out/demo" author extraVars dotfiles_world
      = Some (Some summary, None, w1) ∧
      Project.Files summary = [] ∧
      OS.visited w1 = ["/tmpl"]) ∧
  (∃ w2,
      Project.CreateFromTemplate range (S (S fuel)) (template_at "/tmpl")
        projectName "/out/demo" author extraVars dotfiles_world
      = Some (None, w2) ∧
      created dotfiles_world w2 = ["/out/demo"; "/out/demo/README.md"] ∧
      OS.visited w2 = ["/tmpl/README.md"; "/tmpl/.foundryignore"; "/tmpl"]).
Proof.
  split.
  - set (r := Project.PreviewFromTemplate _ _ _ _ _ _ _).
    assert (match r with
            | Some (Some summary, None, w1) =>
                Some (Project.Files summary, OS.visited w1)
            | _ => None
            end = Some ([], ["/tmpl"])) as Hr.
    { vm_compute. reflexivity. }
    destruct r as [[[[summary|] [e|]] w1]|]; try discriminate Hr.
    injection Hr as Hf Hv. by exists summary, w1.
  - set (r := Project.CreateFromTemplate _ _ _ _ _ _ _ _).
    assert (match r with
            | Some (None, w2) => Some (created dotfiles_world w2, OS.visited w2)
            | _ => None
            end = Some (["/out/demo"; "/out/demo/README.md"],
                        ["/tmpl/README.md"; "/tmpl/.foundryignore"; "/tmpl"])) as Hr.
    { vm_compute. reflexivity. }
    destruct r as [[[e|] w2]|]; try discriminate Hr.
    injection Hr as Hc Hv. by exists w2.
Qed.

(** C2, at a destination given by a path relative to the working
    directory: `foundry new demo` run inside the template /tmpl. The
    resolved destination /tmpl/demo lies inside the template, but the
    guard compares the entries with the unresolved "demo", which has no
    path relative to /tmpl, and so lets the destination through: the
    walk calls its function on /tmpl/demo and on the copy in it, and
    copies both into the destination. *)
Theorem relative_destination_is_copied (fuel : nat) :
  Project.isTargetInsideSource "/tmpl" (OS.resolve inside_world "demo") = true ∧
  Project.isTargetOrChild "/tmpl/demo" "/tmpl" "demo" = false ∧
  ∃ w',
    Cmd.Run_template map_to_list (S (S (S fuel))) (template_at "/tmpl") "demo" ""
                     [] false "Ada" inside_world
    = Some (Cmd.Created, w') ∧
    OS.visited w' = ["/tmpl/demo/a.txt"; "/tmpl/demo"; "/tmpl/a.txt"; "/tmpl"] ∧
    created inside_world w' =
      ["/tmpl/demo"; "/tmpl/demo/a.txt"; "/tmpl/demo/demo"; "/tmpl/demo/demo/a.txt"].
Proof.
  split; [vm_compute; reflexivity|]. split; [vm_compute; reflexivity|].
  set (r := Cmd.Run_template _ _ _ _ _ _ _ _ _).
  assert (match r with
          | Some (Cmd.Created, w') =>
              Some (OS.visited w', created inside_world w')
          | _ => None
          end
          = Some (["/tmpl/demo/a.txt"; "/tmpl/demo"; "/tmpl/a.txt"; "/tmpl"],
                  ["/tmpl/demo"; "/tmpl/demo/a.txt"; "/tmpl/demo/demo";
                   "/tmpl/demo/demo/a.txt"])) as Hr.
  { vm_compute. reflexivity. }
  destruct r as [[[m|files|] w']|]; try discriminate Hr.
  injection Hr as Hv Hc. by exists w'.
Qed.

(** With the destination given by its absolute path the guard holds. *)
Lemma absolute_destination_is_skipped (fuel : nat) :
  ∃ w',
    Project.CreateFromTemplate map_to_list (S (S fuel)) (template_at "/tmpl") "demo"
      "/tmpl/demo" "Ada" ∅ inside_world
    = Some (None, w') ∧
    created inside_world w' = ["/tmpl/demo"; "/tmpl/demo/a.txt"].
Proof.
  set (r := Project.CreateFromTemplate _ _ _ _ _ _ _ _).
  assert (match r with
          | Some (None, w') => Some (created inside_world w')
          | _ => None
          end = Some ["/tmpl/demo"; "/tmpl/demo/a.txt"]) as Hr.
  { vm_compute. reflexivity. }
  destruct r as [[[e|] w']|]; try discriminate Hr.
  injection Hr as Hc. by exists w'.
Qed.

(** * Further properties of the code *)

Section ParseVarsFacts.
Import Strings Utils.

Lemma split_eq_cons c rest :
  split_eq (String c rest) =
  if Ascii.eqb c "="%char then [""; rest]
  else match split_eq rest with
       | x :: xs => String c x :: xs
       | [] => [String c ""]
       end.
Proof. done. Qed.

Lemma split_eq_entry key value :
  lacks "="%char key = true → split_eq (var_entry (key, value)) = [key; value].
Proof.
  unfold var_entry. cbn [fst snd]. induction key as [|c key IH]; intros Hk.
  - done.
  - rewrite lacks_cons in Hk. apply andb_true_iff in Hk as [Hc Hk].
    apply negb_true_iff in Hc.
    rewrite string_app_cons, split_eq_cons, Hc, IH by done. done.
Qed.

Lemma split_eq_plain kv : lacks "="%char kv = true → split_eq kv = [kv].
Proof.
  induction kv as [|c kv IH]; intros Hk; [done|].
  rewrite lacks_cons in Hk. apply andb_true_iff in Hk as [Hc Hk].
  apply negb_true_iff in Hc. by rewrite split_eq_cons, Hc, IH.
Qed.

(** An entry is plain text or a key, the first equals sign and a value. *)
Lemma split_eq_cases kv :
  lacks "="%char kv = true ∨
  ∃ key value, kv = var_entry (key, value) ∧ lacks "="%char key = true.
Proof.
  induction kv as [|c kv IH]; [by left|].
  destruct (Ascii.eqb_spec c "="%char) as [->|Hc].
  - right. by exists "", kv.
  - apply Ascii.eqb_neq in Hc.
    destruct IH as [Hk|(key & value & -> & Hk)].
    + left. by rewrite lacks_cons, Hk, Hc.
    + right. exists (String c key), value. split; [done|].
      by rewrite lacks_cons, Hk, Hc.
Qed.

Lemma ParseVars_loop_ok kvs result :
  Forall var_ok kvs → ∃ m, ParseVars_loop kvs result = (Some m, None).
Proof.
  intros H. revert result. induction H as [|kv kvs Hkv Hkvs IH]; intros result.
  - by eexists.
  - destruct Hkv as (key & value & -> & Hk & Ht). simpl.
    rewrite split_eq_entry by done.
    destruct (String.eqb_spec (TrimSpace key) ""); [done|]. apply IH.
Qed.

Lemma ParseVars_loop_cases kvs result :
  (∃ m, ParseVars_loop kvs result = (Some m, None) ∧ Forall var_ok kvs) ∨
  (∃ e, ParseVars_loop kvs result = (None, Some e) ∧ ¬ Forall var_ok kvs).
Proof.
  revert result. induction kvs as [|kv kvs IH]; intros result.
  - left. by eexists.
  - simpl. destruct (split_eq_cases kv) as [Hk|(key & value & -> & Hk)].
    + rewrite split_eq_plain by done. right. eexists. split; [done|].
      intros [(key & value & -> & Hkey & _) _]%Forall_cons.
      unfold var_entry in Hk. cbn [fst snd] in Hk.
      rewrite lacks_app in Hk. apply andb_true_iff in Hk as [_ Hk].
      change ("=" +:+ value) with (String "=" value) in Hk.
      by rewrite lacks_cons in Hk.
    + rewrite split_eq_entry by done.
      destruct (String.eqb_spec (TrimSpace key) "") as [Ht|Ht].
      * right. eexists. split; [done|].
        intros [(key' & value' & Heq & Hkey & Hne) _]%Forall_cons.
        apply (f_equal split_eq) in Heq.
        rewrite !split_eq_entry in Heq by done. congruence.
      * destruct (IH (<[TrimSpace key := value]> result))
          as [(m & Hm & Hall)|(e & He & Hn)].
        -- left. exists m. split; [done|]. constructor; [|done].
           by exists key, value.
        -- right. exists e. split; [done|]. by intros [_ ?]%Forall_cons.
Qed.

Lemma ParseVars_loop_app a b result m :
  ParseVars_loop (a ++ b) result = (Some m, None) →
  ∃ m1, ParseVars_loop a result = (Some m1, None) ∧
        ParseVars_loop b m1 = (Some m, None).
Proof.
  revert result. induction a as [|kv a IH]; intros result H.
  - by exists result.
  - simpl in *. destruct (split_eq kv) as [|k [|v [|? ?]]]; try done.
    destruct (String.eqb (TrimSpace k) ""); [done|]. by apply IH.
Qed.

Lemma ParseVars_loop_keeps later key value result m :
  (∀ kv, kv ∈ later →
         lacks "="%char kv.1 = true ∧ TrimSpace kv.1 ≠ key) →
  result !! key = Some value →
  ParseVars_loop (var_entry <$> later) result = (Some m, None) →
  m !! key = Some value.
Proof.
  revert result. induction later as [|[k v] later IH]; intros result Hl Hr H.
  - simpl in H. congruence.
  - rewrite fmap_cons in H. simpl in H.
    destruct (Hl (k, v)) as [Hk Hne]; [left|]. cbn [fst] in Hk, Hne.
    rewrite split_eq_entry in H by done.
    destruct (String.eqb (TrimSpace k) ""); [done|].
    eapply IH; [|by rewrite lookup_insert_ne|done].
    intros kv Hkv. apply Hl. by right.
Qed.
End ParseVarsFacts.

(** X1: [ParseVars] succeeds exactly when every entry has an equals sign
    and, before the first one, a key that is not blank, that is, not
    made of the white space of Unicode only; otherwise it returns an
    error and no map. *)
Theorem ParseVars_succeeds_iff (kvs : list string) :
  ((∃ m, Utils.ParseVars kvs = (Some m, None)) ↔ Forall var_ok kvs) ∧
  ((∃ e, Utils.ParseVars kvs = (None, Some e)) ↔ ¬ Forall var_ok kvs).
Proof.
  unfold Utils.ParseVars.
  destruct (ParseVars_loop_cases kvs ∅) as [(m & Hm & Hall)|(e & He & Hn)].
  - rewrite Hm. split; split; try done.
    + by exists m.
    + by intros [e He].
  - rewrite He. split; split; try done.
    + by intros [m Hm].
    + by exists e.
Qed.

(** X2: the value of a key is the text after the first equals sign of
    the last entry with that key, taken as it is; the key is the text
    before it without the white space around it. *)
Theorem ParseVars_last_entry_wins (before : list string)
    (later : list (string * string)) (key value : string)
    (m : gmap string string) :
  lacks "="%char key = true →
  (∀ kv, kv ∈ later →
         lacks "="%char kv.1 = true ∧
         Strings.TrimSpace kv.1 ≠ Strings.TrimSpace key) →
  Utils.ParseVars (before ++ var_entry (key, value) :: (var_entry <$> later))
  = (Some m, None) →
  m !! Strings.TrimSpace key = Some value.
Proof.
  intros Hk Hl H. unfold Utils.ParseVars in H.
  apply ParseVars_loop_app in H as (m1 & _ & H). simpl in H.
  rewrite split_eq_entry in H by done.
  destruct (String.eqb (Strings.TrimSpace key) ""); [done|].
  eapply ParseVars_loop_keeps; [done| |done]. by rewrite lookup_insert_eq.
Qed.

Lemma ParseVars_last_entry_wins_witness :
  ∃ m, Utils.ParseVars ["name=a"; " name =b=c "; "other=d"] = (Some m, None) ∧
       m !! "name" = Some "b=c ".
Proof.
  eexists. split; [reflexivity|].
  apply (ParseVars_last_entry_wins ["name=a"] [("other", "d")] " name " "b=c ").
  - reflexivity.
  - intros kv ->%list_elem_of_singleton. split; [reflexivity|]. by vm_compute.
  - reflexivity.
Defined.

(** The white space around a key is that of Unicode: a key that is a
    no-break space is blank, and a no-break space after a key is
    trimmed. *)
Remark ParseVars_no_break_space :
  Utils.ParseVars [Strings.utf8 [194; 160] +:+ "=v"]
  = (None, Some (OS.ErrorString "variable key cannot be empty")) ∧
  ∃ m, Utils.ParseVars ["name=a"; "name" +:+ Strings.utf8 [194; 160] +:+ "=b"]
       = (Some m, None) ∧
       m !! "name" = Some "b".
Proof. split; [reflexivity|]. eexists. split; reflexivity. Qed.

Section Trimming.
Import Strings.

Lemma cut_prefix_app s e r : cut_prefix s e = Some r ↔ s = e +:+ r.
Proof.
  revert s. induction e as [|a e IH]; intros s; simpl.
  - split; [by intros [= ->]|by intros ->].
  - destruct s as [|b s]; [done|].
    destruct (Ascii.eqb_spec a b) as [->|Hab].
    + rewrite IH. split; [by intros ->|by intros [= ->]].
    + split; [done|]. intros [= ? _]. congruence.
Qed.

Lemma substring_all e : String.substring 0 (String.length e) e = e.
Proof. induction e as [|d e IHe]; simpl; [done|by rewrite IHe]. Qed.

Lemma substring_app_l r e :
  String.substring 0 (String.length r) (r +:+ e) = r.
Proof.
  induction r as [|c r IH]; [by destruct e|].
  rewrite string_app_cons. simpl. by rewrite IH.
Qed.

Lemma substring_app_r r e :
  String.substring (String.length r) (String.length e) (r +:+ e) = e.
Proof.
  induction r as [|c r IH]; [apply substring_all|]. by rewrite string_app_cons.
Qed.

Lemma substring_split n s :
  n ≤ String.length s →
  s = String.substring 0 n s +:+ String.substring n (String.length s - n) s.
Proof.
  revert n. induction s as [|c s IH]; intros [|n] Hn; simpl in Hn; try lia.
  - done.
  - simpl. by rewrite substring_all.
  - simpl. rewrite string_app_cons. f_equal. apply IH. lia.
Qed.

Lemma cut_suffix_app s e r : cut_suffix s e = Some r ↔ s = r +:+ e.
Proof.
  unfold cut_suffix, HasSuffix. split.
  - destruct (Nat.leb_spec (String.length e) (String.length s)) as [Hle|]; [|done]. simpl.
    destruct (String.eqb_spec (String.substring (String.length s - String.length e)
                                 (String.length e) s) e) as [He|]; [|done].
    intros [= <-].
    rewrite (substring_split (String.length s - String.length e) s) at 1 by lia.
    f_equal. rewrite <-He at 3. f_equal. lia.
  - intros ->. rewrite string_length_app.
    destruct (Nat.leb_spec (String.length e) (String.length r + String.length e)); [|lia].
    simpl. replace (String.length r + String.length e - String.length e) with (String.length r) by lia.
    by rewrite substring_app_r, String.eqb_refl, substring_app_l.
Qed.

(** What a cut is: taking [e] off [s] leaves [r]. *)
Definition cuts (cut : string → string → option string)
    (join : string → string → string) : Prop :=
  ∀ s e r, cut s e = Some r ↔ s = join e r.

Lemma white_space_nonempty e : e ∈ white_space → 0 < String.length e.
Proof.
  intros He. unfold white_space in He.
  repeat (apply elem_of_cons in He as [->|He]; [vm_compute; lia|]).
  by apply elem_of_nil in He.
Qed.

Section Cut.
Variable cut : string → string → option string.
Variable join : string → string → string.
Hypothesis cut_join : cuts cut join.
Hypothesis length_join : ∀ e r, String.length (join e r) = String.length e + String.length r.

Lemma cut_space_Some s r :
  cut_space cut s = Some r → ∃ e, e ∈ white_space ∧ s = join e r.
Proof.
  unfold cut_space. induction white_space as [|e l IH]; [done|]. simpl.
  destruct (cut s e) as [rest|] eqn:Hc.
  - intros [= ->]. exists e. split; [by left|]. by apply cut_join.
  - intros (e' & He' & ->)%IH. exists e'. split; [by right|done].
Qed.

Lemma cut_space_None s e r :
  cut_space cut s = None → e ∈ white_space → s ≠ join e r.
Proof.
  unfold cut_space. induction white_space as [|e' l IH]; [by intros _ ?%elem_of_nil|].
  simpl. destruct (cut s e') as [rest|] eqn:Hc; [done|].
  intros Hn [->|He]%elem_of_cons; [|by apply IH].
  intros Heq. apply cut_join in Heq. congruence.
Qed.

Lemma trim_done n s : cut_space cut s = None → trim cut n s = s.
Proof. intros H. destruct n; simpl; [done|by rewrite H]. Qed.

(** Once the loop has run as often as the text is long, nothing is left
    to cut. *)
Lemma trim_ends n s :
  String.length s ≤ n → cut_space cut (trim cut n s) = None.
Proof.
  revert s. induction n as [|n IH]; intros s Hn; simpl.
  - destruct (cut_space cut s) as [r|] eqn:Hc; [|done].
    apply cut_space_Some in Hc as (e & He%white_space_nonempty & ->).
    rewrite length_join in Hn. lia.
  - destruct (cut_space cut s) as [r|] eqn:Hc; [|done].
    apply IH. apply cut_space_Some in Hc as (e & He%white_space_nonempty & ->).
    rewrite length_join in Hn. lia.
Qed.

(** What the loop has cut off. *)
Inductive cut_off : string → string → Prop :=
| cut_none s : cut_off s s
| cut_more e s r : e ∈ white_space → cut_off s r → cut_off (join e s) r.

Lemma trim_cut_off n s : cut_off s (trim cut n s).
Proof.
  revert s. induction n as [|n IH]; intros s; simpl; [constructor|].
  destruct (cut_space cut s) as [r|] eqn:Hc; [|constructor].
  apply cut_space_Some in Hc as (e & He & ->). by constructor.
Qed.
End Cut.

Lemma cuts_prefix : cuts cut_prefix String.append.
Proof. intros s e r. apply cut_prefix_app. Qed.

Lemma cuts_suffix : cuts cut_suffix (λ e r, r +:+ e).
Proof. intros s e r. apply cut_suffix_app. Qed.

(** Cutting at the end leaves the start of a text where it was. *)
Lemma cut_off_end s r :
  cut_off (λ e r, r +:+ e) s r → ∃ tail, s = r +:+ tail.
Proof.
  induction 1 as [s|e s r He H [tail ->]].
  - exists "". by rewrite string_app_nil_r.
  - exists (tail +:+ e). by rewrite string_app_assoc.
Qed.

Lemma trim_left_ends s : cut_space cut_prefix (trim_left s) = None.
Proof.
  apply (trim_ends _ _ cuts_prefix); [apply string_length_app|done].
Qed.

Lemma trim_right_ends s : cut_space cut_suffix (trim_right s) = None.
Proof.
  apply (trim_ends _ _ cuts_suffix); [|done].
  intros e r. rewrite string_length_app. lia.
Qed.

Lemma trim_left_fixed s : cut_space cut_prefix s = None → trim_left s = s.
Proof. apply trim_done. Qed.

Lemma trim_right_fixed s : cut_space cut_suffix s = None → trim_right s = s.
Proof. apply trim_done. Qed.

(** [TrimSpace] leaves nothing to trim. *)
Lemma TrimSpace_idemp s : TrimSpace (TrimSpace s) = TrimSpace s.
Proof.
  unfold TrimSpace. set (t := trim_left s).
  assert (trim_left (trim_right t) = trim_right t) as ->.
  { apply trim_left_fixed.
    destruct (cut_space cut_prefix (trim_right t)) as [r|] eqn:Hc; [|done].
    apply (cut_space_Some _ _ cuts_prefix) in Hc as (e & He & Hr).
    destruct (cut_off_end t (trim_right t)) as [tail Ht].
    { apply (trim_cut_off _ _ cuts_suffix). }
    exfalso. apply (cut_space_None _ _ cuts_prefix t e (r +:+ tail) (trim_left_ends s) He).
    by rewrite Ht, Hr, string_app_assoc. }
  apply trim_right_fixed, trim_right_ends.
Qed.
End Trimming.

Section LoadedPatterns.
Import Strings Utils.

Lemma patterns_of_elem lines p :
  p ∈ patterns_of lines ↔
  p ≠ "" ∧ HasPrefix p "#" = false ∧ ∃ text, text ∈ lines ∧ p = TrimSpace text.
Proof.
  induction lines as [|text lines IH].
  - split; [by intros ?%elem_of_nil|]. by intros (_ & _ & ? & ?%elem_of_nil & _).
  - simpl.
    destruct (String.eqb_spec (TrimSpace text) "") as [He|He]; simpl.
    + rewrite IH. split.
      * intros (? & ? & t & ? & ?). repeat split; [done..|]. exists t. split; [by right|done].
      * intros (Hp & Hc & t & [->|?]%elem_of_cons & Ht); [congruence|].
        repeat split; [done..|]. by exists t.
    + destruct (HasPrefix (TrimSpace text) "#") eqn:Hh.
      * rewrite IH. split.
        -- intros (? & ? & t & ? & ?). repeat split; [done..|]. exists t.
           split; [by right|done].
        -- intros (Hp & Hc & t & [->|?]%elem_of_cons & Ht); [congruence|].
           repeat split; [done..|]. by exists t.
      * rewrite elem_of_cons, IH. split.
        -- intros [->|(? & ? & t & ? & ?)].
           ++ repeat split; [done..|]. exists text. split; [by left|done].
           ++ repeat split; [done..|]. exists t. split; [by right|done].
        -- intros (Hp & Hc & t & [->|?]%elem_of_cons & Ht); [by left|].
           right. repeat split; [done..|]. by exists t.
Qed.
End LoadedPatterns.

(** X3: reading the ignore file changes nothing; a path that holds no
    regular file gives no pattern; and a pattern that is read is a
    line of the file without the white space around it, neither empty
    nor a comment. *)
Theorem LoadIgnorePatterns_patterns (root filename : string) (w : OS.world) :
  let r := Utils.LoadIgnorePatterns root filename w in
  r.2 = w ∧
  ((∀ mode content,
      OS.fsys w !! OS.resolve w (Filepath.Join [root; filename])
      ≠ Some (OS.Regular mode content)) → r.1 = []) ∧
  (∀ p, p ∈ r.1 →
        p ≠ "" ∧ Strings.HasPrefix p "#" = false ∧ Strings.TrimSpace p = p).
Proof.
  unfold Utils.LoadIgnorePatterns, mbind, OS.M_bind, OS.ReadFile.
  destruct (OS.fsys w !! _) as [[mode|mode content]|] eqn:Hf; simpl.
  - split; [done|]. split; [done|]. by intros p ?%elem_of_nil.
  - split; [done|]. split; [intros H; by destruct (H mode content)|].
    intros p (Hne & Hc & text & _ & ->)%patterns_of_elem.
    split; [done|]. split; [done|]. apply TrimSpace_idemp.
  - split; [done|]. split; [done|]. by intros p ?%elem_of_nil.
Qed.

Section PlainPatterns.
Import Strings Filepath Utils.

Lemma HasPrefix_inv s p : HasPrefix s p = true → ∃ t, s = p +:+ t.
Proof.
  revert s. induction p as [|d p IH]; intros s H.
  - by exists s.
  - destruct s as [|c s]; [done|]. rewrite HasPrefix_cons in H.
    apply andb_true_iff in H as [Hc Hs]. apply bool_decide_eq_true in Hc as ->.
    destruct (IH _ Hs) as [t ->]. by exists t.
Qed.

Lemma parse_plain_step fuel c rest :
  c ≠ "*"%char → c ≠ "?"%char → c ≠ "["%char → c ≠ "\"%char →
  parse (S fuel) (String c rest) = cons (Lit c) <$> parse fuel rest.
Proof.
  intros H1 H2 H3 H4.
  destruct c as [[] [] [] [] [] [] [] []]; try reflexivity; congruence.
Qed.

Lemma parse_plain fuel p :
  plain_pattern p = true → String.length p < fuel →
  parse fuel p = Some (literally p).
Proof.
  revert fuel. induction p as [|c p IH]; intros fuel Hp Hf.
  - destruct fuel; [simpl in Hf; lia|done].
  - destruct fuel as [|fuel]; [lia|]. simpl in Hf.
    unfold plain_pattern in Hp. rewrite !lacks_cons in Hp.
    rewrite !andb_true_iff, !negb_true_iff in Hp.
    destruct Hp as [[[[H1 ?] [H2 ?]] [H3 ?]] [H4 ?]].
    apply Ascii.eqb_neq in H1, H2, H3, H4.
    rewrite parse_plain_step by done.
    rewrite IH; [done| |lia]. unfold plain_pattern.
    by repeat (apply andb_true_iff; split).
Qed.

Lemma matches_literally p name : matches (literally p) name = String.eqb name p.
Proof.
  revert name. induction p as [|d p IH]; intros name; [done|].
  destruct name as [|c name]; [done|]. simpl. rewrite IH.
  by destruct (Ascii.eqb_spec c d).
Qed.

(** A plain pattern matches its own text and no other. *)
Lemma Match_plain p name :
  plain_pattern p = true → Match p name = String.eqb name p.
Proof.
  intros Hp. unfold Match. rewrite parse_plain by (done || lia).
  apply matches_literally.
Qed.

Lemma lacks_substring c n s :
  lacks c s = true → lacks c (String.substring 0 n s) = true.
Proof.
  revert n. induction s as [|d s IH]; intros n H; [by destruct n|].
  destruct n as [|n]; [done|]. simpl. rewrite lacks_cons in H.
  apply andb_true_iff in H as [-> Hs]. by rewrite IH.
Qed.

Lemma TrimSuffix_plain p suffix :
  plain_pattern p = true → plain_pattern (TrimSuffix p suffix) = true.
Proof.
  unfold TrimSuffix. destruct (HasSuffix p suffix); [|done].
  unfold plain_pattern. intros H. repeat (apply andb_true_iff in H as [H ?]).
  by rewrite !lacks_substring.
Qed.

Lemma string_snoc_eq (a b : string) c d :
  a +:+ String c "" = b +:+ String d "" → a = b ∧ c = d.
Proof.
  revert b. induction a as [|x a IH]; intros [|y b] H.
  - by injection H.
  - rewrite string_app_cons in H. injection H as _ H.
    apply (f_equal String.length) in H. rewrite string_length_app in H.
    simpl in H. lia.
  - rewrite string_app_cons in H. injection H as _ H.
    apply (f_equal String.length) in H. rewrite string_length_app in H.
    simpl in H. lia.
  - rewrite !string_app_cons in H. injection H as -> H.
    by destruct (IH _ H) as [-> ->].
Qed.

Lemma string_snoc_inv (s : string) :
  s = "" ∨ ∃ front c, s = front +:+ String c "".
Proof.
  induction s as [|c s IH]; [by left|]. right.
  destruct IH as [->|(front & d & ->)].
  - by exists "", c.
  - by exists (String c front), d.
Qed.

(** A path that, with a slash at its end, starts with a directory and a
    slash is the directory or a path below it. *)
Lemma HasPrefix_slash r d :
  HasPrefix (r +:+ "/") (d +:+ "/") = true ↔
  r = d ∨ ∃ rest, r = d +:+ "/" +:+ rest.
Proof.
  split.
  - intros [t Ht]%HasPrefix_inv. destruct (string_snoc_inv t) as [->|(front & c & ->)].
    + left. rewrite string_app_nil_r in Ht. by apply string_app_inv_tail in Ht.
    + right. exists front.
      rewrite <-(string_app_assoc (d +:+ "/") front (String c "")) in Ht.
      change (r +:+ "/") with (r +:+ String "/" "") in Ht.
      apply string_snoc_eq in Ht as [-> _]. by rewrite string_app_assoc.
  - intros [->|[rest ->]].
    { rewrite <-(string_app_nil_r (d +:+ "/")) at 1. apply HasPrefix_app. }
    rewrite <-(string_app_assoc d "/" rest), string_app_assoc.
    apply HasPrefix_app.
Qed.
End PlainPatterns.

Section PatternSets.
Import Strings Filepath Utils.

Lemma MatchIgnore_loop_app r ps qs :
  MatchIgnore_loop r (ps ++ qs) = MatchIgnore_loop r ps || MatchIgnore_loop r qs.
Proof.
  induction ps as [|p ps IH]; [done|]. simpl.
  destruct (Match _ r); [done|]. by destruct (HasPrefix _ _).
Qed.

Lemma MatchIgnore_loop_elem r ps :
  MatchIgnore_loop r ps = true ↔ ∃ p, p ∈ ps ∧ MatchIgnore_loop r [p] = true.
Proof.
  induction ps as [|p ps IH].
  - split; [done|]. by intros (? & ?%elem_of_nil & _).
  - change (p :: ps) with ([p] ++ ps). rewrite MatchIgnore_loop_app.
    rewrite orb_true_iff, IH. split.
    + intros [H|(q & Hq & H)]; [exists p|exists q]; (split; [|done]).
      * by left.
      * by right.
    + intros (q & [->|Hq]%elem_of_cons & H); [by left|]. right. by exists q.
Qed.
End PatternSets.

(** X4: a path that some patterns ignore is ignored by every list that
    holds these patterns, in whatever order and with whatever else: no
    pattern takes a path out again. *)
Theorem MatchIgnore_monotone (relPath : string) (patterns more : list string) :
  (∀ p, p ∈ patterns → p ∈ more) →
  Utils.MatchIgnore relPath patterns = true →
  Utils.MatchIgnore relPath more = true.
Proof.
  unfold Utils.MatchIgnore. intros Hsub.
  rewrite !MatchIgnore_loop_elem. intros (p & Hp & H). exists p. split; [|done].
  by apply Hsub.
Qed.

Lemma MatchIgnore_monotone_witness :
  Utils.MatchIgnore "docs/guide.md" ["!docs"; "*.log"; "docs"] = true.
Proof.
  apply (MatchIgnore_monotone "docs/guide.md" ["docs"] ["!docs"; "*.log"; "docs"]).
  - intros p ->%list_elem_of_singleton. apply list_elem_of_In. simpl. tauto.
  - reflexivity.
Defined.

(** X5: a pattern without wildcard characters ignores the path it names
    (a slash at its end apart), every path below it, and no other. *)
Theorem MatchIgnore_plain_pattern (relPath pattern : string) :
  plain_pattern pattern = true →
  Utils.MatchIgnore relPath [pattern] = true ↔
  relPath = Strings.TrimSuffix pattern "/" ∨
  ∃ rest, relPath = Strings.TrimSuffix pattern "/" +:+ "/" +:+ rest.
Proof.
  intros Hp. unfold Utils.MatchIgnore. simpl. rewrite !ToSlash_id.
  rewrite Match_plain by by apply TrimSuffix_plain.
  destruct (String.eqb_spec relPath (Strings.TrimSuffix pattern "/")) as [->|Hne].
  { split; [by left|done]. }
  rewrite <-HasPrefix_slash. by destruct (Strings.HasPrefix _ _).
Qed.

Lemma MatchIgnore_plain_pattern_witness :
  Utils.MatchIgnore "build-tools/run.sh" ["build/"] = false.
Proof.
  apply not_true_iff_false. intros H.
  apply (MatchIgnore_plain_pattern "build-tools/run.sh" "build/") in H; [|reflexivity].
  destruct H as [H|[rest H]]; [done|]. vm_compute in H. congruence.
Defined.

Section Chains.
Import Strings Utils.

Lemma steps_braced range projectName author extraVars kv :
  enumerates range →
  kv ∈ range (replacements range projectName author extraVars) →
  ∃ x, kv.1 = wrap x.
Proof.
  intros Hr Hin. destruct kv as [k v].
  apply (steps_in_map _ _ _ _ Hr) in Hin.
  by destruct (replacements_braced _ _ _ _ _ _ Hin) as [x ->]; exists x.
Qed.

Lemma steps_other (l : list (string * string)) name :
  (∀ kv, kv ∈ l → ∃ x, kv.1 = wrap x) → wrap name ∉ l.*1 →
  ∀ kv, kv ∈ l → ∃ x, kv.1 = wrap x ∧ x ≠ name.
Proof.
  intros Hb Hn kv Hin. destruct (Hb kv Hin) as [x Hx]. exists x. split; [done|].
  intros ->. apply Hn. apply list_elem_of_fmap. by exists kv.
Qed.

Lemma run_cons kv (l : list (string * string)) content :
  run (kv :: l) content = run l (ReplaceAll content kv.1 kv.2).
Proof. done. Qed.

Lemma run_token (l : list (string * string)) pre post value :
  (∀ kv, kv ∈ l → ∃ x, kv.1 = wrap x) →
  lacks "{" pre = true → lacks "{" value = true → lacks "{" post = true →
  run l (pre +:+ value +:+ post) = pre +:+ value +:+ post.
Proof.
  intros Hb Hpre Hvalue Hpost. apply run_absent.
  - intros k v Hin. destruct (Hb (k, v) Hin) as [x Hx]. simpl in Hx. subst k.
    apply wrap_prefix.
  - apply lacks_Contains. by rewrite !lacks_app, Hpre, Hvalue, Hpost.
Qed.
End Chains.

(** X6: a value that is itself a token is expanded again when the step
    of that token comes later in the enumeration of the replacement
    map, and stays a token when it comes earlier: with a variable [a]
    whose value is the token of a variable [b], the token of [a]
    becomes the value of [b] in the first case and the token of [b] in
    the second. *)
Theorem later_step_expands_value
    (range : gmap string string → list (string * string))
    (projectName author : string) (extraVars : gmap string string)
    (a b value pre post : string) :
  Utils.enumerates range →
  a ≠ b → brace_free a = true → brace_free b = true →
  lacks "{" value = true → lacks "{" pre = true → brace_free post = true →
  let steps := range (Utils.replacements range projectName author extraVars) in
  let content := pre +:+ Utils.wrap a +:+ post in
  (∀ l1 l2 l3,
     steps = l1 ++ (Utils.wrap a, Utils.wrap b) :: l2 ++
             (Utils.wrap b, value) :: l3 →
     Utils.ReplacePlaceholders range content projectName author extraVars
     = pre +:+ value +:+ post) ∧
  (∀ l1 l2 l3,
     steps = l1 ++ (Utils.wrap b, value) :: l2 ++
             (Utils.wrap a, Utils.wrap b) :: l3 →
     Utils.ReplacePlaceholders range content projectName author extraVars
     = pre +:+ Utils.wrap b +:+ post).
Proof.
  intros Hr Hab Ha Hb Hvalue Hpre Hpost steps content.
  apply andb_true_iff in Hpost as Hpost'. destruct Hpost' as [Hpost1 _].
  assert (∀ kv, kv ∈ steps → ∃ x, kv.1 = Utils.wrap x) as Hbraced.
  { intros kv. by apply steps_braced. }
  pose proof (range_NoDup range
                (Utils.replacements range projectName author extraVars) Hr) as Hnd.
  fold steps in Hnd.
  change (Utils.ReplacePlaceholders range content projectName author extraVars)
    with (run steps content).
  split; intros l1 l2 l3 Hsteps; rewrite Hsteps in Hnd, Hbraced |- *;
    rewrite fmap_app, fmap_cons, fmap_app, fmap_cons in Hnd;
    apply NoDup_app in Hnd as (_ & H1 & Hnd);
    apply NoDup_cons in Hnd as [H2 Hnd];
    apply NoDup_app in Hnd as (_ & H3 & Hnd);
    apply NoDup_cons in Hnd as [H4 _];
    rewrite run_app, run_cons, run_app, run_cons; cbn [fst snd].
  - unfold content.
    assert (∀ kv, kv ∈ l1 → ∃ x, kv.1 = Utils.wrap x ∧ x ≠ a) as Hl1.
    { apply steps_other.
      - intros kv Hin. apply Hbraced, elem_of_app. by left.
      - intros Hin. apply (H1 _ Hin). by left. }
    assert (∀ kv, kv ∈ l2 → ∃ x, kv.1 = Utils.wrap x ∧ x ≠ b) as Hl2.
    { apply steps_other.
      - intros kv Hin. apply Hbraced, elem_of_app. right. right.
        apply elem_of_app. by left.
      - intros Hin. apply (H3 _ Hin). by left. }
    rewrite (run_others l1 pre a post Hpre Ha Hpost Hl1).
    rewrite ReplaceAll_this_token by done.
    rewrite (run_others l2 pre b post Hpre Hb Hpost Hl2).
    rewrite ReplaceAll_this_token by done.
    apply run_token; try done.
    intros kv Hin. apply Hbraced, elem_of_app. right. right.
    apply elem_of_app. right. by right.
  - unfold content.
    assert (∀ kv, kv ∈ l1 → ∃ x, kv.1 = Utils.wrap x ∧ x ≠ a) as Hl1.
    { apply steps_other.
      - intros kv Hin. apply Hbraced, elem_of_app. by left.
      - intros Hin. apply (H1 _ Hin). right. apply elem_of_app. right. by left. }
    assert (∀ kv, kv ∈ l2 → ∃ x, kv.1 = Utils.wrap x ∧ x ≠ a) as Hl2.
    { apply steps_other.
      - intros kv Hin. apply Hbraced, elem_of_app. right. right.
        apply elem_of_app. by left.
      - intros Hin. apply (H3 _ Hin). by left. }
    assert (∀ kv, kv ∈ l3 → ∃ x, kv.1 = Utils.wrap x ∧ x ≠ b) as Hl3.
    { apply steps_other.
      - intros kv Hin. apply Hbraced, elem_of_app. right. right.
        apply elem_of_app. right. by right.
      - intros Hin. apply H2, elem_of_app. right. by right. }
    rewrite (run_others l1 pre a post Hpre Ha Hpost Hl1).
    rewrite ReplaceAll_other_token by (done || congruence).
    rewrite (run_others l2 pre a post Hpre Ha Hpost Hl2).
    rewrite ReplaceAll_this_token by done.
    exact (run_others l3 pre b post Hpre Hb Hpost Hl3).
Qed.

Lemma later_step_expands_value_witness :
  Utils.ReplacePlaceholders map_to_list "{{A}}" "demo" "Ada" chained_vars = "x" ∧
  Utils.ReplacePlaceholders rev_range "{{A}}" "demo" "Ada" chained_vars = "{{B}}".
Proof.
  split.
  - apply (proj1 (later_step_expands_value map_to_list "demo" "Ada" chained_vars
                    "A" "B" "x" "" "" enumerates_map_to_list
                    ltac:(done) eq_refl eq_refl eq_refl eq_refl eq_refl)
             [] [("{{AUTHOR}}", "Ada")]
             [("{{PROJECT_NAME_UPPER}}", "DEMO"); ("{{PROJECT_NAME_LOWER}}", "demo");
              ("{{PROJECT_NAME}}", "demo")]).
    by vm_compute.
  - assert (Utils.enumerates rev_range) as Hr
      by (intros m; apply reverse_Permutation).
    apply (proj2 (later_step_expands_value rev_range "demo" "Ada" chained_vars
                    "A" "B" "x" "" "" Hr
                    ltac:(done) eq_refl eq_refl eq_refl eq_refl eq_refl)
             [("{{PROJECT_NAME}}", "demo"); ("{{PROJECT_NAME_LOWER}}", "demo");
              ("{{PROJECT_NAME_UPPER}}", "DEMO")]
             [("{{AUTHOR}}", "Ada")] []).
    by vm_compute.
Defined.

Section CleanedPaths.
Import Strings Filepath.

Lemma split_on_lack sep s : Forall (λ e, lacks sep e = true) (split_on sep s).
Proof.
  induction s as [|c s IH]; [by constructor|]. rewrite split_on_cons.
  destruct (Ascii.eqb c sep) eqn:Hc; [by constructor|].
  destruct IH as [|x xs Hx Hxs]; constructor; try done.
  by rewrite lacks_cons, Hc.
  by rewrite lacks_cons, Hc, Hx.
Qed.

(** The elements that [Clean] keeps of a rooted path are plain names. *)
Lemma clean_step_rooted kept e :
  lacks "/"%char e = true → Forall (λ s, simple s = true) kept →
  Forall (λ s, simple s = true) (clean_step true kept e).
Proof.
  intros He Hk. unfold clean_step.
  destruct (String.eqb_spec e "") as [|H1]; [done|].
  destruct (String.eqb_spec e ".") as [|H2]; [done|].
  destruct (String.eqb_spec e "..") as [|H3].
  - destruct Hk as [|top rest Htop Hrest]; [done|].
    destruct (String.eqb_spec top ".."); [by subst|done].
  - constructor; [|done]. unfold simple, nonempty. rewrite He.
    apply String.eqb_neq in H1, H2, H3. by rewrite H1, H2, H3.
Qed.

Lemma clean_fold_rooted parts kept :
  Forall (λ e, lacks "/"%char e = true) parts →
  Forall (λ s, simple s = true) kept →
  Forall (λ s, simple s = true) (foldl (clean_step true) kept parts).
Proof.
  intros H. revert kept. induction H as [|e parts He Hparts IH]; intros kept Hk; [done|].
  simpl. apply IH. by apply clean_step_rooted.
Qed.

(** A rooted path is cleaned to a slash and plain names. *)
Lemma Clean_rooted path :
  IsAbs path = true →
  ∃ segs, Forall (λ s, simple s = true) segs ∧ Clean path = abs_path segs.
Proof.
  intros Habs. unfold Clean. destruct (String.eqb_spec path "") as [->|_]; [done|].
  rewrite Habs. eexists. split; [|done].
  apply Forall_rev, clean_fold_rooted; [apply split_on_lack|done].
Qed.

(** The elements that [Clean] keeps of any path are not empty and hold no
    slash. *)
Lemma clean_step_names rooted kept e :
  lacks "/"%char e = true →
  Forall (λ s, nonempty s && lacks "/"%char s = true) kept →
  Forall (λ s, nonempty s && lacks "/"%char s = true) (clean_step rooted kept e).
Proof.
  intros He Hk. unfold clean_step.
  destruct (String.eqb_spec e "") as [|H1]; [done|].
  destruct (String.eqb_spec e ".") as [|H2]; [done|].
  assert (nonempty e && lacks "/"%char e = true) as Hn.
  { unfold nonempty. apply String.eqb_neq in H1. by rewrite H1, He. }
  destruct (String.eqb_spec e "..") as [|H3]; [|by constructor].
  destruct Hk as [|top rest Htop Hrest].
  - destruct rooted; [done|by constructor].
  - destruct (String.eqb top ".."); [by repeat constructor|done].
Qed.

Lemma clean_fold_names rooted parts kept :
  Forall (λ e, lacks "/"%char e = true) parts →
  Forall (λ s, nonempty s && lacks "/"%char s = true) kept →
  Forall (λ s, nonempty s && lacks "/"%char s = true)
         (foldl (clean_step rooted) kept parts).
Proof.
  intros H. revert kept. induction H as [|e parts He Hparts IH]; intros kept Hk; [done|].
  simpl. apply IH. by apply clean_step_names.
Qed.

Lemma names_not_rooted kept :
  Forall (λ s, nonempty s && lacks "/"%char s = true) kept →
  IsAbs (Strings.Join kept "/") = false.
Proof.
  intros [|e rest [He Hl]%andb_true_iff _]; [done|].
  destruct e as [|c e]; [done|]. rewrite lacks_cons in Hl.
  apply andb_true_iff in Hl as [Hc%negb_true_iff%Ascii.eqb_neq _].
  unfold IsAbs. change "/" with (String "/" "") at 2.
  destruct rest; simpl Strings.Join; rewrite ?string_app_cons, HasPrefix_cons;
    by rewrite bool_decide_eq_false_2 by congruence.
Qed.

(** [Clean] keeps a rooted path rooted and a relative one relative. *)
Lemma IsAbs_Clean path : IsAbs (Clean path) = IsAbs path.
Proof.
  unfold Clean. destruct (String.eqb_spec path "") as [->|_]; [done|].
  destruct (IsAbs path) eqn:Habs.
  - unfold IsAbs. change ("/" +:+ ?s) with (String "/" s).
    by rewrite HasPrefix_cons, HasPrefix_nil.
  - pose proof (clean_fold_names false (split_on Separator path) []
                  (split_on_lack _ _) (Forall_nil_2 _)) as H.
    apply Forall_rev in H.
    destruct (rev _) eqn:Hr; [done|]. rewrite <-Hr. rewrite <-Hr in H.
    by apply names_not_rooted.
Qed.

Lemma IsAbs_app a b : a ≠ "" → IsAbs (a +:+ b) = IsAbs a.
Proof.
  destruct a as [|c a]; [done|]. intros _. unfold IsAbs.
  change "/" with (String "/" ""). by rewrite string_app_cons, !HasPrefix_cons, !HasPrefix_nil.
Qed.

Lemma IsAbs_Join x y : x ≠ "" → IsAbs (Filepath.Join [x; y]) = IsAbs x.
Proof.
  intros Hx. rewrite Join_nonempty_l by done. by rewrite IsAbs_Clean, IsAbs_app.
Qed.

(** In a process whose working directory is rooted every name resolves
    to a slash and plain names. *)
Lemma Abs_normal wd path :
  IsAbs wd = true →
  ∃ segs, Forall (λ s, simple s = true) segs ∧ Abs wd path = abs_path segs.
Proof.
  intros Hwd. unfold Abs. destruct (IsAbs path) eqn:Hp; [by apply Clean_rooted|].
  assert (wd ≠ "") as Hne by by destruct wd.
  rewrite Join_nonempty_l by done. apply Clean_rooted. by rewrite IsAbs_app.
Qed.
End CleanedPaths.

(** X7: the project directory is a relative path whenever the --path
    flag is relative, and whenever it is absent and the project name is
    no rooted path; it is rooted exactly in the other cases. *)
Theorem determineProjectDir_rooted (projectName targetPath : string) :
  Filepath.IsAbs (Cmd.determineProjectDir projectName targetPath) =
  if String.eqb targetPath "" then Filepath.IsAbs projectName
  else Filepath.IsAbs targetPath.
Proof.
  unfold Cmd.determineProjectDir.
  destruct (String.eqb_spec targetPath "") as [->|Hne]; [done|].
  by apply IsAbs_Join.
Qed.

Section Containment.
Import Strings Filepath Project.

Lemma strip_common_spec b t b' t' :
  strip_common b t = (b', t') →
  ∃ c, b = c ++ b' ∧ t = c ++ t' ∧
       ∀ x y b'' t'', b' = x :: b'' → t' = y :: t'' → x ≠ y.
Proof.
  revert t. induction b as [|x b IH]; intros t H.
  - simpl in H. injection H as <- <-. by exists [].
  - destruct t as [|y t].
    + simpl in H. injection H as <- <-. by exists [].
    + simpl in H. destruct (String.eqb_spec x y) as [->|Hne].
      * destruct (IH _ H) as (c & -> & -> & Hd). by exists (y :: c).
      * injection H as <- <-. exists []. repeat split. congruence.
Qed.

Lemma HasPrefix_dots_simple t s :
  simple t = true → HasPrefix (t +:+ s) ".." = HasPrefix t "..".
Proof.
  intros Ht. destruct t as [|c [|d t]]; [done| |].
  - destruct (ascii_dec c ".") as [->|Hc]; [done|].
    change ".." with (String "." "."). rewrite string_app_cons, !HasPrefix_cons.
    by rewrite bool_decide_eq_false_2 by congruence.
  - change ".." with (String "." (String "." "")).
    by rewrite !string_app_cons, !HasPrefix_cons, !HasPrefix_nil.
Qed.

Lemma HasPrefix_dots_join first rest :
  simple first = true →
  HasPrefix (Strings.Join (first :: rest) "/") ".." = HasPrefix first "..".
Proof.
  intros H. destruct rest as [|x rest].
  - rewrite <-(string_app_nil_r first) at 1. by apply HasPrefix_dots_simple.
  - by apply HasPrefix_dots_simple.
Qed.

Lemma HasPrefix_dots_up (b : list string) t :
  b ≠ [] → HasPrefix (Strings.Join (List.map (λ _, "..") b ++ t) "/") ".." = true.
Proof.
  destruct b as [|x b]; [done|]. intros _. simpl List.map.
  destruct (List.map (λ _ : string, "..") b ++ t) eqn:Hl.
  - rewrite <-app_comm_cons, Hl. done.
  - rewrite <-app_comm_cons, Hl. apply HasPrefix_app.
Qed.
End Containment.

(** X8: for a template and a destination given by cleaned absolute
    paths, the destination counts as inside the template exactly when it
    is the template or lies below it - unless the first directory on the
    way down has a name that begins with two dots, which the test takes
    for a step out of the template. *)
Theorem isTargetInsideSource_iff (source target : list string) :
  Forall (λ s, simple s = true) source → Forall (λ s, simple s = true) target →
  Project.isTargetInsideSource (abs_path source) (abs_path target) = true ↔
  ∃ below, target = source ++ below ∧
           ∀ first rest, below = first :: rest →
                         Strings.HasPrefix first ".." = false.
Proof.
  intros Hs Ht. split.
  - unfold Project.isTargetInsideSource, Filepath.Rel.
    rewrite !Clean_abs by done.
    destruct (String.eqb_spec (abs_path target) (abs_path source)) as [Heq|Hne].
    { intros _. apply abs_path_inj in Heq; [|done..]. subst.
      exists []. by rewrite app_nil_r. }
    destruct (String.eqb_spec (abs_path source) "."); [done|].
    rewrite !IsAbs_abs. simpl negb. cbv iota. rewrite !elements_abs by done.
    destruct (Filepath.strip_common source target) as [b t] eqn:Hst.
    apply strip_common_spec in Hst as (c & -> & -> & Hd).
    destruct b as [|e b].
    + rewrite app_nil_r in *. simpl. intros H%negb_true_iff.
      exists t. split; [done|]. intros first rest ->.
      apply Forall_app in Ht as [_ [Hf _]%Forall_cons].
      by rewrite HasPrefix_dots_join in H.
    + apply Forall_app in Hs as [_ [He _]%Forall_cons].
      destruct (String.eqb_spec e "..") as [->|_]; [done|].
      simpl fst. simpl snd. rewrite HasPrefix_dots_up by done. done.
  - intros (below & -> & Hb). unfold Project.isTargetInsideSource.
    apply Forall_app in Ht as [_ Ht].
    rewrite Rel_abs_below by done. destruct below as [|first rest]; [done|].
    apply Forall_cons in Ht as [Hf _].
    rewrite HasPrefix_dots_join by done. by rewrite (Hb first rest).
Qed.

Lemma isTargetInsideSource_iff_witness :
  Project.isTargetInsideSource "/tmpl" "/tmpl/out/demo" = true ∧
  Project.isTargetInsideSource "/tmpl" "/tmpl/..cache/demo" = false.
Proof.
  split.
  - apply (isTargetInsideSource_iff ["tmpl"] ["tmpl"; "out"; "demo"]).
    + by repeat constructor.
    + by repeat constructor.
    + exists ["out"; "demo"]. split; [done|]. by intros first rest [= <- <-].
  - apply not_true_iff_false. intros H.
    apply (isTargetInsideSource_iff ["tmpl"] ["tmpl"; "..cache"; "demo"]) in H
      as (below & [= <-] & Hb).
    + by specialize (Hb _ _ eq_refl).
    + by repeat constructor.
    + by repeat constructor.
Defined.

Section GuardExact.
Import Strings Filepath Project.

Lemma dot_not_below (target : list string) rest :
  Forall (λ s, simple s = true) target → target ≠ [] →
  "." ≠ Strings.Join target "/" +:+ rest.
Proof.
  intros Ht Hne H. destruct target as [|t target]; [done|].
  apply Forall_cons in Ht as [Ht _].
  destruct target as [|u target].
  - simpl in H. destruct t as [|c [|d t]]; [done| |done].
    simpl in H. injection H as <- _. done.
  - change (Strings.Join (t :: u :: target) "/")
      with (t +:+ "/" +:+ Strings.Join (u :: target) "/") in H.
    destruct t as [|c [|d t]]; [done| |done]. by simpl in H.
Qed.
End GuardExact.

(** X9: for a template and a destination inside it, both given by
    cleaned absolute paths, the guard answers for an entry of the
    template exactly when the entry is the destination or lies below
    it. *)
Theorem isTargetOrChild_iff (source target entry : list string) :
  Forall (λ s, simple s = true) source → Forall (λ s, simple s = true) target →
  Forall (λ s, simple s = true) entry → target ≠ [] →
  Project.isTargetOrChild (abs_path (source ++ entry)) (abs_path source)
                          (abs_path (source ++ target)) = true ↔
  ∃ below, entry = target ++ below.
Proof.
  intros Hs Ht He Hne. split.
  - unfold Project.isTargetOrChild.
    rewrite (Rel_abs_below source entry), (Rel_abs source target) by done.
    intros H. apply orb_true_iff in H.
    assert (Strings.HasPrefix
              ((match entry with [] => "." | _ => Strings.Join entry "/" end) +:+ "/")
              (Strings.Join target "/" +:+ "/") = true) as Hpre.
    { destruct H as [->%String.eqb_eq|H]; [|done].
      rewrite <-(string_app_nil_r (_ +:+ "/")) at 1. apply HasPrefix_app. }
    apply HasPrefix_slash in Hpre. destruct entry as [|e entry].
    + destruct Hpre as [Heq|[rest Heq]].
      * rewrite <-(string_app_nil_r (Strings.Join target "/")) in Heq.
        by apply dot_not_below in Heq.
      * by apply dot_not_below in Heq.
    + destruct Hpre as [Heq|[rest Heq]].
      * apply (f_equal Filepath.elements) in Heq.
        rewrite !elements_join in Heq by done. exists []. by rewrite app_nil_r.
      * apply (f_equal Filepath.elements) in Heq.
        rewrite elements_app, !elements_join in Heq by done. by eexists.
  - intros [below ->]. apply Forall_app in He as [_ Hb].
    by apply isTargetOrChild_absolute.
Qed.

Lemma isTargetOrChild_iff_witness :
  Project.isTargetOrChild "/tmpl/out/demo/main.go" "/tmpl" "/tmpl/out" = true ∧
  Project.isTargetOrChild "/tmpl/outside/main.go" "/tmpl" "/tmpl/out" = false.
Proof.
  split.
  - apply (isTargetOrChild_iff ["tmpl"] ["out"] ["out"; "demo"; "main.go"]);
      [by repeat constructor..|done|]. by exists ["demo"; "main.go"].
  - apply not_true_iff_false. intros H.
    apply (isTargetOrChild_iff ["tmpl"] ["out"] ["outside"; "main.go"]) in H
      as [below [=]]; [by repeat constructor..|done].
Defined.

Section Destinations.
Import Strings Filepath Project.

Lemma split_on_snoc_dot x :
  split_on Separator (x +:+ "/" +:+ ".") = split_on Separator x ++ ["."].
Proof. change ("/" +:+ ".") with (String Separator "."). by rewrite split_on_app. Qed.

(** A dot at the end of a path is cleaned away. *)
Lemma Clean_dot x : x ≠ "" → Clean (x +:+ "/" +:+ ".") = Clean x.
Proof.
  intros Hx. unfold Clean.
  destruct (String.eqb_spec (x +:+ "/" +:+ ".") "") as [H|_].
  { by destruct x. }
  destruct (String.eqb_spec x "") as [|_]; [done|].
  by rewrite IsAbs_app, split_on_snoc_dot, foldl_app by done.
Qed.

Lemma Clean_rel segs :
  Forall (λ s, simple s = true) segs → segs ≠ [] →
  Clean (Strings.Join segs "/") = Strings.Join segs "/".
Proof.
  intros H Hne. rewrite Clean_elements; [|by apply rel_nonempty|by apply parts_join].
  rewrite <-(string_app_nil_r (Strings.Join segs "/")) at 1.
  rewrite rel_IsAbs, elements_join by done. by destruct segs.
Qed.
End Destinations.

(** X10: an entry of the template goes to the same place below the
    destination as it has below the template, for a destination given
    by an absolute path and for one given by a relative path; so two
    entries never go to one place. *)
Theorem joinDest_below (source target entry : list string) :
  Forall (λ s, simple s = true) source → Forall (λ s, simple s = true) target →
  Forall (λ s, simple s = true) entry →
  Project.joinDest (abs_path target) (abs_path source) (abs_path (source ++ entry))
  = abs_path (target ++ entry) ∧
  (target ≠ [] →
   Project.joinDest (Strings.Join target "/") (abs_path source)
                    (abs_path (source ++ entry))
   = Strings.Join (target ++ entry) "/").
Proof.
  intros Hs Ht He. unfold Project.joinDest. rewrite Rel_abs_below by done.
  destruct entry as [|e entry].
  - rewrite app_nil_r. split.
    + rewrite Join_nonempty_l, Clean_dot by done. by apply Clean_abs.
    + intros Hne. rewrite Join_nonempty_l, Clean_dot by by apply rel_nonempty.
      by apply Clean_rel.
  - split; [by apply Join_abs_rel|]. intros Hne. by apply Join_rel_rel.
Qed.

Lemma joinDest_below_witness :
  Project.joinDest "/out/demo" "/tmpl" "/tmpl/src/main.go" = "/out/demo/src/main.go" ∧
  Project.joinDest "out/demo" "/tmpl" "/tmpl/src/main.go" = "out/demo/src/main.go".
Proof.
  pose proof (joinDest_below ["tmpl"] ["out"; "demo"] ["src"; "main.go"]) as [H1 H2];
    [by repeat constructor..|].
  split; [exact H1|by apply H2].
Defined.

(** X11: the classifier never asks the walk to leave the directory of a
    file - it answers "skip the directory" for directories only, and
    only together with "skip" - and it always skips the root of the
    template. *)
Theorem shouldSkipEntry_shape (info : OS.FileInfo)
    (srcPath sourceRoot targetRoot absSourceDir : string)
    (targetInsideSource : bool) (ignores : list string) :
  let r := Project.shouldSkipEntry info srcPath sourceRoot targetRoot
                                   absSourceDir targetInsideSource ignores in
  (r.2 = true → r.1 = true ∧ OS.IsDir info = true) ∧
  (srcPath = sourceRoot → r.1 = true).
Proof.
  unfold Project.shouldSkipEntry. split.
  - destruct (OS.IsDir info); [|simpl].
    + destruct (Project.shouldSkipDir _); [done|]. simpl.
      destruct (targetInsideSource && _); [done|].
      destruct (Filepath.Rel sourceRoot srcPath) as [relPath []]; [done|].
      destruct (String.eqb relPath "."); [done|].
      by destruct (Utils.MatchIgnore _ _).
    + destruct (targetInsideSource && _); [done|].
      destruct (Filepath.Rel sourceRoot srcPath) as [relPath []]; [done|].
      destruct (String.eqb relPath "."); [done|].
      by destruct (Utils.MatchIgnore _ _).
  - intros ->. destruct (OS.IsDir info && _); [done|].
    destruct (targetInsideSource && _); [by destruct (OS.IsDir info)|].
    assert (Filepath.Rel sourceRoot sourceRoot = (".", false)) as ->; [|done].
    unfold Filepath.Rel. by rewrite String.eqb_refl.
Qed.

Section WalkInvariant.
Import OS Walk.
Context {L : Type}.
(** A property of the local variables and the process that the logging
    of a visit keeps. *)
Variable P : L → world → Prop.
Variable fn : WalkFunc L.
Hypothesis P_log : ∀ path l w, P l w → P l (log_visit path w).2.
Hypothesis P_fn : ∀ path info err l w,
  P l w → P (fn path info err l w).1.2 (fn path info err l w).2.

Lemma Stat_world name w : (Stat name w).2 = w.
Proof. apply Stat_same_world. Qed.

Lemma readDirNames_world dirname w : (readDirNames dirname w).2 = w.
Proof. unfold readDirNames. by destruct (fsys w !! resolve w dirname) as [[]|]. Qed.

Lemma call_invariant path info err l w :
  P l w → P (call fn path info err l w).1.2 (call fn path info err l w).2.
Proof.
  intros H. unfold call, mbind, M_bind.
  pose proof (P_log path l w H) as H'. destruct (log_visit path w) as [[] w1].
  by apply P_fn.
Qed.

Lemma walk_names_invariant
    (rec : string → FileInfo → L → world → option (option error * L * world))
    path names l w e l' w' :
  (∀ p i l w e l' w', rec p i l w = Some (e, l', w') → P l w → P l' w') →
  walk_names rec fn path names l w = Some (e, l', w') → P l w → P l' w'.
Proof.
  intros Hrec. revert l w. induction names as [|name names IH]; intros l w H HP.
  - simpl in H. by injection H as _ <- <-.
  - simpl in H. unfold Lstat in H.
    pose proof (Stat_world (Filepath.Join [path; name]) w) as Hw.
    destruct (Stat _ w) as [[[fi|] err] w1]; simpl in Hw; subst w1.
    + destruct (rec _ fi l w) as [[[err' l1] w2]|] eqn:Hr; [|done].
      pose proof (Hrec _ _ _ _ _ _ _ Hr HP) as HP'.
      destruct (_ && _); [by injection H as _ <- <-|]. by eapply IH.
    + pose proof (call_invariant (Filepath.Join [path; name]) None err l w HP) as HP'.
      destruct (call fn _ None err l w) as [[err' l1] w2].
      destruct (_ && _); [by injection H as _ <- <-|]. by eapply IH.
Qed.

(** What every call of the function keeps, the walk keeps. *)
Lemma walk_invariant fuel path info l w e l' w' :
  walk fuel fn path info l w = Some (e, l', w') → P l w → P l' w'.
Proof.
  revert path info l w e l' w'.
  induction fuel as [|fuel IH]; intros path info l w e l' w' H HP; [done|].
  simpl in H. destruct (negb (IsDir info)).
  - pose proof (call_invariant path (Some info) None l w HP) as HP'.
    destruct (call fn path (Some info) None l w) as [[e1 l1] w1].
    by injection H as _ <- <-.
  - pose proof (readDirNames_world path w) as Hw.
    destruct (readDirNames path w) as [[names err] w1]. simpl in Hw. subst w1.
    pose proof (call_invariant path (Some info) err l w HP) as HP'.
    destruct (call fn path (Some info) err l w) as [[err1 l1] w2].
    destruct (_ || _); [by injection H as _ <- <-|].
    eapply walk_names_invariant; [|done..]. apply IH.
Qed.

Lemma Walk_invariant fuel root l w e l' w' :
  Walk fuel root fn l w = Some (e, l', w') → P l w → P l' w'.
Proof.
  unfold Walk, Lstat. intros H HP. pose proof (Stat_world root w) as Hw.
  destruct (Stat root w) as [[[fi|] err] w1]; simpl in Hw; subst w1.
  - destruct (walk fuel fn root fi l w) as [[[e1 l1] w2]|] eqn:Hwalk; [|done].
    injection H as _ <- <-. by eapply walk_invariant.
  - pose proof (call_invariant root None err l w HP) as HP'.
    destruct (call fn root None err l w) as [[e1 l1] w2].
    by injection H as _ <- <-.
Qed.
End WalkInvariant.

Section Readers.
Import OS Project.

Lemma resolvePaths_world targetDir sourceDir w :
  (resolvePaths targetDir sourceDir w).2 = w ∧
  (resolvePaths targetDir sourceDir w).1.2 = None.
Proof.
  unfold resolvePaths, EvalSymlinks.
  destruct (fsys w !! resolve w (Filepath.Abs (cwd w) targetDir));
    by destruct (fsys w !! resolve w (Filepath.Abs (cwd w) sourceDir)).
Qed.

Lemma LoadIgnorePatterns_world root filename w :
  (Utils.LoadIgnorePatterns root filename w).2 = w.
Proof.
  unfold Utils.LoadIgnorePatterns, mbind, M_bind, ReadFile.
  by destruct (fsys w !! _) as [[]|].
Qed.

Lemma preview_walker_world tmpl targetDir absSourceDir targetInsideSource ignores
    path info err files w :
  (preview_walker tmpl targetDir absSourceDir targetInsideSource ignores
                  path info err files w).2 = w.
Proof.
  unfold preview_walker. destruct err; [done|].
  destruct (IsDir _ && _); [done|].
  destruct (targetInsideSource && _); [by destruct (IsDir _)|].
  destruct (Filepath.Rel _ _) as [relPath []]; [done|].
  destruct (Utils.MatchIgnore _ _); [by destruct (IsDir _)|].
  by destruct (String.eqb relPath ".").
Qed.
End Readers.

(** X12: a dry run writes nothing: when [PreviewFromTemplate] returns,
    the file system and the working directory are as they were. *)
Theorem PreviewFromTemplate_writes_nothing (fuel : nat) (tmpl : Project.Template)
    (projectName targetDir author : string) (extraVars : gmap string string)
    (w w' : OS.world) (summary : option Project.PreviewSummary)
    (err : option OS.error) :
  Project.PreviewFromTemplate fuel tmpl projectName targetDir author extraVars w
  = Some (summary, err, w') →
  OS.fsys w' = OS.fsys w ∧ OS.cwd w' = OS.cwd w.
Proof.
  unfold Project.PreviewFromTemplate. intros H.
  pose proof (resolvePaths_world targetDir (Project.Path tmpl) w) as [Hw He].
  destruct (Project.resolvePaths _ _ w) as [[[absT absS] e] w1].
  simpl in Hw, He. subst w1 e.
  pose proof (LoadIgnorePatterns_world absS ".foundryignore" w) as Hw.
  destruct (Utils.LoadIgnorePatterns _ _ w) as [ignores w1]. simpl in Hw. subst w1.
  destruct (Walk.Walk _ _ _ _ w) as [[[e files] w2]|] eqn:Hwalk; [|done].
  apply (Walk_invariant (λ _ w1, OS.fsys w1 = OS.fsys w ∧ OS.cwd w1 = OS.cwd w))
    in Hwalk; [|done| |done].
  - by destruct e; injection H as _ _ <-.
  - intros path info err' l w1 HP. by rewrite preview_walker_world.
Qed.

Lemma PreviewFromTemplate_writes_nothing_witness :
  ∃ summary w',
    Project.PreviewFromTemplate 5 (template_at "/tmpl") "demo" "/out/demo" "Ada" ∅
                                small_world = Some (Some summary, None, w') ∧
    Project.Files summary = ["/out/demo/README.md"; "/out/demo/src";
                             "/out/demo/src/main.go"] ∧
    OS.fsys w' = OS.fsys small_world ∧ OS.cwd w' = OS.cwd small_world.
Proof.
  set (r := Project.PreviewFromTemplate 5 (template_at "/tmpl") "demo" "/out/demo"
              "Ada" ∅ small_world).
  assert (match r with
          | Some (Some summary, None, _) =>
              Project.Files summary = ["/out/demo/README.md"; "/out/demo/src";
                                       "/out/demo/src/main.go"]
          | _ => False
          end) as Hr by (vm_compute; reflexivity).
  assert (∀ summary err w', r = Some (summary, err, w') →
            OS.fsys w' = OS.fsys small_world ∧ OS.cwd w' = OS.cwd small_world)
    as Hframe.
  { intros summary err w'. apply PreviewFromTemplate_writes_nothing. }
  destruct r as [[[[summary|] [e|]] w']|]; try done.
  exists summary, w'. split; [done|]. split; [done|]. by apply (Hframe _ _ _ eq_refl).
Defined.

Section Growth.
Import OS Project.

Lemma grows_refl fs : grows fs fs.
Proof. intros p [mode|mode content] H; [done|by exists content]. Qed.

Lemma grows_trans a b c : grows a b → grows b c → grows a c.
Proof.
  intros Hab Hbc p [mode|mode content] H.
  - apply (Hbc p (Directory mode)), (Hab p (Directory mode) H).
  - destruct (Hab p _ H) as [content' H']. apply (Hbc p _ H').
Qed.

Lemma grows_insert_new fs p n : fs !! p = None → grows fs (<[p := n]> fs).
Proof.
  intros Hp q [mode|mode content] H.
  - rewrite lookup_insert_ne by congruence. done.
  - exists content. rewrite lookup_insert_ne by congruence. done.
Qed.

Lemma grows_insert_file fs p mode content data :
  fs !! p = Some (Regular mode content) → grows fs (<[p := Regular mode data]> fs).
Proof.
  intros Hp q [m|m c] H.
  - rewrite lookup_insert_ne by congruence. done.
  - destruct (decide (p = q)) as [->|Hne].
    + exists data. rewrite lookup_insert_eq. congruence.
    + exists c. by rewrite lookup_insert_ne.
Qed.

Lemma mkdir_from_grows name parent elems perm fs :
  grows fs (mkdir_from name parent elems perm fs).2.
Proof.
  revert parent fs. induction elems as [|e elems IH]; intros parent fs.
  - apply grows_refl.
  - cbn [mkdir_from]. destruct (_ || _); [exact (IH _ _)|].
    destruct (String.eqb e ".."); [exact (IH _ _)|].
    destruct (fs !! Filepath.Join [parent; e]) as [[mode|mode content]|] eqn:Hp.
    + exact (IH _ _).
    + apply grows_refl.
    + eapply grows_trans; [|exact (IH _ _)]. by apply grows_insert_new.
Qed.

Lemma MkdirAll_grows path perm w :
  grows (fsys w) (fsys (MkdirAll path perm w).2) ∧
  cwd (MkdirAll path perm w).2 = cwd w.
Proof.
  unfold MkdirAll. destruct path as [|c rest]; [split; [apply grows_refl|done]|].
  destruct (Ascii.eqb c "/").
  - pose proof (mkdir_from_grows (String c rest) "/" (Strings.split_on "/" rest)
                  perm (fsys w)).
    by destruct (mkdir_from _ _ _ _ _).
  - pose proof (mkdir_from_grows (String c rest) (cwd w)
                  (Strings.split_on "/" (String c rest)) perm (fsys w)).
    by destruct (mkdir_from _ _ _ _ _).
Qed.

Lemma WriteFile_grows name data perm w :
  grows (fsys w) (fsys (WriteFile name data perm w).2) ∧
  cwd (WriteFile name data perm w).2 = cwd w.
Proof.
  unfold WriteFile.
  destruct (fsys w !! resolve w name) as [[mode|mode content]|] eqn:Hp.
  - split; [apply grows_refl|done].
  - split; [by eapply grows_insert_file|done].
  - destruct (fsys w !! Filepath.Dir _) as [[]|]; (split; [|done]);
      try apply grows_refl. by apply grows_insert_new.
Qed.

Lemma copyFileWithReplacements_grows range src dst projectName author mode
    extraVars w :
  grows (fsys w)
        (fsys (copyFileWithReplacements range src dst projectName author mode
                                        extraVars w).2) ∧
  cwd (copyFileWithReplacements range src dst projectName author mode
                                extraVars w).2 = cwd w.
Proof.
  unfold copyFileWithReplacements, mbind, M_bind, ReadFile.
  destruct (fsys w !! resolve w src) as [[m|m content]|];
    try (split; [apply grows_refl|done]).
  destruct (Utils.IsBinary content 8000); apply WriteFile_grows.
Qed.

Lemma walker_grows range sourceRoot targetRoot absSourceDir targetInsideSource
    projectName author extraVars ignores path info err u w :
  let r := walker range sourceRoot targetRoot absSourceDir targetInsideSource
                  projectName author extraVars ignores path info err u w in
  grows (fsys w) (fsys r.2) ∧ cwd r.2 = cwd w.
Proof.
  unfold walker. destruct err; [split; [apply grows_refl|done]|].
  destruct (shouldSkipEntry _ _ _ _ _ _ _) as [[] skipDir].
  { destruct skipDir; (split; [apply grows_refl|done]). }
  destruct (IsDir _); unfold mbind, M_bind, ensureDir.
  - pose proof (MkdirAll_grows (joinDest targetRoot sourceRoot path)
                  (Mode (default no_info info)) w).
    by destruct (MkdirAll _ _ w).
  - pose proof (copyFileWithReplacements_grows range path
                  (joinDest targetRoot sourceRoot path) projectName author
                  (Mode (default no_info info)) extraVars w).
    by destruct (copyFileWithReplacements _ _ _ _ _ _ _ w).
Qed.
End Growth.

(** X13: [CreateFromTemplate] only adds: when it returns, with or
    without an error, every entry that was in the file system is still
    there, a directory unchanged and a file still a file with the
    permission bits it had; and the working directory is the same. *)
Theorem CreateFromTemplate_only_adds
    (range : gmap string string → list (string * string)) (fuel : nat)
    (tmpl : Project.Template) (projectName targetDir author : string)
    (extraVars : gmap string string) (w w' : OS.world) (err : option OS.error) :
  Project.CreateFromTemplate range fuel tmpl projectName targetDir author
                             extraVars w = Some (err, w') →
  grows (OS.fsys w) (OS.fsys w') ∧ OS.cwd w' = OS.cwd w.
Proof.
  unfold Project.CreateFromTemplate, Project.ensureTargetDir, mbind, OS.M_bind.
  intros H. pose proof (MkdirAll_grows targetDir 493 w) as [Hg Hc].
  destruct (OS.MkdirAll targetDir 493 w) as [[e|] w1]; simpl in Hg, Hc.
  { by injection H as _ <-. }
  cbn in H.
  pose proof (resolvePaths_world targetDir (Project.Path tmpl) w1) as [Hw He].
  destruct (Project.resolvePaths _ _ w1) as [[[absT absS] e] w2].
  simpl in Hw, He. subst w2 e.
  pose proof (LoadIgnorePatterns_world absS ".foundryignore" w1) as Hw.
  destruct (Utils.LoadIgnorePatterns _ _ w1) as [ignores w2]. simpl in Hw. subst w2.
  unfold Project.copyTree in H.
  destruct (Walk.Walk _ _ _ _ w1) as [[[e u] w2]|] eqn:Hwalk; [|done].
  injection H as _ <-.
  apply (Walk_invariant
           (λ _ w2, grows (OS.fsys w) (OS.fsys w2) ∧ OS.cwd w2 = OS.cwd w))
    in Hwalk; [done|done| |by rewrite Hc].
  intros path info err' l w3 [HP1 HP2].
  pose proof (walker_grows range (Project.Path tmpl) targetDir absS
                (Project.isTargetInsideSource absS absT) projectName author
                extraVars ignores path info err' l w3) as [H1 H2].
  split; [by eapply grows_trans|congruence].
Qed.

Lemma CreateFromTemplate_only_adds_witness :
  ∃ w', Project.CreateFromTemplate map_to_list 5 (template_at "/tmpl") "demo"
                                   "/out/demo" "Ada" ∅ small_world
        = Some (None, w') ∧
        OS.fsys w' !! "/out/demo/src/main.go" = Some (OS.Regular 420 "package demo") ∧
        grows (OS.fsys small_world) (OS.fsys w') ∧
        OS.cwd w' = OS.cwd small_world.
Proof.
  set (r := Project.CreateFromTemplate map_to_list 5 (template_at "/tmpl") "demo"
              "/out/demo" "Ada" ∅ small_world).
  assert (match r with
          | Some (None, w') =>
              OS.fsys w' !! "/out/demo/src/main.go"
              = Some (OS.Regular 420 "package demo")
          | _ => False
          end) as Hr by (vm_compute; reflexivity).
  assert (∀ err w', r = Some (err, w') →
            grows (OS.fsys small_world) (OS.fsys w') ∧ OS.cwd w' = OS.cwd small_world)
    as Hframe.
  { intros err w'. apply CreateFromTemplate_only_adds. }
  destruct r as [[[e|] w']|]; try done.
  exists w'. split; [done|]. split; [done|]. by apply (Hframe _ _ eq_refl).
Defined.

(** X14: a copy of one file changes the destination and nothing else:
    every other path holds what it held and the working directory is
    the same; when the source cannot be read there is an error and
    nothing is written. After a copy without error the source is a
    regular file and the destination is a regular file that holds its
    content - the bytes themselves when the content is binary or holds
    no "{{", its expansion otherwise -, and a destination that was there
    has kept its permission bits. *)
Theorem copyFileWithReplacements_effect
    (range : gmap string string → list (string * string))
    (src dst projectName author : string) (mode : N)
    (extraVars : gmap string string) (w : OS.world) :
  Utils.enumerates range →
  let r := Project.copyFileWithReplacements range src dst projectName author
                                            mode extraVars w in
  (∀ p, p ≠ OS.resolve w dst → OS.fsys r.2 !! p = OS.fsys w !! p) ∧
  OS.cwd r.2 = OS.cwd w ∧
  ((OS.ReadFile src w).1.2 ≠ None → r.1 ≠ None ∧ r.2 = w) ∧
  (r.1 = None →
   ∃ srcMode content dstMode,
     OS.fsys w !! OS.resolve w src = Some (OS.Regular srcMode content) ∧
     OS.fsys r.2 !! OS.resolve w dst
     = Some (OS.Regular dstMode
               (if Utils.IsBinary content 8000 || negb (Strings.Contains content "{{")
                then content
                else Utils.ReplacePlaceholders range content projectName author
                                               extraVars)) ∧
     ∀ oldMode old,
       OS.fsys w !! OS.resolve w dst = Some (OS.Regular oldMode old) →
       dstMode = oldMode).
Proof.
  intros Hr. unfold Project.copyFileWithReplacements, mbind, OS.M_bind, OS.ReadFile.
  destruct (OS.fsys w !! OS.resolve w src) as [[srcMode|srcMode content]|] eqn:Hsrc;
    try (simpl; by repeat split).
  cbv beta iota zeta.
  set (data := if Utils.IsBinary content 8000 || negb (Strings.Contains content "{{")
               then content
               else Utils.ReplacePlaceholders range content projectName author
                                              extraVars).
  assert ((if Utils.IsBinary content 8000
           then OS.WriteFile dst content mode
           else OS.WriteFile dst (Utils.ReplacePlaceholders range content projectName
                                    author extraVars) mode) w
          = OS.WriteFile dst data mode w) as ->.
  { unfold data. destruct (Utils.IsBinary content 8000); [done|]. simpl.
    destruct (Strings.Contains content "{{") eqn:Hc; [done|]. simpl.
    by rewrite ReplacePlaceholders_absent. }
  unfold OS.WriteFile.
  destruct (OS.fsys w !! OS.resolve w dst) as [[m|m c]|] eqn:Hdst; simpl.
  - by repeat split.
  - split; [intros p Hp; by rewrite lookup_insert_ne|]. split; [done|].
    split; [by intros []|]. intros _. exists srcMode, content, m.
    rewrite lookup_insert_eq. repeat split. by intros oldMode old [= -> _].
  - destruct (OS.fsys w !! Filepath.Dir _) as [[]|]; simpl; try by repeat split.
    split; [intros p Hp; by rewrite lookup_insert_ne|]. split; [done|].
    split; [by intros []|]. intros _. exists srcMode, content, mode.
    by rewrite lookup_insert_eq.
Qed.

Lemma copyFileWithReplacements_effect_witness :
  let r := Project.copyFileWithReplacements rev_range "/tmpl/README.md"
             "/out/README.md" "demo" "Ada" 384 ∅ small_world in
  r.1 = None ∧
  (∃ dstMode, OS.fsys r.2 !! "/out/README.md" = Some (OS.Regular dstMode "# demo")) ∧
  OS.fsys r.2 !! "/tmpl/README.md" = OS.fsys small_world !! "/tmpl/README.md".
Proof.
  pose proof (copyFileWithReplacements_effect rev_range "/tmpl/README.md"
                "/out/README.md" "demo" "Ada" 384 ∅ small_world) as (H1 & _).
  { intros m. apply reverse_Permutation. }
  split; [by vm_compute|]. split; [by eexists; vm_compute|]. by apply H1.
Defined.

Section Directories.
Import Strings Filepath OS.

Lemma insert_sorted_perm x l : insert_sorted x l ≡ₚ x :: l.
Proof.
  induction l as [|y l IH]; [done|]. simpl. destruct (String.leb x y); [done|].
  rewrite IH. apply Permutation_swap.
Qed.

Lemma sort_strings_perm l : sort_strings l ≡ₚ l.
Proof.
  induction l as [|x l IH]; [done|]. unfold sort_strings. simpl.
  rewrite insert_sorted_perm. by constructor.
Qed.

Lemma height_le (fs : gmap string node) segs n :
  Forall (λ s, simple s = true) segs → fs !! abs_path segs = Some n →
  length segs ≤ height fs.
Proof.
  intros Hs Hk. unfold height.
  assert (abs_path segs ∈ (map_to_list fs).*1) as Hin.
  { apply list_elem_of_fmap. exists (abs_path segs, n). split; [done|].
    by apply elem_of_map_to_list. }
  revert Hin. generalize ((map_to_list fs).*1). intros l.
  induction l as [|k l IH]; [by intros ?%elem_of_nil|].
  intros [<-|Hin]%elem_of_cons; simpl.
  - rewrite elements_abs by done. lia.
  - specialize (IH Hin). lia.
Qed.

Lemma abs_snoc_ne a s : Forall (λ s, simple s = true) a → simple s = true →
  abs_path (a ++ [s]) ≠ abs_path a.
Proof.
  intros Ha Hs Heq. apply abs_path_inj in Heq; [|by apply Forall_app; split; [|constructor]|done].
  apply (f_equal length) in Heq. rewrite List.length_app in Heq. simpl in Heq. lia.
Qed.

Lemma list_snoc_inv {A} (l : list A) : l = [] ∨ ∃ front x, l = front ++ [x].
Proof.
  induction l as [|y l IH] using rev_ind; [by left|]. right. by exists l, y.
Qed.

(** The names that [readDirNames] lists in a directory: each once, the
    plain names of the entries one element below it. *)
Lemma readDirNames_names a w mode :
  normal (fsys w) → Forall (λ s, simple s = true) a →
  fsys w !! abs_path a = Some (Directory mode) →
  ∃ names,
    readDirNames (abs_path a) w = ((names, None), w) ∧
    NoDup names ∧
    ∀ s, s ∈ names ↔ simple s = true ∧ is_Some (fsys w !! abs_path (a ++ [s])).
Proof.
  intros Hn Ha Hdir. unfold readDirNames, resolve. rewrite Abs_abs by done.
  rewrite Hdir. eexists. split; [done|].
  set (children := List.filter _ _).
  assert (∀ k, k ∈ children ↔
               ∃ s, simple s = true ∧ k = abs_path (a ++ [s]) ∧ is_Some (fsys w !! k))
    as Hchildren.
  { intros k. unfold children. rewrite list_elem_of_In, List.filter_In, <-list_elem_of_In.
    rewrite list_elem_of_fmap. split.
    - intros [([k' n] & -> & Hk) Hp]. cbn [fst] in *.
      apply elem_of_map_to_list in Hk.
      apply andb_true_iff in Hp as [Hd%String.eqb_eq Hne%negb_true_iff%String.eqb_neq].
      destruct (Hn _ _ Hk) as (b & Hb & ->).
      destruct (list_snoc_inv b) as [->|(front & s & ->)].
      { change (abs_path []) with "/" in *. by vm_compute in Hd. }
      apply Forall_app in Hb as [Hfront [Hs _]%Forall_cons].
      rewrite Dir_abs in Hd by done. apply abs_path_inj in Hd; [|done..]. subst front.
      exists s. by rewrite Hk.
    - intros (s & Hs & -> & [n Hk]). split.
      + exists (abs_path (a ++ [s]), n). split; [done|]. by apply elem_of_map_to_list.
      + rewrite Dir_abs, String.eqb_refl, andb_true_l by done.
        apply negb_true_iff, String.eqb_neq. by apply abs_snoc_ne. }
  split.
  - rewrite sort_strings_perm. apply NoDup_fmap_2_strong.
    + intros k1 k2 (s1 & Hs1 & -> & _)%Hchildren (s2 & Hs2 & -> & _)%Hchildren.
      rewrite !Base_abs by done. by intros ->.
    + apply NoDup_filter_bool, NoDup_fst_map_to_list.
  - intros s. rewrite sort_strings_perm, list_elem_of_fmap. split.
    + intros (k & -> & (s' & Hs' & -> & Hk)%Hchildren).
      by rewrite Base_abs.
    + intros [Hs Hk]. exists (abs_path (a ++ [s])). rewrite Base_abs by done.
      split; [done|]. apply Hchildren. by exists s.
Qed.

End Directories.

Section Readers.
Import Strings Filepath OS Walk.
Context {L : Type}.
(** A function of the walk that leaves the file system alone. *)
Variable fn : WalkFunc L.
Hypothesis fn_reads : ∀ path info err l w, fsys (fn path info err l w).2 = fsys w.
Variable fs : gmap string node.
Hypothesis fs_normal : normal fs.

Lemma walk_reads fuel path info l w e l' w' :
  walk fuel fn path info l w = Some (e, l', w') → fsys w = fs → fsys w' = fs.
Proof.
  intros H Hw.
  by apply (walk_invariant (λ _ w, fsys w = fs) fn) in H;
    [| |intros; by rewrite fn_reads|].
Qed.

Lemma walk_names_ends rec a names l w :
  (∀ s fi l w, s ∈ names → fsys w = fs →
               ∃ e l' w', rec (abs_path (a ++ [s])) fi l w = Some (e, l', w') ∧
                          fsys w' = fs) →
  Forall (λ s, simple s = true) a →
  Forall (λ s, simple s = true) names →
  fsys w = fs →
  is_Some (walk_names rec fn (abs_path a) names l w).
Proof.
  intros Hrec Ha Hnames. revert l w.
  induction Hnames as [|s names Hs Hnames IH]; intros l w Hw; [done|].
  cbn [walk_names]. rewrite Join_abs_name by done. unfold Lstat.
  destruct (Stat_abs (a ++ [s]) w) as [below ->];
    [apply Forall_app; split; [done|by constructor]|by destruct a|].
  destruct (fsys w !! abs_path (a ++ [s])) as [n|].
  - destruct (Hrec s (info_of (abs_path (a ++ [s])) n) l w) as (e & l' & w' & -> & Hw');
      [by left|done|].
    destruct (_ && _); [done|]. apply IH; [|done].
    intros s' fi l1 w1 Hin. apply Hrec. by right.
  - pose proof (fn_reads (abs_path (a ++ [s])) None
                  (Some (missing (abs_path (a ++ [s])) below)) l
                  (log_visit (abs_path (a ++ [s])) w).2) as Hfn.
    unfold call, mbind, M_bind. simpl in *.
    destruct (fn _ _ _ _ _) as [[e l'] w']. simpl in Hfn.
    destruct (_ && _); [done|]. apply IH; [|congruence].
    intros s' fi l1 w1 Hin. apply Hrec. by right.
Qed.

(** A walk that only reads ends: the levels below a directory are fewer
    than the elements of the longest path. *)
Lemma walk_ends fuel a info l w :
  Forall (λ s, simple s = true) a → fsys w = fs →
  0 < fuel → height fs < fuel + length a →
  is_Some (walk fuel fn (abs_path a) info l w).
Proof.
  revert a info l w. induction fuel as [|fuel IH]; intros a info l w Ha Hw Hpos Hh; [lia|].
  cbn [walk]. destruct (negb (IsDir info)); [done|].
  destruct (fs !! abs_path a) as [[mode|mode content]|] eqn:Hdir.
  - destruct (readDirNames_names a w mode) as (names & -> & Hnd & Hnames);
      [by rewrite Hw|done|by rewrite Hw|].
    pose proof (fn_reads (abs_path a) (Some info) None l (log_visit (abs_path a) w).2)
      as Hfn.
    unfold call at 1, mbind, M_bind. simpl in *.
    destruct (fn _ _ _ _ _) as [[e l'] w']. simpl in Hfn.
    destruct (negb (is_nil e)); [done|].
    apply walk_names_ends; [|done| |congruence].
    + intros s fi l1 w1 [Hs [n Hk]]%Hnames Hw1. rewrite Hw in Hk.
      assert (Forall (λ s, simple s = true) (a ++ [s])) as Has
        by (apply Forall_app; split; [done|by constructor]).
      pose proof (height_le fs _ _ Has Hk) as Hle.
      rewrite List.length_app in Hle. simpl in Hle.
      destruct (IH (a ++ [s]) fi l1 w1 Has Hw1) as [[[e1 l2] w2] Hwalk].
      * lia.
      * rewrite List.length_app. simpl. lia.
      * exists e1, l2, w2. split; [done|]. by eapply walk_reads.
    + apply Forall_forall. intros s Hs%Hnames. tauto.
  - unfold readDirNames, resolve. rewrite Abs_abs, Hw, Hdir by done.
    unfold call, mbind, M_bind. simpl.
    by destruct (fn _ _ _ _ _) as [[e l'] w'].
  - unfold readDirNames, resolve. rewrite Abs_abs, Hw, Hdir by done.
    unfold call, mbind, M_bind. simpl.
    by destruct (fn _ _ _ _ _) as [[e l'] w'].
Qed.

Lemma Walk_ends fuel a l w :
  Forall (λ s, simple s = true) a → fsys w = fs → height fs < fuel →
  is_Some (Walk fuel (abs_path a) fn l w).
Proof.
  intros Ha Hw Hh. unfold Walk, Lstat.
  pose proof (Stat_world (abs_path a) w) as Hsame.
  destruct (Stat (abs_path a) w) as [[[fi|] err] w1]; simpl in Hsame; subst w1.
  - destruct (walk_ends fuel a fi l w) as [[[e l'] w'] ->];
      [done|done|lia|lia|done].
  - unfold call, mbind, M_bind. simpl. by destruct (fn _ _ _ _ _) as [[e l'] w'].
Qed.
End Readers.

(** X15: a dry run ends: for a template registered under a cleaned
    absolute path, [PreviewFromTemplate] returns as soon as the fuel
    exceeds the number of elements of the longest path in the file
    system, whatever the destination, the ignore patterns and the
    working directory. *)
Theorem PreviewFromTemplate_ends (fuel : nat) (tmpl : Project.Template)
    (projectName targetDir author : string) (extraVars : gmap string string)
    (w : OS.world) (source : list string) :
  normal (OS.fsys w) → Forall (λ s, simple s = true) source →
  Project.Path tmpl = abs_path source →
  height (OS.fsys w) < fuel →
  is_Some (Project.PreviewFromTemplate fuel tmpl projectName targetDir author
                                       extraVars w).
Proof.
  intros Hn Hs Hp Hh. unfold Project.PreviewFromTemplate.
  pose proof (resolvePaths_world targetDir (Project.Path tmpl) w) as [Hw He].
  destruct (Project.resolvePaths _ _ w) as [[[absT absS] e] w1].
  simpl in Hw, He. subst w1 e.
  pose proof (LoadIgnorePatterns_world absS ".foundryignore" w) as Hw.
  destruct (Utils.LoadIgnorePatterns _ _ w) as [ignores w1]. simpl in Hw. subst w1.
  rewrite Hp.
  destruct (Walk_ends (Project.preview_walker tmpl targetDir absS
                         (Project.isTargetInsideSource absS absT) ignores)
              (λ path info err l w1, f_equal OS.fsys
                 (preview_walker_world tmpl targetDir absS _ ignores path info err l w1))
              (OS.fsys w) Hn fuel source [] w Hs eq_refl Hh) as [[[e files] w1] ->].
  by destruct e.
Qed.

Lemma PreviewFromTemplate_ends_witness :
  is_Some (Project.PreviewFromTemplate 4 (template_at "/tmpl") "demo" "demo" "Ada" ∅
                                       inside_world).
Proof.
  apply (PreviewFromTemplate_ends 4 (template_at "/tmpl") "demo" "demo" "Ada" ∅
           inside_world ["tmpl"]).
  - intros k n Hk. unfold inside_world in Hk. cbn [OS.fsys] in Hk.
    rewrite !lookup_insert_Some, lookup_empty in Hk.
    destruct Hk as [[<- _]|[_ [[<- _]|[_ [[<- _]|[_ ?]]]]]]; [| | |done].
    + by exists ["tmpl"; "a.txt"]; split; [repeat constructor|].
    + by exists ["tmpl"]; split; [repeat constructor|].
    + by exists []; split; [constructor|].
  - by repeat constructor.
  - done.
  - vm_compute. lia.
Defined.

Section ConfigTemplates.
Import Project Config.

Lemma find_over_app {A} (f : A → bool) (l l' : list A) :
  List.find f (l ++ l') =
  match List.find f l with
  | Some y => Some y
  | None => List.find f l'
  end.
Proof. induction l as [|x l IH]; [done|]. simpl. by destruct (f x). Qed.

Lemma find_name_app name (pre post : list Template) :
  name ∉ TemplateName <$> pre →
  List.find (λ t, String.eqb (TemplateName t) name) (pre ++ post) =
  List.find (λ t, String.eqb (TemplateName t) name) post.
Proof.
  induction pre as [|t pre IH]; [done|]. rewrite fmap_cons, not_elem_of_cons.
  intros [Hne Hpre]. simpl. destruct (String.eqb_spec (TemplateName t) name); [done|].
  by apply IH.
Qed.

Lemma find_name_None name (ts : list Template) :
  List.find (λ t, String.eqb (TemplateName t) name) ts = None ↔
  name ∉ TemplateName <$> ts.
Proof.
  induction ts as [|t ts IH]; [by split; [intros _ ?%elem_of_nil|]|].
  rewrite fmap_cons, not_elem_of_cons. simpl.
  destruct (String.eqb_spec (TemplateName t) name) as [->|Hne].
  - split; [done|]. by intros [? _].
  - rewrite IH. split; [by split|by intros [_ ?]].
Qed.

Lemma existsb_name name (ts : list Template) :
  existsb (λ t, String.eqb (TemplateName t) name) ts = true ↔
  name ∈ TemplateName <$> ts.
Proof.
  induction ts as [|t ts IH]; [split; [done|by intros ?%elem_of_nil]|].
  rewrite fmap_cons, elem_of_cons. simpl. rewrite orb_true_iff, IH.
  by destruct (String.eqb_spec (TemplateName t) name) as [->|Hne]; split;
    intros [?|?]; auto.
Qed.

(** What the first loop of [AddTemplate] does to the slice. *)
Lemma replace_first_spec tmpl (ts : list Template) :
  match replace_first tmpl ts with
  | None => TemplateName tmpl ∉ TemplateName <$> ts
  | Some ts' =>
      ∃ pre t post, ts = pre ++ t :: post ∧ ts' = pre ++ tmpl :: post ∧
                    TemplateName t = TemplateName tmpl ∧
                    TemplateName tmpl ∉ TemplateName <$> pre
  end.
Proof.
  induction ts as [|t ts IH]; [by intros ?%elem_of_nil|]. simpl.
  destruct (String.eqb_spec (TemplateName t) (TemplateName tmpl)) as [Heq|Hne].
  - exists [], t, ts. repeat split; [done|]. by intros ?%elem_of_nil.
  - destruct (replace_first tmpl ts) as [ts'|]; simpl.
    + destruct IH as (pre & t' & post & -> & -> & Ht & Hpre).
      exists (t :: pre), t', post. repeat split; [done|].
      rewrite fmap_cons, not_elem_of_cons. by split.
    + rewrite not_elem_of_cons. by split.
Qed.

Lemma find_filter_other name other (ts : list Template) :
  other ≠ name →
  List.find (λ t, String.eqb (TemplateName t) other)
            (List.filter (λ t, negb (String.eqb (TemplateName t) name)) ts) =
  List.find (λ t, String.eqb (TemplateName t) other) ts.
Proof.
  intros Hne. induction ts as [|t ts IH]; [done|]. simpl.
  destruct (String.eqb_spec (TemplateName t) name) as [Ht|Ht]; simpl.
  - destruct (String.eqb_spec (TemplateName t) other); [congruence|done].
  - by destruct (String.eqb_spec (TemplateName t) other).
Qed.

Lemma filter_name_absent name (ts : list Template) :
  name ∉ TemplateName <$>
           List.filter (λ t, negb (String.eqb (TemplateName t) name)) ts.
Proof.
  induction ts as [|t ts IH]; [by intros ?%elem_of_nil|]. simpl.
  destruct (String.eqb_spec (TemplateName t) name) as [Ht|Ht]; simpl; [done|].
  rewrite not_elem_of_cons. by split.
Qed.
End ConfigTemplates.

(** What [GetTemplate] finds once [AddTemplate] has run. *)
Lemma AddTemplate_lookup (tmpl : Project.Template)
    (file : Config.store) :
  let r := Config.AddTemplate tmpl file in
  r.1 = None ∧
  Config.GetTemplate (Project.TemplateName tmpl) r.2 = inl tmpl ∧
  ∀ name, name ≠ Project.TemplateName tmpl →
          Config.GetTemplate name r.2 = Config.GetTemplate name file.
Proof.
  unfold Config.AddTemplate, Config.GetTemplate.
  pose proof (replace_first_spec tmpl (Config.Templates (Config.LoadConfig file))) as H.
  destruct (Config.replace_first _ _) as [ts'|]; simpl.
  - destruct H as (pre & t & post & Hts & -> & Ht & Hpre). rewrite Hts.
    split; [done|]. split.
    + rewrite find_name_app by done. simpl. by rewrite String.eqb_refl.
    + intros name Hne.
      rewrite !find_over_app. simpl.
      destruct (String.eqb_spec (Project.TemplateName tmpl) name); [congruence|].
      destruct (String.eqb_spec (Project.TemplateName t) name); [congruence|done].
  - split; [done|]. split.
    + rewrite find_name_app by done. simpl. by rewrite String.eqb_refl.
    + intros name Hne.
      destruct (List.find _ (Config.Templates (Config.LoadConfig file))) as [t|] eqn:Hf.
      * by rewrite find_over_app, Hf.
      * apply find_name_None in Hf. rewrite find_name_app by done. simpl.
        by destruct (String.eqb_spec (Project.TemplateName tmpl) name); [congruence|].
Qed.

(** What [RemoveTemplate] leaves. *)
Lemma RemoveTemplate_effect (name : string) (file : Config.store) :
  let r := Config.RemoveTemplate name file in
  (name ∉ template_names file → r = (Some (Config.not_found name), file)) ∧
  (name ∈ template_names file →
   r.1 = None ∧
   Config.GetTemplate name r.2 = inr (Config.not_found name) ∧
   (∀ other, other ≠ name →
             Config.GetTemplate other r.2 = Config.GetTemplate other file) ∧
   Config.LanguageDefaults (Config.LoadConfig r.2)
   = Config.LanguageDefaults (Config.LoadConfig file)).
Proof.
  unfold Config.RemoveTemplate, template_names, Config.ListTemplates.
  pose proof (existsb_name name (Config.Templates (Config.LoadConfig file))) as Hex.
  destruct (existsb _ _); simpl.
  - split; [intros Hn; destruct Hn; by apply Hex|]. intros _.
    split; [done|]. unfold Config.GetTemplate. simpl. split; [|split; [|done]].
    + pose proof (filter_name_absent name (Config.Templates (Config.LoadConfig file))) as Hf.
      apply find_name_None in Hf. by rewrite Hf.
    + intros other Hne. by rewrite find_filter_other.
  - split; [done|]. intros Hin. apply Hex in Hin. done.
Qed.

(** X16: once [AddTemplate] has returned without an error, the template
    is the one that [GetTemplate] returns for its name, whatever was in
    the configuration before, and the answer for every other name is as
    it was. *)
Theorem AddTemplate_then_GetTemplate (tmpl : Project.Template)
    (file : Config.store) :
  let r := Config.AddTemplate tmpl file in
  r.1 = None →
  Config.GetTemplate (Project.TemplateName tmpl) r.2 = inl tmpl ∧
  ∀ name, name ≠ Project.TemplateName tmpl →
          Config.GetTemplate name r.2 = Config.GetTemplate name file.
Proof. intros r _. apply AddTemplate_lookup. Qed.

Lemma AddTemplate_then_GetTemplate_witness :
  let r := Config.AddTemplate (template_named "api" "Go")
             (Config.AddTemplate (template_named "cli" "Go") None).2 in
  Config.GetTemplate "api" r.2 = inl (template_named "api" "Go") ∧
  Config.GetTemplate "cli" r.2 = inl (template_named "cli" "Go").
Proof.
  pose proof (AddTemplate_then_GetTemplate (template_named "api" "Go")
                (Config.AddTemplate (template_named "cli" "Go") None).2 eq_refl)
    as [H1 H2].
  split; [exact H1|]. by rewrite (H2 "cli").
Defined.

(** X17: [AddTemplate] keeps the names of the templates distinct: a
    template whose name is taken replaces the template of that name
    where it stands, the other templates and their order as they were,
    and a template with a new name goes to the end; nothing else of the
    configuration changes. *)
Theorem AddTemplate_names (tmpl : Project.Template) (file : Config.store) :
  let r := Config.AddTemplate tmpl file in
  (Project.TemplateName tmpl ∈ template_names file →
   template_names r.2 = template_names file) ∧
  (Project.TemplateName tmpl ∉ template_names file →
   Config.ListTemplates r.2 = Config.ListTemplates file ++ [tmpl]) ∧
  (NoDup (template_names file) → NoDup (template_names r.2)) ∧
  Config.LanguageDefaults (Config.LoadConfig r.2)
  = Config.LanguageDefaults (Config.LoadConfig file) ∧
  Config.Author (Config.LoadConfig r.2) = Config.Author (Config.LoadConfig file).
Proof.
  unfold Config.AddTemplate, template_names, Config.ListTemplates.
  pose proof (replace_first_spec tmpl (Config.Templates (Config.LoadConfig file))) as H.
  destruct (Config.replace_first _ _) as [ts'|]; simpl.
  - destruct H as (pre & t & post & Hts & -> & Ht & Hpre). rewrite Hts.
    assert (Project.TemplateName <$> pre ++ tmpl :: post
            = Project.TemplateName <$> pre ++ t :: post) as Hn.
    { by rewrite !fmap_app, !fmap_cons, Ht. }
    rewrite Hn. repeat split; try done.
    intros Hnot. destruct Hnot. rewrite fmap_app, fmap_cons, Ht.
    apply elem_of_app. right. by left.
  - repeat split; try done.
    intros Hnd. rewrite fmap_app. apply NoDup_app. split; [done|]. split.
    + intros x Hx ->%list_elem_of_singleton. done.
    + apply NoDup_singleton.
Qed.

(** X18: [RemoveTemplate] for a name that no template has returns an
    error and leaves the file as it is; for a name in use it removes
    every template of that name - [GetTemplate] no longer finds one -
    and leaves the other templates and the language defaults alone,
    the default of a language that names the removed template
    included. *)
Theorem RemoveTemplate_spec (name : string) (file : Config.store) :
  let r := Config.RemoveTemplate name file in
  (name ∉ template_names file → r = (Some (Config.not_found name), file)) ∧
  (name ∈ template_names file →
   r.1 = None ∧
   Config.GetTemplate name r.2 = inr (Config.not_found name) ∧
   (∀ other, other ≠ name →
             Config.GetTemplate other r.2 = Config.GetTemplate other file) ∧
   Config.LanguageDefaults (Config.LoadConfig r.2)
   = Config.LanguageDefaults (Config.LoadConfig file)).
Proof. apply RemoveTemplate_effect. Qed.

(** The default of a language once set and once cleared. *)
Lemma language_default_effect (language templateName : string)
    (file : Config.store) :
  let set := Config.SetLanguageDefault language templateName file in
  let cleared := Config.ClearLanguageDefault language file in
  (templateName ∉ template_names file →
   set = (Some (Config.not_found templateName), file)) ∧
  (templateName ∈ template_names file →
   set.1 = None ∧
   Config.GetLanguageDefault language set.2 = templateName ∧
   template_names set.2 = template_names file ∧
   ∀ other, other ≠ language →
            Config.GetLanguageDefault other set.2
            = Config.GetLanguageDefault other file) ∧
  cleared.1 = None ∧
  Config.GetLanguageDefault language cleared.2 = "" ∧
  ∀ other, other ≠ language →
           Config.GetLanguageDefault other cleared.2
           = Config.GetLanguageDefault other file.
Proof.
  unfold Config.SetLanguageDefault, Config.ClearLanguageDefault,
    Config.GetLanguageDefault, template_names, Config.ListTemplates.
  pose proof (existsb_name templateName (Config.Templates (Config.LoadConfig file)))
    as Hex.
  split; [|split; [|split; [done|split]]].
  - intros Hn. destruct (existsb _ _); [|done]. destruct Hn. by apply Hex.
  - intros Hin. apply Hex in Hin. rewrite Hin. simpl.
    split; [done|]. split; [by rewrite lookup_insert_eq|]. split; [done|].
    intros other Hne. by rewrite lookup_insert_ne.
  - simpl. by rewrite lookup_delete_eq.
  - intros other Hne. simpl. by rewrite lookup_delete_ne.
Qed.

(** The languages that [IsDefaultTemplate] lists. *)
Lemma IsDefaultTemplate_elem
    (range : gmap string string → list (string * string))
    (templateName : string) (file : Config.store) :
  Utils.enumerates range →
  NoDup (Config.IsDefaultTemplate range templateName file) ∧
  ∀ language,
    language ∈ Config.IsDefaultTemplate range templateName file ↔
    Config.LanguageDefaults (Config.LoadConfig file) !! language
    = Some templateName.
Proof.
  intros Hr. unfold Config.IsDefaultTemplate.
  set (m := Config.LanguageDefaults (Config.LoadConfig file)).
  assert (NoDup (range m).*1) as Hnd.
  { rewrite (Hr m). apply NoDup_fst_map_to_list. }
  split.
  - revert Hnd. generalize (range m). intros l. induction l as [|[k v] l IH]; [done|].
    rewrite fmap_cons, NoDup_cons. intros [Hk Hl]. simpl.
    destruct (String.eqb v templateName); [|by apply IH].
    rewrite fmap_cons, NoDup_cons. split; [|by apply IH].
    intros Hin. apply Hk. apply list_elem_of_fmap in Hin as ([k' v'] & -> & Hin).
    apply list_elem_of_In, filter_In in Hin as [Hin _].
    apply list_elem_of_fmap. exists (k', v'). split; [done|]. by apply list_elem_of_In.
  - intros language. rewrite list_elem_of_fmap. split.
    + intros ([k v] & -> & Hin). apply list_elem_of_In, filter_In in Hin as [Hin Hv].
      apply String.eqb_eq in Hv. simpl in Hv. subst v.
      apply list_elem_of_In in Hin. rewrite (Hr m) in Hin.
      by apply elem_of_map_to_list in Hin.
    + intros Hl. exists (language, templateName). split; [done|].
      apply list_elem_of_In, filter_In. split.
      * apply list_elem_of_In. rewrite (Hr m). by apply elem_of_map_to_list.
      * apply String.eqb_refl.
Qed.

(** X19: a default can be set only to a template that is saved - for
    another name [SetLanguageDefault] returns an error and leaves the
    file as it is; once set, [GetLanguageDefault] returns it for that
    language and what it returned before for every other; after
    [ClearLanguageDefault] it returns the empty string for that
    language, and again what it returned before for every other. *)
Theorem language_default_round_trip (language templateName : string)
    (file : Config.store) :
  let set := Config.SetLanguageDefault language templateName file in
  let cleared := Config.ClearLanguageDefault language file in
  (templateName ∉ template_names file →
   set = (Some (Config.not_found templateName), file)) ∧
  (templateName ∈ template_names file →
   set.1 = None ∧
   Config.GetLanguageDefault language set.2 = templateName ∧
   template_names set.2 = template_names file ∧
   ∀ other, other ≠ language →
            Config.GetLanguageDefault other set.2
            = Config.GetLanguageDefault other file) ∧
  cleared.1 = None ∧
  Config.GetLanguageDefault language cleared.2 = "" ∧
  ∀ other, other ≠ language →
           Config.GetLanguageDefault other cleared.2
           = Config.GetLanguageDefault other file.
Proof. apply language_default_effect. Qed.

(** X20: whatever the order in which the language defaults are
    enumerated, [IsDefaultTemplate] lists, each once, exactly the
    languages whose default is the template. *)
Theorem IsDefaultTemplate_spec
    (range : gmap string string → list (string * string))
    (templateName : string) (file : Config.store) :
  Utils.enumerates range →
  NoDup (Config.IsDefaultTemplate range templateName file) ∧
  ∀ language,
    language ∈ Config.IsDefaultTemplate range templateName file ↔
    Config.LanguageDefaults (Config.LoadConfig file) !! language
    = Some templateName.
Proof. apply IsDefaultTemplate_elem. Qed.

Lemma IsDefaultTemplate_spec_witness :
  let file :=
    (Config.SetLanguageDefault "Go" "api"
       (Config.AddTemplate (template_named "api" "Go") None).2).2 in
  NoDup (Config.IsDefaultTemplate rev_range "api" file) ∧
  ∀ language,
    language ∈ Config.IsDefaultTemplate rev_range "api" file ↔
    Config.LanguageDefaults (Config.LoadConfig file) !! language = Some "api".
Proof.
  apply (IsDefaultTemplate_spec rev_range "api").
  intros m. apply reverse_Permutation.
Defined.

Section ConfigValues.
Import Config.

Lemma LoadConfig_SaveConfig cfg : LoadConfig (SaveConfig cfg) = cfg.
Proof. done. Qed.
End ConfigValues.

(** X21: a value of the type that its key holds is what
    [GetConfigValue] returns once [SetConfigValue] has stored it; a
    value of another type is dropped without an error, the
    configuration as it was; and a key that is not one of the nine -
    "git" among them, which [GetConfigValue] answers - is an error that
    leaves the file as it is. *)
Theorem SetConfigValue_then_GetConfigValue (key : string) (v : Config.value)
    (file : Config.store) :
  let r := Config.SetConfigValue key v file in
  (fits key v = true → r.1 = None ∧ Config.GetConfigValue key r.2 = (Some v, None)) ∧
  (key ∈ settable → fits key v = false →
   r.1 = None ∧ Config.LoadConfig r.2 = Config.LoadConfig file) ∧
  (key ∉ settable →
   r = (Some (OS.ErrorString ("unknown config key: " +:+ key)), file)).
Proof.
  unfold settable, fits. split; [|split].
  - destruct v; intros Hk%bool_decide_eq_true;
      rewrite !elem_of_cons, elem_of_nil in Hk;
      repeat (destruct Hk as [->|Hk]; [done|]); done.
  - intros Hin Hfit. rewrite !elem_of_cons, elem_of_nil in Hin.
    destruct v; apply bool_decide_eq_false in Hfit;
      rewrite !elem_of_cons, elem_of_nil in Hfit;
      repeat (destruct Hin as [->|Hin]; [done || (exfalso; tauto)|]); done.
  - intros Hn. rewrite !not_elem_of_cons in Hn. unfold Config.SetConfigValue.
    repeat match goal with
           | |- context [String.eqb key ?s] =>
               destruct (String.eqb_spec key s) as [->|?]; [exfalso; tauto|]
           end.
    done.
Qed.

Lemma SetConfigValue_then_GetConfigValue_witness :
  Config.GetConfigValue "author"
    (Config.SetConfigValue "author" (Config.VString "Ada") None).2
  = (Some (Config.VString "Ada"), None) ∧
  Config.LoadConfig (Config.SetConfigValue "docker" (Config.VString "yes") None).2
  = Config.LoadConfig None ∧
  Config.SetConfigValue "git" (Config.VBool true) None
  = (Some (OS.ErrorString "unknown config key: git"), None) ∧
  Config.GetConfigValue "git" None = (Some (Config.VBool false), None).
Proof.
  pose proof (SetConfigValue_then_GetConfigValue "author" (Config.VString "Ada") None)
    as (H1 & _ & _).
  pose proof (SetConfigValue_then_GetConfigValue "docker" (Config.VString "yes") None)
    as (_ & H2 & _).
  pose proof (SetConfigValue_then_GetConfigValue "git" (Config.VBool true) None)
    as (_ & _ & H3).
  split; [by apply H1|]. split; [apply H2; [|done]|].
  { apply list_elem_of_In. simpl. tauto. }
  split; [|done]. apply H3. intros Hin%list_elem_of_In. simpl in Hin.
  repeat (destruct Hin as [Hin|Hin]; [done|]). done.
Defined.

Section LanguageCounts.
Import OS Walk TemplatePkg.

Lemma most_common_fold (l : list (string * Z)) (acc : Z * string) :
  let r := foldl (λ '(maxCount, primaryLang) '(lang, count),
                    if (maxCount <? count)%Z then (count, lang)
                    else (maxCount, primaryLang)) acc l in
  (acc.1 ≤ r.1)%Z ∧
  (∀ lang count, (lang, count) ∈ l → (count ≤ r.1)%Z) ∧
  (r = acc ∨ (r.2, r.1) ∈ l).
Proof.
  revert acc. induction l as [|[lang count] l IH]; intros [maxCount primaryLang].
  - simpl. split; [lia|]. split; [by intros ? ? ?%elem_of_nil|by left].
  - simpl. destruct (Z.ltb_spec maxCount count) as [Hlt|Hge].
    + destruct (IH (count, lang)) as (H1 & H2 & H3). simpl in *.
      split; [lia|]. split.
      * intros lang' count' [[= -> ->]|Hin]%elem_of_cons; [done|]. by eapply H2.
      * right. destruct H3 as [->|H3]; [by left|by right].
    + destruct (IH (maxCount, primaryLang)) as (H1 & H2 & H3). simpl in *.
      split; [lia|]. split.
      * intros lang' count' [[= -> ->]|Hin]%elem_of_cons; [lia|]. by eapply H2.
      * destruct H3 as [->|H3]; [by left|]. right. by right.
Qed.

(** The language that the last loop picks has a count that no other
    exceeds. *)
Lemma most_common_spec range (languageCounts : gmap string Z) :
  enumerates range →
  (∀ lang count, languageCounts !! lang = Some count → (0 < count)%Z) →
  languageCounts ≠ ∅ →
  let r := most_common range languageCounts in
  languageCounts !! r.2 = Some r.1 ∧
  ∀ lang count, languageCounts !! lang = Some count → (count ≤ r.1)%Z.
Proof.
  intros Hr Hpos Hne. unfold most_common.
  destruct (most_common_fold (range languageCounts) (0%Z, "Unknown"))
    as (H1 & H2 & H3).
  set (r := foldl _ _ _) in *. simpl in H1.
  assert (∀ lang count, languageCounts !! lang = Some count → (count ≤ r.1)%Z) as Hmax.
  { intros lang count Hl. apply (H2 lang). rewrite (Hr languageCounts).
    by apply elem_of_map_to_list. }
  split; [|done]. destruct H3 as [Heq|Hin].
  - apply map_choose in Hne as (lang & count & Hl).
    pose proof (Hpos _ _ Hl). pose proof (Hmax _ _ Hl). rewrite Heq in *. simpl in *. lia.
  - rewrite (Hr languageCounts) in Hin. by apply elem_of_map_to_list in Hin.
Qed.

Lemma add_count_positive lang n (languageCounts : gmap string Z) :
  (0 < n)%Z →
  (∀ lang count, languageCounts !! lang = Some count → (0 < count)%Z) →
  ∀ lang' count, add_count lang n languageCounts !! lang' = Some count →
                 (0 < count)%Z.
Proof.
  intros Hn Hpos lang' count. unfold add_count.
  destruct (decide (lang = lang')) as [->|Hne].
  - rewrite lookup_insert_eq. intros [= <-].
    destruct (languageCounts !! lang') as [c|] eqn:Hc; simpl; [|lia].
    pose proof (Hpos _ _ Hc). lia.
  - rewrite lookup_insert_ne by done. apply Hpos.
Qed.

Lemma detect_walker_keeps dir ignores path info err languageCounts w :
  let r := detect_walker dir ignores path info err languageCounts w in
  r.2 = w ∧
  ((∀ lang count, languageCounts !! lang = Some count → (0 < count)%Z) →
   ∀ lang count, r.1.2 !! lang = Some count → (0 < count)%Z).
Proof.
  unfold detect_walker. destruct err; [done|].
  destruct (IsDir _).
  - destruct (_ || _); [done|]. destruct (Filepath.Rel dir path) as [rel e].
    by destruct (matchIgnore rel ignores).
  - destruct (Filepath.Rel dir path) as [rel e].
    destruct (matchIgnore rel ignores); [done|].
    destruct (languageIndicators !! Filepath.Base path) as [lang|].
    { split; [done|]. by apply add_count_positive. }
    destruct (languageIndicators !! Filepath.Ext path) as [lang|]; [|done].
    split; [done|]. by apply add_count_positive.
Qed.

Lemma loadIgnorePatterns_world root w : (loadIgnorePatterns root w).2 = w.
Proof.
  unfold loadIgnorePatterns, mbind, M_bind, ReadFile.
  by destruct (fsys w !! _) as [[]|].
Qed.

Lemma scan_walker_world absPath ignores p info err files w :
  (scan_walker absPath ignores p info err files w).2 = w.
Proof.
  unfold scan_walker. destruct err; [done|]. destruct (negb _); [|done].
  destruct (Filepath.Rel absPath p) as [rel e]. by destruct (matchIgnore rel ignores).
Qed.

Lemma DetectLanguage_reads range fuel dir w lang err w' :
  DetectLanguage range fuel dir w = Some (lang, err, w') →
  fsys w' = fsys w ∧ cwd w' = cwd w.
Proof.
  unfold DetectLanguage. intros H. pose proof (Stat_world dir w) as Hw.
  destruct (Stat dir w) as [[info e] w1]. simpl in Hw. subst w1.
  destruct (IsNotExist e); [by injection H as _ _ <-|].
  pose proof (loadIgnorePatterns_world dir w) as Hw.
  destruct (loadIgnorePatterns dir w) as [ignores w1]. simpl in Hw. subst w1.
  destruct (Walk _ _ _ _ w) as [[[e1 counts] w2]|] eqn:Hwalk; [|done].
  apply (Walk_invariant (λ _ w1, fsys w1 = fsys w ∧ cwd w1 = cwd w))
    in Hwalk; [|done| |done].
  - destruct e1; [by injection H as _ _ <-|].
    by destruct (size counts =? 0)%nat; injection H as _ _ <-.
  - intros path info' err' l w1 HP.
    by rewrite (proj1 (detect_walker_keeps dir ignores path info' err' l w1)).
Qed.
End LanguageCounts.

(** X22: when [DetectLanguage] returns a language, the walk has ended
    with some counts and nothing has been written; the language is
    "Unknown" when nothing was counted, and otherwise one that was
    counted and whose count no other exceeds, whatever the order in
    which the counts are enumerated. *)
Theorem DetectLanguage_most_common
    (range : gmap string Z → list (string * Z)) (fuel : nat) (dir lang : string)
    (w w' : OS.world) :
  TemplatePkg.enumerates range →
  TemplatePkg.DetectLanguage range fuel dir w = Some (lang, None, w') →
  OS.fsys w' = OS.fsys w ∧
  ∃ languageCounts,
    language_counts fuel dir w = Some languageCounts ∧
    (languageCounts = ∅ ∧ lang = "Unknown" ∨
     ∃ count, languageCounts !! lang = Some count ∧
              ∀ other count', languageCounts !! other = Some count' →
                              (count' ≤ count)%Z).
Proof.
  intros Hr H. split; [by apply DetectLanguage_reads in H as [? _]|].
  unfold TemplatePkg.DetectLanguage in H. unfold language_counts.
  pose proof (Stat_world dir w) as Hw.
  destruct (OS.Stat dir w) as [[info e] w1]. simpl in Hw. subst w1.
  destruct (OS.IsNotExist e); [done|].
  pose proof (loadIgnorePatterns_world dir w) as Hw.
  destruct (TemplatePkg.loadIgnorePatterns dir w) as [ignores w1]. simpl in Hw. subst w1.
  destruct (Walk.Walk _ _ _ _ w) as [[[e1 counts] w2]|] eqn:Hwalk; [|done].
  destruct e1; [done|]. exists counts. split; [done|].
  assert (∀ lang count, counts !! lang = Some count → (0 < count)%Z) as Hpos.
  { set (P := λ (counts : gmap string Z) (_ : OS.world),
                ∀ lang count, counts !! lang = Some count → (0 < count)%Z).
    assert (∀ path info err l w,
              P l w →
              P (TemplatePkg.detect_walker dir ignores path info err l w).1.2
                (TemplatePkg.detect_walker dir ignores path info err l w).2) as Hfn.
    { intros path info' err' l w1 HP.
      exact (proj2 (detect_walker_keeps dir ignores path info' err' l w1) HP). }
    apply (Walk_invariant P _ (λ _ _ _ HP, HP) Hfn _ _ _ _ _ _ _ Hwalk).
    by intros ? ?. }
  destruct (Nat.eqb_spec (size counts) 0) as [Hs|Hs].
  - injection H as <- _. left. split; [|done]. by apply map_size_empty_iff.
  - injection H as <- _. right.
    assert (counts ≠ ∅) as Hne by by rewrite <-map_size_empty_iff.
    destruct (most_common_spec range counts Hr Hpos Hne) as [H1 H2].
    by eexists.
Qed.

Lemma DetectLanguage_most_common_witness :
  ∃ w' languageCounts,
    TemplatePkg.DetectLanguage rev_counts 5 "/tmpl" small_world
    = Some ("Go", None, w') ∧
    OS.fsys w' = OS.fsys small_world ∧
    language_counts 5 "/tmpl" small_world = Some languageCounts ∧
    languageCounts !! "Go" = Some 1%Z.
Proof.
  set (r := TemplatePkg.DetectLanguage rev_counts 5 "/tmpl" small_world).
  assert (match r with
          | Some (lang, None, _) => lang = "Go"
          | _ => False
          end) as Hr by (vm_compute; reflexivity).
  assert (∀ lang w', r = Some (lang, None, w') →
            OS.fsys w' = OS.fsys small_world ∧
            ∃ languageCounts,
              language_counts 5 "/tmpl" small_world = Some languageCounts ∧
              (languageCounts = ∅ ∧ lang = "Unknown" ∨
               ∃ count, languageCounts !! lang = Some count ∧
                        ∀ other count', languageCounts !! other = Some count' →
                                        (count' ≤ count)%Z)) as Hspec.
  { intros lang w'. apply DetectLanguage_most_common.
    intros m. apply reverse_Permutation. }
  destruct r as [[[lang [e|]] w']|]; try done. subst lang.
  destruct (Hspec _ _ eq_refl) as (Hfs & counts & Hc & Hmax).
  exists w', counts. split; [done|]. split; [done|]. split; [done|].
  assert (language_counts 5 "/tmpl" small_world = Some {["Go" := 1%Z]}) as Hc'
    by (vm_compute; reflexivity).
  rewrite Hc in Hc'. by injection Hc' as ->.
Defined.

Section Scanning.
Import OS Walk TemplatePkg.

Lemma ScanTemplate_reads range fuel name path description w tmpl err w' :
  ScanTemplate range fuel name path description w = Some (tmpl, err, w') →
  fsys w' = fsys w ∧ cwd w' = cwd w.
Proof.
  unfold ScanTemplate. intros H.
  pose proof (Stat_world (Filepath.Abs (cwd w) path) w) as Hw.
  destruct (Stat _ w) as [[info e] w1]. simpl in Hw. subst w1.
  destruct (IsNotExist e); [by injection H as _ _ <-|].
  destruct (DetectLanguage range fuel _ w) as [[[lang e1] w1]|] eqn:Hd; [|done].
  apply DetectLanguage_reads in Hd as [Hfs Hcwd].
  destruct e1; [by injection H as _ _ <-|].
  pose proof (loadIgnorePatterns_world (Filepath.Abs (cwd w) path) w1) as Hw.
  destruct (loadIgnorePatterns _ w1) as [ignores w2]. simpl in Hw. subst w2.
  destruct (Walk _ _ _ _ w1) as [[[e2 files] w2]|] eqn:Hwalk; [|done].
  apply (Walk_invariant (λ _ w2, fsys w2 = fsys w ∧ cwd w2 = cwd w))
    in Hwalk; [|done| |done].
  - by destruct e2; injection H as _ _ <-.
  - intros p info' err' l w3 HP. by rewrite scan_walker_world.
Qed.

(** A directory of which [DetectLanguage] has told the language is
    there. *)
Lemma DetectLanguage_found range fuel dir w lang w' :
  DetectLanguage range fuel dir w = Some (lang, None, w') →
  is_Some (fsys w !! resolve w dir).
Proof.
  unfold DetectLanguage. intros H.
  destruct (Stat_outcome dir w) as [(n & Hn & HS)|(err & HS & Herr)]; [by eauto|].
  exfalso. rewrite HS in H. destruct (IsNotExist (Some err)); [done|].
  pose proof (loadIgnorePatterns_world dir w) as Hw.
  destruct (loadIgnorePatterns dir w) as [ignores w1]. simpl in Hw. subst w1.
  unfold Walk, Lstat in H. rewrite HS in H.
  unfold call, mbind, M_bind, log_visit, detect_walker, mret, M_ret in H.
  cbv beta iota zeta in H. by destruct err.
Qed.

Lemma Abs_idemp wd path :
  Filepath.IsAbs wd = true →
  Filepath.Abs wd (Filepath.Abs wd path) = Filepath.Abs wd path.
Proof.
  intros Hwd. destruct (Abs_normal wd path Hwd) as (segs & Hsegs & ->).
  by apply Abs_abs.
Qed.

Lemma ScanTemplate_fields range fuel name path description w tmpl w' :
  Filepath.IsAbs (cwd w) = true →
  ScanTemplate range fuel name path description w = Some (Some tmpl, None, w') →
  Project.TemplateName tmpl = name ∧
  Project.Path tmpl = Filepath.Abs (cwd w) path ∧
  Project.Description tmpl = description ∧
  is_Some (fsys w !! Project.Path tmpl) ∧
  ∃ w1, DetectLanguage range fuel (Project.Path tmpl) w
        = Some (Project.Language tmpl, None, w1).
Proof.
  unfold ScanTemplate. intros Hcwd H.
  pose proof (Stat_world (Filepath.Abs (cwd w) path) w) as Hw.
  destruct (Stat _ w) as [[info e] w0]. simpl in Hw. subst w0.
  destruct (IsNotExist e); [done|].
  destruct (DetectLanguage range fuel _ w) as [[[lang [e1|]] w1]|] eqn:Hd; try done.
  pose proof (DetectLanguage_found _ _ _ _ _ _ Hd) as Hfound.
  unfold resolve in Hfound. rewrite Abs_idemp in Hfound by done.
  destruct (loadIgnorePatterns _ w1) as [ignores w2].
  destruct (Walk _ _ _ _ w2) as [[[[e2|] files] w3]|]; try done.
  injection H as <- _. simpl. repeat split; [done|]. by exists w1.
Qed.
End Scanning.

(** X23: a template that [ScanTemplate] returns has the name and the
    description it was given, and for its path the cleaned absolute
    path of a directory entry that exists, however the path was
    written; its language is the answer of [DetectLanguage] for that
    path; and the scan has written nothing. *)
Theorem ScanTemplate_absolute
    (range : gmap string Z → list (string * Z)) (fuel : nat)
    (name path description : string) (w w' : OS.world)
    (tmpl : Project.Template) :
  Filepath.IsAbs (OS.cwd w) = true →
  TemplatePkg.ScanTemplate range fuel name path description w
  = Some (Some tmpl, None, w') →
  Project.TemplateName tmpl = name ∧
  Project.Description tmpl = description ∧
  (∃ segs, Forall (λ s, simple s = true) segs ∧
           Project.Path tmpl = abs_path segs) ∧
  is_Some (OS.fsys w !! Project.Path tmpl) ∧
  (∃ w1, TemplatePkg.DetectLanguage range fuel (Project.Path tmpl) w
         = Some (Project.Language tmpl, None, w1)) ∧
  OS.fsys w' = OS.fsys w.
Proof.
  intros Hcwd H.
  destruct (ScanTemplate_fields _ _ _ _ _ _ _ _ Hcwd H) as (H1 & H2 & H3 & H4 & H5).
  apply ScanTemplate_reads in H as [Hfs _].
  repeat split; try done. rewrite H2. by apply Abs_normal.
Qed.

Lemma ScanTemplate_absolute_witness :
  ∃ tmpl w',
    TemplatePkg.ScanTemplate rev_counts 5 "starter" "out/../tmpl/" "" small_world
    = Some (Some tmpl, None, w') ∧
    Project.Path tmpl = "/tmpl" ∧
    Project.TemplateFiles tmpl = ["README.md"; "src/main.go"] ∧
    Project.Language tmpl = "Go" ∧
    OS.fsys w' = OS.fsys small_world.
Proof.
  set (r := TemplatePkg.ScanTemplate rev_counts 5 "starter" "out/../tmpl/" ""
              small_world).
  assert (match r with
          | Some (Some tmpl, None, _) =>
              Project.Path tmpl = "/tmpl" ∧
              Project.TemplateFiles tmpl = ["README.md"; "src/main.go"] ∧
              Project.Language tmpl = "Go"
          | _ => False
          end) as Hr by (vm_compute; done).
  assert (∀ tmpl w', r = Some (Some tmpl, None, w') →
                     OS.fsys w' = OS.fsys small_world) as Hspec.
  { intros tmpl w' H.
    by apply (ScanTemplate_absolute rev_counts 5 "starter" "out/../tmpl/" ""
                small_world w' tmpl) in H as (_ & _ & _ & _ & _ & ?). }
  destruct r as [[[[tmpl|] [e|]] w']|]; try done.
  destruct Hr as (H1 & H2 & H3).
  exists tmpl, w'. repeat split; try done. by apply (Hspec _ _ eq_refl).
Defined.

Section Names.
Import Strings TemplatePkg.

Lemma has_byte_lacks c chars : has_byte c chars = negb (lacks c chars).
Proof.
  induction chars as [|d chars IH]; [done|]. simpl. rewrite IH.
  by destruct (Ascii.eqb d c).
Qed.

Lemma ContainsAny_false s chars :
  ContainsAny s chars = false ↔
  ∀ c, has_byte c chars = true → lacks c s = true.
Proof.
  induction s as [|d s IH].
  - split; [done|done].
  - simpl. rewrite orb_false_iff, IH. split.
    + intros [Hd Hs] c Hc. rewrite (Hs c Hc), andb_true_r.
      apply negb_true_iff, Ascii.eqb_neq. intros ->. congruence.
    + intros H. split.
      * destruct (has_byte d chars) eqn:Hd; [|done].
        specialize (H d Hd). by rewrite Ascii.eqb_refl in H.
      * intros c Hc. specialize (H c Hc). by apply andb_true_iff in H as [_ ?].
Qed.

(** The names that [ValidateName] accepts. *)
Lemma ValidateName_None name :
  ValidateName name = None ↔
  name ≠ "" ∧ ∀ c, invalid_character c = true → lacks c name = true.
Proof.
  unfold ValidateName, invalid_character.
  destruct (String.eqb_spec name "") as [->|Hne]; [by split; [|intros [? _]]|].
  destruct (ContainsAny name invalid_characters) eqn:Hc.
  - split; [done|]. intros [_ H]. apply ContainsAny_false in H. congruence.
  - split; [|done]. intros _. split; [done|]. by apply ContainsAny_false.
Qed.
End Names.

(** X24: when the command that adds a template returns, the name has
    passed [ValidateName] - it is not empty and holds no slash,
    backslash, colon, star, question mark, double quote, angle bracket
    or bar -, the path named a directory, and [GetTemplate] returns for
    the name a template with that name, the cleaned absolute path of the
    directory and, when the flag --language is not blank, the flag
    without the white space around it as its language; the templates of
    other names are as they were. *)
Theorem templateAdd_saves
    (range_counts : gmap string Z → list (string * Z)) (fuel : nat)
    (name path description overrideLang : string)
    (file file' : Config.store) (w w' : OS.world) :
  Filepath.IsAbs (OS.cwd w) = true →
  CmdTemplate.templateAdd range_counts fuel name path description overrideLang
                          file w
  = Some (CmdTemplate.Returned, file', w') →
  (name ≠ "" ∧ ∀ c, invalid_character c = true → lacks c name = true) ∧
  (∃ tmpl mode,
      Config.GetTemplate name file' = inl tmpl ∧
      Project.TemplateName tmpl = name ∧
      Project.Path tmpl = OS.resolve w path ∧
      OS.fsys w !! Project.Path tmpl = Some (OS.Directory mode) ∧
      (Strings.TrimSpace overrideLang ≠ "" →
       Project.Language tmpl = Strings.TrimSpace overrideLang)) ∧
  ∀ other, other ≠ name →
           Config.GetTemplate other file' = Config.GetTemplate other file.
Proof.
  unfold CmdTemplate.templateAdd. intros Hcwd H.
  destruct (OS.Stat path w) as [[info [e|]] w0] eqn:HS; [done|].
  destruct info as [fi|]; [|done].
  apply Stat_Some in HS as (n & Hn & -> & _ & ->).
  cbn [default] in H. unfold id in H.
  destruct n as [mode|mode content]; [|done]. simpl in H.
  destruct (TemplatePkg.ValidateName name) eqn:Hv; [done|].
  apply ValidateName_None in Hv.
  destruct (TemplatePkg.ScanTemplate _ _ _ _ _ w) as [[[[tmpl|] [e|]] w1]|] eqn:Hs;
    try done.
  destruct (ScanTemplate_fields _ _ _ _ _ _ _ _ Hcwd Hs) as (H1 & H2 & H3 & H4 & H5).
  set (saved := if negb (String.eqb (Strings.TrimSpace overrideLang) "")
                then _ else tmpl) in H.
  assert (Project.TemplateName saved = name ∧ Project.Path saved = OS.resolve w path ∧
          (Strings.TrimSpace overrideLang ≠ "" →
           Project.Language saved = Strings.TrimSpace overrideLang))
    as (Hs1 & Hs2 & Hs3).
  { unfold saved. destruct (String.eqb_spec (Strings.TrimSpace overrideLang) ""); simpl.
    - by repeat split.
    - by repeat split. }
  pose proof (AddTemplate_lookup saved file) as (Ha1 & Ha2 & Ha3).
  destruct (Config.AddTemplate saved file) as [[e|] file1]; [done|].
  injection H as <- <-. simpl in Ha2, Ha3. rewrite Hs1 in Ha2, Ha3.
  split; [done|]. split; [|done].
  exists saved, mode. repeat split; try done. by rewrite Hs2.
Qed.

Lemma templateAdd_saves_witness :
  ∃ file' w' tmpl,
    CmdTemplate.templateAdd rev_counts 5 "starter" "tmpl" ""
      (" Gin" +:+ Strings.utf8 [194; 160]) None small_world
    = Some (CmdTemplate.Returned, file', w') ∧
    Config.GetTemplate "starter" file' = inl tmpl ∧
    Project.Path tmpl = "/tmpl" ∧ Project.Language tmpl = "Gin".
Proof.
  set (lang := " Gin" +:+ Strings.utf8 [194; 160]).
  set (r := CmdTemplate.templateAdd rev_counts 5 "starter" "tmpl" "" lang None
              small_world).
  assert (match r with
          | Some (CmdTemplate.Returned, _, _) => True
          | _ => False
          end) as Hr by (vm_compute; done).
  assert (∀ file' w', r = Some (CmdTemplate.Returned, file', w') →
            ∃ tmpl, Config.GetTemplate "starter" file' = inl tmpl ∧
                    Project.Path tmpl = "/tmpl" ∧ Project.Language tmpl = "Gin")
    as Hspec.
  { intros file' w' H.
    apply (templateAdd_saves rev_counts 5 "starter" "tmpl" "" lang None file'
             small_world w') in H as (_ & (tmpl & mode & Hg & _ & Hp & _ & Hl) & _);
      [|done].
    exists tmpl. split; [done|]. split; [done|]. by apply Hl. }
  destruct r as [[[[] file'] w']|]; try done.
  destruct (Hspec _ _ eq_refl) as (tmpl & Hg & Hp & Hl).
  by exists file', w', tmpl.
Defined.

Section ScanEnds.
Import OS Walk TemplatePkg.

Lemma DetectLanguage_ends range fuel a w :
  normal (fsys w) → Forall (λ s, simple s = true) a → height (fsys w) < fuel →
  is_Some (DetectLanguage range fuel (abs_path a) w).
Proof.
  intros Hn Ha Hh. unfold DetectLanguage.
  pose proof (Stat_world (abs_path a) w) as Hsame.
  destruct (Stat (abs_path a) w) as [[info e0] w0]. simpl in Hsame. subst w0.
  destruct (IsNotExist e0); [done|].
  pose proof (loadIgnorePatterns_world (abs_path a) w) as Hw.
  destruct (loadIgnorePatterns _ w) as [ignores w1]. simpl in Hw. subst w1.
  destruct (Walk_ends (detect_walker (abs_path a) ignores)
              (λ path info err l w1, f_equal fsys
                 (proj1 (detect_walker_keeps (abs_path a) ignores path info err l w1)))
              (fsys w) Hn fuel a ∅ w Ha eq_refl Hh) as [[[e counts] w1] ->].
  destruct e; [done|]. by destruct (size counts =? 0)%nat.
Qed.
End ScanEnds.

(** X25: the scan of a template ends: in a process whose working
    directory is rooted, [ScanTemplate] returns - a template or an
    error - as soon as the fuel exceeds the number of elements of the
    longest path in the file system. *)
Theorem ScanTemplate_ends (range : gmap string Z → list (string * Z))
    (fuel : nat) (name path description : string) (w : OS.world) :
  normal (OS.fsys w) → Filepath.IsAbs (OS.cwd w) = true →
  height (OS.fsys w) < fuel →
  is_Some (TemplatePkg.ScanTemplate range fuel name path description w).
Proof.
  intros Hn Hcwd Hh. unfold TemplatePkg.ScanTemplate.
  destruct (Abs_normal (OS.cwd w) path Hcwd) as (a & Ha & ->).
  pose proof (Stat_same_world (abs_path a) w) as Hsame.
  destruct (OS.Stat (abs_path a) w) as [[info e0] w0]. simpl in Hsame. subst w0.
  destruct (OS.IsNotExist e0); [done|].
  destruct (DetectLanguage_ends range fuel a w Hn Ha Hh) as [[[lang e] w1] Hd].
  rewrite Hd. apply DetectLanguage_reads in Hd as [Hfs _].
  destruct e; [done|].
  pose proof (loadIgnorePatterns_world (abs_path a) w1) as Hw.
  destruct (TemplatePkg.loadIgnorePatterns _ w1) as [ignores w2]. simpl in Hw. subst w2.
  rewrite <-Hfs in Hn, Hh.
  destruct (Walk_ends (TemplatePkg.scan_walker (abs_path a) ignores)
              (λ path info err l w2, f_equal OS.fsys
                 (scan_walker_world (abs_path a) ignores path info err l w2))
              (OS.fsys w1) Hn fuel a [] w1 Ha eq_refl Hh) as [[[e files] w2] ->].
  by destruct e.
Qed.

Lemma ScanTemplate_ends_witness :
  is_Some (TemplatePkg.ScanTemplate rev_counts 4 "starter" "tmpl" "" small_world).
Proof.
  apply ScanTemplate_ends.
  - intros k n Hk. unfold small_world in Hk. cbn [OS.fsys] in Hk.
    rewrite !lookup_insert_Some, lookup_empty in Hk.
    destruct Hk as [[<- _]|[_ [[<- _]|[_ [[<- _]|[_ [[<- _]|[_ [[<- _]|[_ [[<- _]|[_ ?]]]]]]]]]]]];
      [| | | | | |done].
    + by exists ["tmpl"; "src"; "main.go"]; split; [repeat constructor|].
    + by exists ["tmpl"; "src"]; split; [repeat constructor|].
    + by exists ["tmpl"; "README.md"]; split; [repeat constructor|].
    + by exists ["tmpl"]; split; [repeat constructor|].
    + by exists ["out"]; split; [repeat constructor|].
    + by exists []; split; [constructor|].
  - done.
  - vm_compute. lia.
Defined.

(** X26: the project command with --language takes the template that
    [SetLanguageDefault] has named for the language: after a default
    with a name that is not empty has been set, [selectByLanguage]
    answers as [selectByName] does for that name. *)
Theorem selectByLanguage_after_set (language templateName : string)
    (file : Config.store) :
  templateName ∈ template_names file → templateName ≠ "" →
  let r := Config.SetLanguageDefault language templateName file in
  r.1 = None ∧
  Cmd.selectByLanguage language r.2 = Cmd.selectByName templateName file ∧
  ∃ tmpl, Cmd.selectByName templateName file = inl tmpl ∧
          Project.TemplateName tmpl = templateName.
Proof.
  intros Hin Hne.
  pose proof (language_default_effect language templateName file)
    as (_ & Hset & _).
  destruct (Hset Hin) as (H1 & H2 & H3 & _). clear Hset.
  split; [done|]. unfold Cmd.selectByLanguage, Cmd.selectByName. rewrite H2.
  destruct (String.eqb_spec templateName ""); [done|].
  assert (Config.GetTemplate templateName
            (Config.SetLanguageDefault language templateName file).2
          = Config.GetTemplate templateName file) as ->.
  { unfold Config.SetLanguageDefault, Config.GetTemplate.
    by destruct (negb _). }
  split; [done|]. unfold Config.GetTemplate.
  destruct (List.find _ _) as [t|] eqn:Hf.
  - exists t. split; [done|]. apply find_some in Hf as [_ Ht].
    by apply String.eqb_eq in Ht.
  - apply find_name_None in Hf. done.
Qed.

Lemma selectByLanguage_after_set_witness :
  Cmd.selectByLanguage "Go" two_templates = inl (template_named "api" "Go").
Proof.
  pose proof (selectByLanguage_after_set "Go" "api"
                (Config.AddTemplate (template_named "cli" "Go")
                   (Config.AddTemplate (template_named "api" "Go") None).2).2)
    as (_ & H & _).
  - apply list_elem_of_In. simpl. tauto.
  - done.
  - exact H.
Defined.

(** X27: the command that removes a template refuses, without --force,
    a template that is the default of a language, and the file stays
    as it is; with --force it removes the template and keeps the
    default, so that the project command with --language then ends on
    the error that the template is not found. *)
Theorem templateRemove_default
    (range : gmap string string → list (string * string))
    (name language : string) (file : Config.store) :
  Utils.enumerates range →
  Config.LanguageDefaults (Config.LoadConfig file) !! language = Some name →
  name ∈ template_names file → name ≠ "" →
  (∃ stderr, CmdTemplate.templateRemove range name false file
             = (CmdTemplate.Exit1 stderr, file)) ∧
  let r := CmdTemplate.templateRemove range name true file in
  r.1 = CmdTemplate.Returned ∧
  (name ∉ template_names r.2) ∧
  Config.GetLanguageDefault language r.2 = name ∧
  Cmd.selectByLanguage language r.2
  = inr (Cmd.exitWithError ("template '" +:+ name +:+ "' not found")).
Proof.
  intros Hr Hl Hin Hne. unfold CmdTemplate.templateRemove.
  pose proof (IsDefaultTemplate_elem range name file Hr) as [_ Hd].
  apply Hd in Hl as Hl'.
  destruct (Config.IsDefaultTemplate range name file) as [|l langs] eqn:Hlangs.
  { by apply elem_of_nil in Hl'. }
  split; [by eexists|]. simpl.
  pose proof (RemoveTemplate_effect name file) as [_ Hrm].
  destruct (Hrm Hin) as (H1 & H2 & H3 & H4). clear Hrm.
  destruct (Config.RemoveTemplate name file) as [[e|] file1]; [done|].
  simpl in *. split; [done|].
  assert (Config.GetLanguageDefault language file1 = name) as Hg.
  { unfold Config.GetLanguageDefault. by rewrite H4, Hl. }
  split; [|split; [done|]].
  - unfold Config.GetTemplate in H2.
    destruct (List.find _ _) eqn:Hf; [done|]. by apply find_name_None in Hf.
  - unfold Cmd.selectByLanguage. rewrite Hg.
    destruct (String.eqb_spec name ""); [done|]. by rewrite H2.
Qed.

Lemma templateRemove_default_witness :
  (∃ stderr, CmdTemplate.templateRemove map_to_list "api" false two_templates
             = (CmdTemplate.Exit1 stderr, two_templates)) ∧
  Cmd.selectByLanguage "Go"
    (CmdTemplate.templateRemove map_to_list "api" true two_templates).2
  = inr (Cmd.exitWithError "template 'api' not found").
Proof.
  pose proof (templateRemove_default map_to_list "api" "Go" two_templates)
    as [H1 (_ & _ & _ & H2)].
  - apply enumerates_map_to_list.
  - by vm_compute.
  - apply list_elem_of_In. simpl. tauto.
  - done.
  - split; [exact H1|exact H2].
Defined.

(** ** The models of the library on small cases *)
Module StringsTests.
Import Strings Utils.
Example replace1 : ReplaceAll "aaaa" "aa" "b" = "bb". Proof. reflexivity. Qed.
Example replace2 : ReplaceAll "aaa" "aa" "b" = "ba". Proof. reflexivity. Qed.
Example replace3 : ReplaceAll "oink oink" "k" "ky" = "oinky oinky". Proof. reflexivity. Qed.
Example replace4 : ReplaceAll "ab" "" "-" = "-a-b-". Proof. reflexivity. Qed.
Example replace5 : ReplaceAll "x{{A}}y{{A}}" "{{A}}" "1" = "x1y1". Proof. reflexivity. Qed.
Example trim1 : TrimSuffix "dist/" "/" = "dist". Proof. reflexivity. Qed.
Example trim2 : TrimSuffix "dist//" "/" = "dist/". Proof. reflexivity. Qed.
Example trim3 : TrimSuffix "dist" "/" = "dist". Proof. reflexivity. Qed.
Example trim4 : TrimSuffix "" "/" = "". Proof. reflexivity. Qed.
Example space1 : TrimSpace "  a b  " = "a b". Proof. reflexivity. Qed.
Example space2 : TrimSpace "   " = "". Proof. reflexivity. Qed.
Example space3 : TrimSpace (utf8 [194; 160; 97; 32; 226; 128; 137]) = "a".
Proof. reflexivity. Qed.
Example space4 : TrimSpace (utf8 [160; 97; 194]) = utf8 [160; 97; 194].
Proof. reflexivity. Qed.
Example upper1 : ToUpper "my-App_1" = "MY-APP_1". Proof. reflexivity. Qed.
Example lower1 : ToLower "My-App_1" = "my-app_1". Proof. reflexivity. Qed.
Example lines1 :
  scan_lines ("a" +:+ line_feed +:+ line_feed +:+ "b") = ["a"; ""; "b"].
Proof. reflexivity. Qed.
Example lines2 : scan_lines ("a" +:+ line_feed) = ["a"]. Proof. reflexivity. Qed.
Example lines3 : scan_lines "" = []. Proof. reflexivity. Qed.
Example patterns1 :
  patterns_of (scan_lines ("# build" +:+ line_feed +:+ " *.log " +:+ line_feed
                           +:+ line_feed +:+ "tmp/"))
  = ["*.log"; "tmp/"].
Proof. reflexivity. Qed.
Example vars1 :
  ParseVars ["LICENSE=MIT"; " K =a=b"] =
  (Some (<["K" := "a=b"]> (<["LICENSE" := "MIT"]> ∅)), None).
Proof. vm_compute. reflexivity. Qed.
Example vars2 : (ParseVars ["LICENSE"]).1 = None. Proof. reflexivity. Qed.
Example binary1 : IsBinary (String Ascii.zero "abc") 8000 = true.
Proof. reflexivity. Qed.
Example binary2 : IsBinary ("abc" +:+ String Ascii.zero "") 3 = false.
Proof. reflexivity. Qed.
Example binary3 : IsBinary ("abc" +:+ String Ascii.zero "") 4 = true.
Proof. reflexivity. Qed.
Example binary4 : IsBinary (String Ascii.zero "abc") (-1) = false.
Proof. reflexivity. Qed.
End StringsTests.

(** [path/filepath] on the cases of its documentation. *)
Module FilepathTests.
Import Filepath.
Example clean1 : Clean "/a/b/../c/./d//" = "/a/c/d". Proof. reflexivity. Qed.
Example clean2 : Clean "a/../.." = "..". Proof. reflexivity. Qed.
Example clean3 : Clean "/.." = "/". Proof. reflexivity. Qed.
Example clean4 : Clean "./" = ".". Proof. reflexivity. Qed.
Example join1 : Join ["demo"; "."] = "demo". Proof. reflexivity. Qed.
Example join2 : Join ["/out/demo"; "src/a.go"] = "/out/demo/src/a.go". Proof. reflexivity. Qed.
Example join3 : Join [""; ""] = "". Proof. reflexivity. Qed.
Example rel1 : Rel "/tmpl" "/tmpl/demo" = ("demo", false). Proof. reflexivity. Qed.
Example rel2 : Rel "/tmpl" "demo" = ("", true). Proof. reflexivity. Qed.
Example rel3 : Rel "/tmpl" "/tmpl" = (".", false). Proof. reflexivity. Qed.
Example rel4 : Rel "/a/b/c" "/a/c/d" = ("../../c/d", false). Proof. reflexivity. Qed.
Example rel5 : Rel ".." "a" = ("", true). Proof. reflexivity. Qed.
Example rel6 : Rel "." "a/b" = ("a/b", false). Proof. reflexivity. Qed.
Example rel7 : Rel "a/b/c/d" "a/b" = ("../..", false). Proof. reflexivity. Qed.
Example rel8 : Rel "/" "/a" = ("a", false). Proof. reflexivity. Qed.
Example rel9 : Rel "ab/cd" "ab/cde" = ("../cde", false). Proof. reflexivity. Qed.
Example rel10 : Rel "/../../a/b" "/../../a/b/c/d" = ("c/d", false). Proof. reflexivity. Qed.
Example base1 : Base "/tmpl/dist" = "dist". Proof. reflexivity. Qed.
Example base2 : Base "/" = "/". Proof. reflexivity. Qed.
Example base3 : Base "." = ".". Proof. reflexivity. Qed.
Example dir1 : Dir "/tmpl/dist" = "/tmpl". Proof. reflexivity. Qed.
Example dir2 : Dir "/tmpl" = "/". Proof. reflexivity. Qed.
Example dir3 : Dir "/" = "/". Proof. reflexivity. Qed.
Example dir4 : Dir "a" = ".". Proof. reflexivity. Qed.
Example m1 : Match ".*" "." = true. Proof. reflexivity. Qed.
Example m3 : Match "*.md" "README.md" = true. Proof. reflexivity. Qed.
Example m4 : Match "*" "a/b" = false. Proof. reflexivity. Qed.
Example m5 : Match "a*/b" "abc/b" = true. Proof. reflexivity. Qed.
Example m6 : Match "[a-c]?x" "b/x" = false. Proof. reflexivity. Qed.
Example m7 : Match "[^a-c]\*" "d*" = true. Proof. reflexivity. Qed.
Example m8 : Match "[]a]" "a" = false. Proof. reflexivity. Qed.
Example m9 : Match "/dist" "dist" = false. Proof. reflexivity. Qed.
Example m10 : Match "a[" "a" = false. Proof. reflexivity. Qed.
Example m11 : Match "[a-c" "a" = false. Proof. reflexivity. Qed.
Example m12 : Match "a*b*c" "aXbYbZc" = true. Proof. reflexivity. Qed.
End FilepathTests.
